(** * cluster-image-registry-operator: reconciliation engine

    A shallow embedding of the operator's reconciliation code and the
    properties its specification states about it.

    Layout (one module per source file):
    - [GoErr]      Go error values and the apimachinery predicates
                   [IsNotFound] / [IsConflict];
    - [Retry], [Wait]  the client libraries' retry and poll loops;
    - [Handler]    pkg/operator handler (conditions, deployment status,
                   event dispatch, [NewHandler]);
    - [Apply]      pkg/operator/apply.go ([ApplyTemplate], [ApplyService]);
    - [Generate]   pkg/operator/generate.go and the pod template generator;
    - [Resource]   pkg/resource/generator.go ([syncStorage],
                   [removeObsoleteRoutes], [Apply], [Remove]). *)

From Stdlib Require Import ZArith Lia Ascii.
From stdpp Require Import base option list strings gmap pretty.

Local Open Scope string_scope.
Local Open Scope list_scope.
Local Open Scope Z_scope.

(** ** Go errors *)

Module GoErr.

(** [metav1.StatusReason], as far as the operator inspects it. *)
Inductive StatusReason :=
| StatusReasonNotFound
| StatusReasonConflict
| StatusReasonAlreadyExists
| StatusReasonForbidden
| StatusReasonInternalError.

(** The dynamic types of [error] values that the operator distinguishes. *)
Inductive error :=
| StatusError (reason : StatusReason) (msg : string)  (* *errors.StatusError *)
| PlainError (msg : string)                           (* fmt.Errorf / errors.New *)
| ErrWaitTimeout                                      (* wait.ErrWaitTimeout *)
| ErrStorageNotConfigured                             (* storage.ErrStorageNotConfigured *)
| ConfigurationError (msg : string).                  (* *util.ConfigurationError *)

#[global] Instance StatusReason_eq_dec : EqDecision StatusReason.
Proof. solve_decision. Defined.
#[global] Instance error_eq_dec : EqDecision error.
Proof. solve_decision. Defined.

(** [err.Error()] *)
Definition Error (e : error) : string :=
  match e with
  | StatusError _ msg => msg
  | PlainError msg => msg
  | ErrWaitTimeout => "timed out waiting for the condition"
  | ErrStorageNotConfigured => "storage backend not configured"
  | ConfigurationError msg => msg
  end.

(** [errors.IsNotFound], [errors.IsConflict]: true only for a status error
    with that reason; an error rebuilt by [fmt.Errorf] is a plain error. *)
Definition IsNotFound (e : error) : bool :=
  match e with StatusError StatusReasonNotFound _ => true | _ => false end.

Definition IsConflict (e : error) : bool :=
  match e with StatusError StatusReasonConflict _ => true | _ => false end.

(** Go's [(T, error)] result with a nil or non-nil error. *)
Inductive result (A : Type) :=
| Ok (a : A)
| Err (e : error).
Arguments Ok {A} a.
Arguments Err {A} e.

Definition is_Ok {A} (r : result A) : bool :=
  match r with Ok _ => true | Err _ => false end.

(** A call either returns or panics (a nil pointer is dereferenced). *)
Inductive outcome (A : Type) :=
| Returns (a : A)
| Panics (reason : string).
Arguments Returns {A} a.
Arguments Panics {A} reason.

(** A state-passing computation over a world [W]; a Go [error] return is an
    [option error] ([None] is nil). *)
Definition M (W A : Type) : Type := W → A * W.

Definition ret {W A} (a : A) : M W A := λ w, (a, w).
Definition bind {W A B} (m : M W A) (k : A → M W B) : M W B :=
  λ w, let '(a, w') := m w in k a w'.

(** A closure runs in the world extended with the variables [L] that it
    captures: [liftL] runs a computation that does not touch them, [getL]
    reads them and [putL] assigns them. *)
Definition liftL {W L A} (m : M W A) : M (W * L) A :=
  λ wl, let '(a, w') := m wl.1 in (a, (w', wl.2)).
Definition getL {W L} : M (W * L) L := λ wl, (wl.2, wl).
Definition putL {W L} (l : L) : M (W * L) unit := λ wl, (tt, (wl.1, l)).

End GoErr.

Export GoErr.

Notation "x <- m ;; k" := (bind m (λ x, k))
  (at level 100, m at next level, right associativity).

(** ** Library loops: [retry.RetryOnConflict] and [wait.PollImmediate]

    Both belong to the Kubernetes client libraries, not to the operator.
    They are written out here as the loops they are, so that the operator's
    closures run inside them. *)

Module Retry.

(** [retry.DefaultBackoff.Steps] *)
Definition DefaultBackoffSteps : nat := 4.

(** [RetryOnConflict(backoff, fn)]: [fn] runs up to [steps] times; a nil
    result or an error that is not a conflict ends the loop; when the steps
    run out the last conflict error is returned. The sleeps between the
    attempts do not touch the world. *)
Fixpoint RetryOnConflict_loop {W} (steps : nat) (fn : M W (option error))
    (lastConflictErr : option error) : M W (option error) :=
  match steps with
  | O => ret lastConflictErr
  | S n =>
      err <- fn ;;
      match err with
      | None => ret None
      | Some e =>
          if IsConflict e
          then RetryOnConflict_loop n fn (Some e)
          else ret (Some e)
      end
  end.

Definition RetryOnConflict {W} (steps : nat) (fn : M W (option error))
    : M W (option error) :=
  RetryOnConflict_loop steps fn None.

End Retry.

Module Wait.

(** [time.Duration] counts nanoseconds. *)
Definition Nanosecond : Z := 1.
Definition Second : Z := 1000000000 * Nanosecond.
Definition Minute : Z := 60 * Second.

(** A world with a clock: the poll loop sleeps by advancing it. *)
Class Clocked (W : Type) := {
  now : W → Z;
  sleep : Z → W → W;
}.

(** The return of a [wait.ConditionFunc]: [(done, err)]. *)
Definition ConditionResult : Type := bool * option error.

(** [WaitFor]: one call of the condition per tick, [ticks] ticks in all; an
    error or [done] ends the loop, and when the ticks run out the result is
    [ErrWaitTimeout]. The condition is a closure: [L] is the type of the
    variables it captures and assigns. *)
Fixpoint WaitFor {W L} `{Clocked W} (ticks : nat) (interval : Z)
    (condition : L → M W (ConditionResult * L)) (l : L)
    : M W (option error * L) :=
  match ticks with
  | O => ret (Some ErrWaitTimeout, l)
  | S n =>
      _ <- (λ w, (tt, sleep interval w)) ;;
      r <- condition l ;;
      match r with
      | ((_, Some e), l') => ret (Some e, l')
      | ((true, None), l') => ret (None, l')
      | ((false, None), l') => WaitFor n interval condition l'
      end
  end.

(** [PollImmediate(interval, timeout, condition)]: the condition is tried at
    once, then once per [interval] until [timeout] has passed. *)
Definition PollImmediate {W L} `{Clocked W} (interval timeout : Z)
    (condition : L → M W (ConditionResult * L)) (l : L)
    : M W (option error * L) :=
  r <- condition l ;;
  match r with
  | ((_, Some e), l') => ret (Some e, l')
  | ((true, None), l') => ret (None, l')
  | ((false, None), l') =>
      WaitFor (Z.to_nat (timeout / interval)) interval condition l'
  end.

(** [n] instants, [interval] apart, from [t] on: when a poll loop that
    starts at [t] tries its condition. *)
Fixpoint pollTimes (t interval : Z) (n : nat) : list Z :=
  match n with
  | O => []
  | S n => t :: pollTimes (t + interval) interval n
  end.

End Wait.

(** ** Kubernetes API objects, as far as the generators fill them *)

Module K8s.

Record TypeMeta := {
  APIVersion : string;
  Kind : string;
}.

Record OwnerReference := {
  or_APIVersion : string;
  or_Kind : string;
  or_Name : string;
  or_UID : string;
  or_Controller : option bool;
}.

(** Go's nil map reads like the empty map; both are [∅] here. *)
Record ObjectMeta := {
  Name : string;
  Namespace : string;
  Labels : gmap string string;
  Annotations : gmap string string;
  OwnerReferences : list OwnerReference;
  UID : string;               (* assigned by the cluster *)
  ResourceVersion : string;   (* assigned by the cluster *)
}.

Definition emptyMeta : ObjectMeta :=
  {| Name := ""; Namespace := ""; Labels := ∅; Annotations := ∅;
     OwnerReferences := []; UID := ""; ResourceVersion := "" |}.

Definition SetAnnotations (m : ObjectMeta) (a : gmap string string) : ObjectMeta :=
  {| Name := Name m; Namespace := Namespace m; Labels := Labels m;
     Annotations := a; OwnerReferences := OwnerReferences m;
     UID := UID m; ResourceVersion := ResourceVersion m |}.

Definition SetOwnerReferences (m : ObjectMeta) (o : list OwnerReference) : ObjectMeta :=
  {| Name := Name m; Namespace := Namespace m; Labels := Labels m;
     Annotations := Annotations m; OwnerReferences := o;
     UID := UID m; ResourceVersion := ResourceVersion m |}.

Record SecretKeySelector := {
  sks_Name : string;     (* LocalObjectReference.Name *)
  sks_Key : string;
}.

Record EnvVar := {
  ev_Name : string;
  ev_Value : string;
  ev_ValueFrom : option SecretKeySelector;   (* ValueFrom.SecretKeyRef *)
}.

Definition envValue (name value : string) : EnvVar :=
  {| ev_Name := name; ev_Value := value; ev_ValueFrom := None |}.

Definition envSecret (name secret key : string) : EnvVar :=
  {| ev_Name := name; ev_Value := "";
     ev_ValueFrom := Some {| sks_Name := secret; sks_Key := key |} |}.

Record VolumeSource := {
  vs_HostPath : option string;
  vs_EmptyDir : option string;
  vs_PersistentVolumeClaim : option string;
  vs_ConfigMap : option string;   (* ConfigMap.LocalObjectReference.Name *)
}.

Record Volume := {
  vol_Name : string;
  vol_VolumeSource : VolumeSource;
}.

Record VolumeMount := {
  vm_Name : string;
  vm_MountPath : string;
}.

(** [int32(x)]: conversion of an [int] to 32 bits wraps around. *)
Definition int32 (x : Z) : Z := (x + 2 ^ 31) `mod` 2 ^ 32 - 2 ^ 31.

Record Probe := {
  pr_TimeoutSeconds : Z;
  pr_InitialDelaySeconds : Z;
  pr_Scheme : string;      (* Handler.HTTPGet.Scheme *)
  pr_Path : string;
  pr_Port : Z;             (* intstr.FromInt *)
}.

Record ContainerPort := {
  cp_ContainerPort : Z;
  cp_Protocol : string;
}.

Record Container := {
  c_Name : string;
  c_Image : string;
  c_Ports : list ContainerPort;
  c_Env : list EnvVar;
  c_VolumeMounts : list VolumeMount;
  c_LivenessProbe : option Probe;
  c_ReadinessProbe : option Probe;
  c_Requests : list (string * string);   (* Resources.Requests *)
}.

Record PodSecurityContext := {
  FSGroup : option Z;
}.

Record PodSpec := {
  ps_NodeSelector : gmap string string;
  ps_Containers : list Container;
  ps_Volumes : list Volume;
  ps_ServiceAccountName : string;
  ps_SecurityContext : option PodSecurityContext;
}.

Record PodTemplateSpec := {
  pt_ObjectMeta : ObjectMeta;
  pt_Spec : PodSpec;
}.

Record DeploymentConfigSpec := {
  dcs_Replicas : Z;
  dcs_Selector : gmap string string;
  dcs_Triggers : list string;             (* the trigger policies' Type *)
  dcs_Template : option PodTemplateSpec;
}.

Record DeploymentConfig := {
  dc_TypeMeta : TypeMeta;
  dc_ObjectMeta : ObjectMeta;
  dc_Spec : DeploymentConfigSpec;
}.

Record ServicePort := {
  sp_Name : string;
  sp_Port : Z;
  sp_Protocol : string;
  sp_TargetPort : Z;
}.

Record ServiceSpec := {
  ss_Selector : gmap string string;
  ss_Type : string;
  ss_Ports : list ServicePort;
  ss_ClusterIP : string;   (* set by the cluster, not by the operator *)
}.

Record Service := {
  svc_TypeMeta : TypeMeta;
  svc_ObjectMeta : ObjectMeta;
  svc_Spec : ServiceSpec;
}.

Record Project := {
  prj_TypeMeta : TypeMeta;
  prj_ObjectMeta : ObjectMeta;
}.

(** A [runtime.Object] of any kind: its type, its metadata if it has any
    ([kmeta.Accessor] fails otherwise), and the rest of its fields. *)
Record Object := {
  o_TypeMeta : TypeMeta;
  o_ObjectMeta : option ObjectMeta;
  o_Content : string;
}.

(** [kmeta.Accessor] *)
Definition Accessor (o : Object) : result ObjectMeta :=
  match o_ObjectMeta o with
  | Some m => Ok m
  | None => Err (PlainError "object does not implement the Object interfaces")
  end.

Definition setObjectMeta (o : Object) (m : ObjectMeta) : Object :=
  {| o_TypeMeta := o_TypeMeta o; o_ObjectMeta := Some m; o_Content := o_Content o |}.

(** The operator-sdk client: [sdk.Get] fills the object it is given from the
    cluster, [sdk.Create] and [sdk.Update] write the object they are given.
    [S] is the cluster. *)
Class SDK (S T : Type) := {
  sdk_Get : T → S → result T * S;
  sdk_Create : T → S → option error * S;
  sdk_Update : T → S → option error * S;
  sdk_key : T → string;
}.

Inductive SdkCall :=
| SdkGet (key : string)
| SdkCreate (key : string)
| SdkUpdate (key : string).

#[global] Instance SdkCall_eq_dec : EqDecision SdkCall.
Proof. solve_decision. Defined.

Definition isWrite (c : SdkCall) : bool :=
  match c with
  | SdkGet _ => false
  | SdkCreate _ | SdkUpdate _ => true
  end.

Record SdkWorld (S : Type) := {
  sdk_calls : list SdkCall;
  sdk_cluster : S;
}.
Arguments sdk_calls {S} _.
Arguments sdk_cluster {S} _.

Definition sdkCall {S A} (c : SdkCall) (op : S → A * S) : M (SdkWorld S) A :=
  λ w, let '(a, s') := op (sdk_cluster w) in
       (a, {| sdk_calls := sdk_calls w ++ [c]; sdk_cluster := s' |}).

Definition Get {S T} `{SDK S T} (o : T) : M (SdkWorld S) (result T) :=
  sdkCall (SdkGet (sdk_key o)) (sdk_Get o).
Definition Create {S T} `{SDK S T} (o : T) : M (SdkWorld S) (option error) :=
  sdkCall (SdkCreate (sdk_key o)) (sdk_Create o).
Definition Update {S T} `{SDK S T} (o : T) : M (SdkWorld S) (option error) :=
  sdkCall (SdkUpdate (sdk_key o)) (sdk_Update o).

(** [checksum(o)]: the SHA-256 of the JSON of [o]; marshalling may fail. *)
Class Checksum (T : Type) := checksum : T → result string.

End K8s.

(** ** The custom resource and the parameters of the generators *)

Module V1alpha1.
Import K8s.

Record FilesystemStorage := {
  fs_VolumeSource : VolumeSource;
}.

Record AzureStorage := {
  AccountName : string;
  AccountKey : string;
  az_Container : string;
}.

Record GCSStorage := {
  gcs_Bucket : string;
}.

Record S3Storage := {
  AccessKey : string;
  SecretKey : string;
  s3_Bucket : string;
  Region : string;
  RegionEndpoint : string;
  Encrypt : bool;
}.

Record SwiftStorage := {
  AuthURL : string;
  Username : string;
  Password : string;
  sw_Container : string;
}.

(** The storage union: every variant is a pointer. *)
Record Storage := {
  Filesystem : option FilesystemStorage;
  Azure : option AzureStorage;
  GCS : option GCSStorage;
  S3 : option S3Storage;
  Swift : option SwiftStorage;
}.

Record RequestsLimits := {
  MaxRunning : Z;
  MaxInQueue : Z;
  MaxWaitInQueue : Z;     (* time.Duration *)
}.

(** [v1alpha1.OpenShiftDockerRegistry]. The fields from [HTTPSecret] on
    belong to the later revision of the type that the pod template
    generator reads. *)
Record OpenShiftDockerRegistry := {
  cr_TypeMeta : TypeMeta;
  cr_Name : string;
  cr_Namespace : string;
  cr_UID : string;
  Spec_Storage : Storage;
  Spec_Replicas : Z;
  Spec_NodeSelector : gmap string string;
  Spec_ImagePullSpec : string;
  Spec_HTTPSecret : string;
  Spec_LoggingLevel : Z;
  Spec_TLS : option bool;              (* *bool *)
  Spec_RequestsRead : RequestsLimits;
  Spec_RequestsWrite : RequestsLimits;
}.

(** [Parameters] of pkg/operator, later [parameters.Globals]. *)
Record Parameters := {
  Container_Port : Z;
  Container_UseTLS : bool;
  Container_Name : string;
  Healthz_Route : string;
  Healthz_TimeoutSeconds : Z;
  Deployment_Name : string;
  Deployment_Namespace : string;
  Deployment_Labels : gmap string string;
  Pod_ServiceAccount : string;
}.

(** How many variants of the storage union are populated. *)
Definition populated {A} (o : option A) : Z :=
  match o with Some _ => 1 | None => 0 end.

Definition storageVariants (s : Storage) : Z :=
  populated (Filesystem s) + populated (Azure s) + populated (GCS s) +
  populated (S3 s) + populated (Swift s).

(** The custom resource with another storage configuration. *)
Definition withStorage (cr : OpenShiftDockerRegistry) (s : Storage)
    : OpenShiftDockerRegistry :=
  {| cr_TypeMeta := cr_TypeMeta cr; cr_Name := cr_Name cr;
     cr_Namespace := cr_Namespace cr; cr_UID := cr_UID cr;
     Spec_Storage := s;
     Spec_Replicas := Spec_Replicas cr; Spec_NodeSelector := Spec_NodeSelector cr;
     Spec_ImagePullSpec := Spec_ImagePullSpec cr; Spec_HTTPSecret := Spec_HTTPSecret cr;
     Spec_LoggingLevel := Spec_LoggingLevel cr; Spec_TLS := Spec_TLS cr;
     Spec_RequestsRead := Spec_RequestsRead cr;
     Spec_RequestsWrite := Spec_RequestsWrite cr |}.

(** A storage configuration with other credentials: the account of Azure,
    the keys of S3 and the user of Swift are replaced, and nothing else. *)
Definition withCredentials (name key : string) (s : Storage) : Storage :=
  {| Filesystem := Filesystem s;
     Azure := (λ azure, {| AccountName := name; AccountKey := key;
                           az_Container := az_Container azure |}) <$> Azure s;
     GCS := GCS s;
     S3 := (λ s3, {| AccessKey := name; SecretKey := key;
                     s3_Bucket := s3_Bucket s3; Region := Region s3;
                     RegionEndpoint := RegionEndpoint s3; Encrypt := Encrypt s3 |}) <$> S3 s;
     Swift := (λ swift, {| AuthURL := AuthURL swift; Username := name; Password := key;
                           sw_Container := sw_Container swift |}) <$> Swift s |}.

End V1alpha1.

(** ** Text conversions of the Go library *)

Module GoText.

(** [strconv.ParseUint(s, 10, 64)]'s digit loop, without its range check. *)
Fixpoint parseDigits (s : string) (acc : Z) : option Z :=
  match s with
  | EmptyString => Some acc
  | String c s =>
      let d := Z.of_nat (Ascii.nat_of_ascii c) - 48 in
      if (0 <=? d) && (d <=? 9) then parseDigits s (acc * 10 + d) else None
  end.

Inductive ParseIntFailure := ErrSyntax | ErrRange.

(** [strconv.ParseInt(s, 10, 64)]: an optional sign, then one or more
    decimal digits; the value has to fit 64 bits. *)
Definition ParseInt10_64 (s : string) : ParseIntFailure + Z :=
  match s with
  | EmptyString => inl ErrSyntax
  | String c rest =>
      let '(neg, digits) :=
        if Ascii.eqb c "-"%char then (true, rest)
        else if Ascii.eqb c "+"%char then (false, rest)
        else (false, s) in
      match digits with
      | EmptyString => inl ErrSyntax
      | _ =>
          match parseDigits digits 0 with
          | None => inl ErrSyntax
          | Some n =>
              let v := if neg then - n else n in
              if (- 2 ^ 63 <=? v) && (v <? 2 ^ 63) then inr v else inl ErrRange
          end
      end
  end.

(** [fmt.Sprintf("%v", b)] *)
Definition fmt_bool (b : bool) : string := if b then "true" else "false".

(** [fmt.Sprintf("%d", x)] *)
Definition fmt_d (x : Z) : string := pretty x.

End GoText.

(** ** The event handler: conditions and deployment status *)

Module Handler.

(** [operatorapi.ConditionStatus] and [osapi.ConditionStatus] are string
    types. *)
Definition ConditionTrue : string := "True".
Definition ConditionFalse : string := "False".
Definition ConditionUnknown : string := "Unknown".

Definition OperatorStatusTypeAvailable : string := "Available".
Definition OperatorStatusTypeSyncSuccessful : string := "SyncSuccessful".

Definition OperatorAvailable : string := "Available".
Definition OperatorProgressing : string := "Progressing".
Definition OperatorFailing : string := "Failing".

(** [metav1.Time], as seconds of the clock that [metav1.Now] reads. *)
Definition Time := Z.

Record OperatorCondition := {
  Type_ : string;
  Status : string;
  LastTransitionTime : Time;
  Reason : string;
  Message : string;
}.

#[global] Instance OperatorCondition_eq_dec : EqDecision OperatorCondition.
Proof. solve_decision. Defined.

Inductive ManagementState := Managed | Unmanaged | Removed.

Record ImageRegistryStatus := {
  Conditions : list OperatorCondition;
  ObservedGeneration : Z;
  InternalRegistryHostname : string;
}.

Record ImageRegistry := {
  Name : string;
  Namespace : string;
  UID : string;
  Generation : Z;
  DeletionTimestamp : option Time;
  SpecManagementState : ManagementState;
  SpecStorage : V1alpha1.Storage;
  CRStatus : ImageRegistryStatus;
}.

Definition setConditions (cr : ImageRegistry) (cs : list OperatorCondition) : ImageRegistry :=
  {| Name := Name cr; Namespace := Namespace cr; UID := UID cr;
     Generation := Generation cr;
     DeletionTimestamp := DeletionTimestamp cr;
     SpecManagementState := SpecManagementState cr;
     SpecStorage := SpecStorage cr;
     CRStatus := {| Conditions := cs;
                    ObservedGeneration := ObservedGeneration (CRStatus cr);
                    InternalRegistryHostname := InternalRegistryHostname (CRStatus cr) |} |}.

(** The locals of [updateCondition]'s loop. *)
Record ucState := {
  uc_modified : bool;
  uc_found : bool;
  uc_conditions : list OperatorCondition;
}.

(** One iteration of [for _, c := range cr.Status.Conditions]. *)
Definition updateCondition_step (condition : OperatorCondition)
    (st : ucState) (c : OperatorCondition) : ucState :=
  if negb (String.eqb (Type_ condition) (Type_ c)) then
    {| uc_modified := uc_modified st; uc_found := uc_found st;
       uc_conditions := uc_conditions st ++ [c] |}
  else
    {| uc_modified := if negb (String.eqb (Status condition) (Status c))
                      then true else uc_modified st;
       uc_found := true;
       uc_conditions := uc_conditions st ++ [condition] |}.

(** [updateCondition]: the new condition list of [cr] and [modified]. *)
Definition updateCondition (cr : ImageRegistry) (condition : OperatorCondition)
    : ImageRegistry * bool :=
  let st := fold_left (updateCondition_step condition)
              (Conditions (CRStatus cr))
              {| uc_modified := false; uc_found := false; uc_conditions := [] |} in
  let st := if negb (uc_found st)
            then {| uc_modified := true; uc_found := uc_found st;
                    uc_conditions := uc_conditions st ++ [condition] |}
            else st in
  (setConditions cr (uc_conditions st), uc_modified st).

(** [conditionResourceApply]; [now] is what [metav1.Now()] returns, and
    [modified] is the value behind the [*bool]. The [logrus] call writes a log
    line only. *)
Definition conditionResourceApply (now : Time) (cr : ImageRegistry)
    (status : string) (m : string) (modified : bool) : ImageRegistry * bool :=
  let '(cr', changed) :=
    updateCondition cr
      {| Type_ := OperatorStatusTypeAvailable;
         Status := status;
         LastTransitionTime := now;
         Reason := "ResourceApplied";
         Message := m |} in
  (cr', if changed then true else modified).

(** [conditionSyncDeployment] *)
Definition conditionSyncDeployment (now : Time) (cr : ImageRegistry)
    (syncSuccessful : string) (m : string) (modified : bool) : ImageRegistry * bool :=
  let reason := if String.eqb syncSuccessful ConditionFalse
                then "DeploymentInProgress" else "DeploymentProgressed" in
  let '(cr', changed) :=
    updateCondition cr
      {| Type_ := OperatorStatusTypeSyncSuccessful;
         Status := syncSuccessful;
         LastTransitionTime := now;
         Reason := reason;
         Message := m |} in
  (cr', if changed then true else modified).

(** The deployment objects whose status the handler reads. Replica counts
    are [int32], generations [int64]; only comparisons are made on them. *)
Record DeploymentStatus := {
  UpdatedReplicas : Z;
  Replicas : Z;
  AvailableReplicas : Z;
  StatusObservedGeneration : Z;
}.

Record DeploymentConfig := {   (* appsapi.DeploymentConfig *)
  dc_Generation : Z;
  dc_SpecReplicas : Z;
  dc_Status : DeploymentStatus;
}.

Record Deployment := {         (* kappsapi.Deployment *)
  d_Generation : Z;
  d_SpecReplicas : option Z;   (* *int32 *)
  d_Status : DeploymentStatus;
}.

(** [runtime.Object], by the dynamic types of the type switches. *)
Inductive Object :=
| ObjDeploymentConfig (deploy : DeploymentConfig)
| ObjDeployment (deploy : Deployment)
| ObjOther (kind : string).

Definition isDeploymentStatusAvailable (o : Object) : bool :=
  match o with
  | ObjDeploymentConfig deploy => 0 <? AvailableReplicas (dc_Status deploy)
  | ObjDeployment deploy => 0 <? AvailableReplicas (d_Status deploy)
  | ObjOther _ => false
  end.

Definition isDeploymentStatusComplete (o : Object) : bool :=
  match o with
  | ObjDeploymentConfig deploy =>
      (UpdatedReplicas (dc_Status deploy) =? dc_SpecReplicas deploy) &&
      (Replicas (dc_Status deploy) =? dc_SpecReplicas deploy) &&
      (AvailableReplicas (dc_Status deploy) =? dc_SpecReplicas deploy) &&
      (dc_Generation deploy <=? StatusObservedGeneration (dc_Status deploy))
  | ObjDeployment deploy =>
      let replicas := match d_SpecReplicas deploy with
                      | Some r => r
                      | None => 1
                      end in
      (UpdatedReplicas (d_Status deploy) =? replicas) &&
      (Replicas (d_Status deploy) =? replicas) &&
      (AvailableReplicas (d_Status deploy) =? replicas) &&
      (d_Generation deploy <=? StatusObservedGeneration (d_Status deploy))
  | ObjOther _ => false
  end.

(** A call of [h.clusterStatus.Update(type, status, msg)]. Its error is only
    logged, so the handler's result depends on the call, not on its outcome. *)
Record ClusterStatusUpdate := {
  cs_type : string;
  cs_status : string;
  cs_msg : string;
}.

(** The four comparisons as the specification words them: every observed
    value equal to its target. *)
Definition allFourEqual (o : Object) : Prop :=
  match o with
  | ObjDeploymentConfig deploy =>
      UpdatedReplicas (dc_Status deploy) = dc_SpecReplicas deploy ∧
      Replicas (dc_Status deploy) = dc_SpecReplicas deploy ∧
      AvailableReplicas (dc_Status deploy) = dc_SpecReplicas deploy ∧
      StatusObservedGeneration (dc_Status deploy) = dc_Generation deploy
  | ObjDeployment deploy =>
      UpdatedReplicas (d_Status deploy) = default 1 (d_SpecReplicas deploy) ∧
      Replicas (d_Status deploy) = default 1 (d_SpecReplicas deploy) ∧
      AvailableReplicas (d_Status deploy) = default 1 (d_SpecReplicas deploy) ∧
      StatusObservedGeneration (d_Status deploy) = d_Generation deploy
  | ObjOther _ => False
  end.

(** The comparisons the code makes: three equalities on replica counts, and
    an observed generation that has caught up with the current one. *)
Definition rolloutComplete (o : Object) : Prop :=
  match o with
  | ObjDeploymentConfig deploy =>
      UpdatedReplicas (dc_Status deploy) = dc_SpecReplicas deploy ∧
      Replicas (dc_Status deploy) = dc_SpecReplicas deploy ∧
      AvailableReplicas (dc_Status deploy) = dc_SpecReplicas deploy ∧
      dc_Generation deploy ≤ StatusObservedGeneration (dc_Status deploy)
  | ObjDeployment deploy =>
      UpdatedReplicas (d_Status deploy) = default 1 (d_SpecReplicas deploy) ∧
      Replicas (d_Status deploy) = default 1 (d_SpecReplicas deploy) ∧
      AvailableReplicas (d_Status deploy) = default 1 (d_SpecReplicas deploy) ∧
      d_Generation deploy ≤ StatusObservedGeneration (d_Status deploy)
  | ObjOther _ => False
  end.

End Handler.

(** ** pkg/resource/generator.go *)

Module Resource.

(** [metaapi.DeleteOptions]; both fields are pointers. *)
Definition DeletePropagationForeground : string := "Foreground".

Record DeleteOptions := {
  GracePeriodSeconds : option Z;
  PropagationPolicy : option string;
}.

#[global] Instance DeleteOptions_eq_dec : EqDecision DeleteOptions.
Proof. solve_decision. Defined.

(** [imageregistryv1.ImageRegistryConfigRoute] *)
Record ImageRegistryConfigRoute := {
  Name : string;
  Hostname : string;
  SecretName : string;
}.

(** [routeapi.Route], as far as the generator looks at it. *)
Record Route := {
  route_Name : string;
  route_Namespace : string;
  route_Labels : gmap string string;
  route_Owners : list string;
}.

(** [parameters.Globals], as far as the generator looks at it. *)
Record Globals := {
  Deployment_Namespace : string;
}.

(** What the generator asks of the cluster, in the order it asks. The
    storage removal carries the clock reading at which it was made. *)
Inductive Call :=
| CallStorageChanged
| CallStorageExists
| CallCreateStorage
| CallRemoveStorage (at_ : Z)
| CallRoutesList
| CallRouteDelete (namespace name : string) (opts : DeleteOptions)
| CallGet (name : string)
| CallCreate (name : string)
| CallUpdate (name : string)
| CallDelete (name : string) (opts : DeleteOptions).

#[global] Instance Call_eq_dec : EqDecision Call.
Proof. solve_decision. Defined.

Section Model.

(** The cluster and the storage provider behind the clients; every client
    call is a transition of it. *)
Context {S : Type}.
(** [runtime.Object] *)
Context {Obj : Type}.
(** [imageregistryv1.ImageRegistryConfigStorage] and the storage status,
    declared in the API package. *)
Context {StorageSpec StorageStatus : Type}.
(** [*rest.Config] and the typed clients other than the route client. *)
Context {RestConfig CoreClient AppsClient RbacClient ConfigClient : Type}.

(** [imageregistryv1.Config]. The functions below read [cr] and hand the
    pointer on; they never read back what a collaborator may have written
    through it. *)
Record Config := {
  Spec_DefaultRoute : bool;
  Spec_Routes : list ImageRegistryConfigRoute;
  Spec_Storage : StorageSpec;
  Status_Storage : StorageStatus;
}.

Record World := {
  clock : Z;
  calls : list Call;
  cluster : S;
}.

#[export] Instance World_Clocked : Wait.Clocked World := {|
  Wait.now := clock;
  Wait.sleep d w := {| clock := clock w + d; calls := calls w; cluster := cluster w |};
|}.

(** A client call: the transition of the cluster, recorded in [calls]. *)
Definition call {A} (c : Z → Call) (op : S → A * S) : M World A :=
  λ w, let '(a, s') := op (cluster w) in
       (a, {| clock := clock w; calls := calls w ++ [c (clock w)]; cluster := s' |}).

(** The [Mutator] interface. [mName] is what the package's [Name(gen)]
    prints for the mutator in messages. *)
Record Mutator := {
  GetName : string;
  mName : string;
  Get : S → result Obj * S;
  Create : S → result Obj * S;
  Update : Obj → S → result (Obj * bool) * S;
  Delete : DeleteOptions → S → option error * S;
  Owned : bool;
}.

(** The storage [Driver] interface. *)
Record Driver := {
  StorageChanged : Config → S → bool * S;
  StorageExists : Config → S → (bool * option error) * S;
  CreateStorage : Config → S → option error * S;
  RemoveStorage : Config → S → (bool * option error) * S;
}.

(** [routeset.RouteV1Interface]: [Routes(namespace).Delete(name, opts)]. *)
Record RouteClient := {
  Routes_Delete : string → string → DeleteOptions → S → option error * S;
}.

(** [client.Listers]: [Routes.List(labels.Everything())]. *)
Record Listers := {
  Routes_List : S → result (list Route) * S;
}.

Record Generator := {
  kubeconfig : RestConfig;
  listers : Listers;
  params : Globals;
}.

(** The collaborators of other packages and files: client constructors,
    the storage driver factory, the mutator constructors, and the two
    helpers of the route file. *)
Record Env := {
  DefaultRouteName : string;
  coreset_NewForConfig : RestConfig → result CoreClient;
  appsset_NewForConfig : RestConfig → result AppsClient;
  rbacset_NewForConfig : RestConfig → result RbacClient;
  routeset_NewForConfig : RestConfig → result RouteClient;
  configset_NewForConfig : RestConfig → result ConfigClient;
  NewDriver : StorageSpec → RestConfig → Listers → result Driver;
  NewDriverFromStatus : StorageStatus → RestConfig → Listers → result Driver;
  RouteIsCreatedByOperator : Route → bool;
  newGeneratorClusterRole : Listers → RbacClient → Config → Mutator;
  newGeneratorClusterRoleBinding : Listers → RbacClient → Globals → Config → Mutator;
  newGeneratorServiceAccount : Listers → CoreClient → Globals → Config → Mutator;
  newGeneratorServiceCA : Listers → CoreClient → Globals → Mutator;
  newGeneratorCAConfig : Listers → CoreClient → Globals → Config → Mutator;
  newGeneratorSecret : Listers → CoreClient → Driver → Globals → Config → Mutator;
  newGeneratorImageConfig : Listers → ConfigClient → Globals → Mutator;
  newGeneratorNodeCADaemonSet : Listers → AppsClient → Globals → Mutator;
  newGeneratorService : Listers → CoreClient → Globals → Config → Mutator;
  newGeneratorDeployment :
    Listers → CoreClient → AppsClient → Driver → Globals → Config → Mutator;
  newGeneratorRoute :
    Listers → RouteClient → Globals → Config → ImageRegistryConfigRoute → Mutator;
  newGeneratorClusterOperator :
    Listers → ConfigClient → Config → list Mutator → Mutator;
}.

Context (env : Env).

Definition listRoutes (g : Generator) (routeClient : RouteClient) (cr : Config)
    : list Mutator :=
  let mutators := [] in
  let mutators :=
    if Spec_DefaultRoute cr
    then mutators ++
         [newGeneratorRoute env (listers g) routeClient (params g) cr
            {| Name := DefaultRouteName env; Hostname := ""; SecretName := "" |}]
    else mutators in
  fold_left
    (λ mutators route,
       mutators ++ [newGeneratorRoute env (listers g) routeClient (params g) cr route])
    (Spec_Routes cr) mutators.

Definition list_ (g : Generator) (cr : Config) : result (list Mutator) :=
  match coreset_NewForConfig env (kubeconfig g) with
  | Err err => Err err
  | Ok coreClient =>
  match appsset_NewForConfig env (kubeconfig g) with
  | Err err => Err err
  | Ok appsClient =>
  match rbacset_NewForConfig env (kubeconfig g) with
  | Err err => Err err
  | Ok rbacClient =>
  match routeset_NewForConfig env (kubeconfig g) with
  | Err err => Err err
  | Ok routeClient =>
  match configset_NewForConfig env (kubeconfig g) with
  | Err err => Err err
  | Ok configClient =>
  match NewDriver env (Spec_Storage cr) (kubeconfig g) (listers g) with
  | Err err => Err err
  | Ok driver =>
      let l := listers g in
      let p := params g in
      let mutators :=
        [ newGeneratorClusterRole env l rbacClient cr;
          newGeneratorClusterRoleBinding env l rbacClient p cr;
          newGeneratorServiceAccount env l coreClient p cr;
          newGeneratorServiceCA env l coreClient p;
          newGeneratorCAConfig env l coreClient p cr;
          newGeneratorSecret env l coreClient driver p cr;
          newGeneratorImageConfig env l configClient p;
          newGeneratorNodeCADaemonSet env l appsClient p;
          newGeneratorService env l coreClient p cr;
          newGeneratorDeployment env l coreClient appsClient driver p cr ] in
      let mutators := mutators ++ listRoutes g routeClient cr in
      (* This generator must be the last because he uses other generators. *)
      let mutators :=
        mutators ++ [newGeneratorClusterOperator env l configClient cr mutators] in
      Ok mutators
  end end end end end end.

Definition syncStorage (g : Generator) (cr : Config) : M World (option error) :=
  (* Create a driver with the current configuration *)
  match NewDriver env (Spec_Storage cr) (kubeconfig g) (listers g) with
  | Err err => ret (Some err)
  | Ok driver =>
      changed <- call (λ _, CallStorageChanged) (StorageChanged driver cr) ;;
      r <- (if changed
            then ret (Ok true)
            else
              e <- call (λ _, CallStorageExists) (StorageExists driver cr) ;;
              match e with
              | (_, Some err) => ret (Err err)
              | (exists_, None) => ret (Ok (negb exists_))
              end) ;;
      match r with
      | Err err => ret (Some err)
      | Ok runCreate =>
          if runCreate
          then call (λ _, CallCreateStorage) (CreateStorage driver cr)
          else ret None
      end
  end.

(** The set that [knownNames] holds after its loop. *)
Definition knownNames (routesGenerators : list Mutator) : gset string :=
  fold_left (λ known gen, {[GetName gen]} ∪ known) routesGenerators ∅.

(** The deletion loop of [removeObsoleteRoutes]. *)
Fixpoint removeObsoleteRoutes_loop (g : Generator) (routeClient : RouteClient)
    (known : gset string) (opts : DeleteOptions) (routes : list Route)
    : M World (option error) :=
  match routes with
  | [] => ret None
  | route :: routes =>
      if negb (RouteIsCreatedByOperator env route)
      then removeObsoleteRoutes_loop g routeClient known opts routes
      else if decide (route_Name route ∈ known)
      then removeObsoleteRoutes_loop g routeClient known opts routes
      else
        err <- call (λ _, CallRouteDelete (Deployment_Namespace (params g))
                                          (route_Name route) opts)
                    (Routes_Delete routeClient (Deployment_Namespace (params g))
                                   (route_Name route) opts) ;;
        match err with
        | Some e => ret (Some e)
        | None => removeObsoleteRoutes_loop g routeClient known opts routes
        end
  end.

Definition removeObsoleteRoutes (g : Generator) (cr : Config) : M World (option error) :=
  match routeset_NewForConfig env (kubeconfig g) with
  | Err err => ret (Some err)
  | Ok routeClient =>
      r <- call (λ _, CallRoutesList) (Routes_List (listers g)) ;;
      match r with
      | Err err => ret (Some (PlainError ("failed to list routes: " +:+ Error err)))
      | Ok routes =>
          let routesGenerators := listRoutes g routeClient cr in
          let known := knownNames routesGenerators in
          let gracePeriod := 0 in
          let propagationPolicy := DeletePropagationForeground in
          let opts := {| GracePeriodSeconds := Some gracePeriod;
                         PropagationPolicy := Some propagationPolicy |} in
          removeObsoleteRoutes_loop g routeClient known opts routes
      end
  end.

(** The closure that [Apply] and [ApplyClusterOperator] hand to
    [RetryOnConflict]. [DeepCopyObject] copies a value, and the dump and the
    difference of the objects go to the log only. *)
Definition applyObject (gen : Mutator) : M World (option error) :=
  r <- call (λ _, CallGet (mName gen)) (Get gen) ;;
  match r with
  | Err err =>
      if negb (IsNotFound err)
      then ret (Some (PlainError
             ("failed to get object " +:+ mName gen +:+ ": " +:+ Error err)))
      else
        r <- call (λ _, CallCreate (mName gen)) (Create gen) ;;
        match r with
        | Err err =>
            ret (Some (PlainError
              ("failed to create object " +:+ mName gen +:+ ": " +:+ Error err)))
        | Ok n => ret None
        end
  | Ok o =>
      r <- call (λ _, CallUpdate (mName gen)) (Update gen o) ;;
      match r with
      | Err err =>
          if IsConflict err
          then ret (Some err)
          else ret (Some (PlainError
                 ("failed to update object " +:+ mName gen +:+ ": " +:+ Error err)))
      | Ok (n, updated) => ret None
      end
  end.

(** The loop [for _, gen := range generators] of [Apply]. *)
Fixpoint applyObjects (generators : list Mutator) : M World (option error) :=
  match generators with
  | [] => ret None
  | gen :: generators =>
      err <- Retry.RetryOnConflict Retry.DefaultBackoffSteps (applyObject gen) ;;
      match err with
      | Some err =>
          ret (Some (PlainError ("unable to apply objects: " +:+ Error err)))
      | None => applyObjects generators
      end
  end.

Definition Apply (g : Generator) (cr : Config) : M World (option error) :=
  err <- syncStorage g cr ;;
  match err with
  | Some ErrStorageNotConfigured => ret (Some ErrStorageNotConfigured)
  | Some (ConfigurationError msg) => ret (Some (ConfigurationError msg))
  | Some err =>
      ret (Some (PlainError
        ("unable to sync storage configuration: " +:+ Error err)))
  | None =>
      match list_ g cr with
      | Err err =>
          ret (Some (PlainError ("unable to get generators: " +:+ Error err)))
      | Ok generators =>
          err <- applyObjects generators ;;
          match err with
          | Some err => ret (Some err)
          | None =>
              err <- removeObsoleteRoutes g cr ;;
              match err with
              | Some err =>
                  ret (Some (PlainError
                    ("unable to remove obsolete routes: " +:+ Error err)))
              | None => ret None
              end
          end
      end
  end.

(** The deletion loop of [Remove]. *)
Fixpoint removeObjects (opts : DeleteOptions) (generators : list Mutator)
    : M World (option error) :=
  match generators with
  | [] => ret None
  | gen :: generators =>
      if negb (Owned gen)
      then removeObjects opts generators
      else
        err <- call (λ _, CallDelete (mName gen) opts) (Delete gen opts) ;;
        match err with
        | Some err =>
            if IsNotFound err
            then removeObjects opts generators
            else ret (Some (PlainError
                   ("failed to delete object " +:+ mName gen +:+ ": " +:+ Error err)))
        | None => removeObjects opts generators
        end
  end.

(** The variables [retriable] and [derr] that the poll closure of [Remove]
    assigns. *)
Record removeLocals := {
  retriable : bool;
  derr : option error;
}.

(** The closure that [Remove] hands to [wait.PollImmediate]. *)
Definition removeStorageCondition (driver : Driver) (cr : Config)
    (l : removeLocals) : M World (Wait.ConditionResult * removeLocals) :=
  r <- call CallRemoveStorage (RemoveStorage driver cr) ;;
  let l := {| retriable := r.1; derr := r.2 |} in
  match derr l with
  | Some e =>
      if retriable l
      then ret ((false, None), l)
      else ret ((true, Some e), l)
  | None => ret ((true, None), l)
  end.

(** [%s] of an error value that may be nil. *)
Definition fmt_s (e : option error) : string :=
  match e with
  | Some e => Error e
  | None => "%!s(<nil>)"
  end.

Definition Remove (g : Generator) (cr : Config) : M World (option error) :=
  match list_ g cr with
  | Err err =>
      ret (Some (PlainError ("unable to get generators: " +:+ Error err)))
  | Ok generators =>
      let gracePeriod := 0 in
      let propagationPolicy := DeletePropagationForeground in
      let opts := {| GracePeriodSeconds := Some gracePeriod;
                     PropagationPolicy := Some propagationPolicy |} in
      err <- removeObjects opts generators ;;
      match err with
      | Some err => ret (Some err)
      | None =>
          match NewDriverFromStatus env (Status_Storage cr) (kubeconfig g) (listers g) with
          | Err err => ret (Some err)
          | Ok driver =>
              r <- Wait.PollImmediate (1 * Wait.Second) (5 * Wait.Minute)
                     (removeStorageCondition driver cr)
                     {| retriable := false; derr := None |} ;;
              match r with
              | (Some err, l) =>
                  ret (Some (PlainError
                    ("unable to remove storage: " +:+ Error err +:+ ", " +:+
                     fmt_s (derr l))))
              | (None, _) => ret None
              end
          end
      end
  end.

Definition ApplyClusterOperator (g : Generator) (cr : Config) : M World (option error) :=
  match configset_NewForConfig env (kubeconfig g) with
  | Err err => ret (Some err)
  | Ok configClient =>
      let gen := newGeneratorClusterOperator env (listers g) configClient cr [] in
      err <- Retry.RetryOnConflict Retry.DefaultBackoffSteps (applyObject gen) ;;
      match err with
      | Some err =>
          ret (Some (PlainError ("unable to apply objects: " +:+ Error err)))
      | None => ret None
      end
  end.

(** *** Vocabulary for the properties *)

(** The answer of the [k]-th further call of [RemoveStorage] when the calls
    follow one another from cluster state [s] (the first call is [k = 0]),
    and the cluster after [k] calls. *)
Fixpoint removeStorageResponse (driver : Driver) (cr : Config) (k : nat) (s : S)
    : bool * option error :=
  match k with
  | O => (RemoveStorage driver cr s).1
  | Datatypes.S k => removeStorageResponse driver cr k (RemoveStorage driver cr s).2
  end.

Fixpoint removeStorageCluster (driver : Driver) (cr : Config) (k : nat) (s : S) : S :=
  match k with
  | O => s
  | Datatypes.S k => removeStorageCluster driver cr k (RemoveStorage driver cr s).2
  end.

(** A [(retriable, err)] pair that asks for another attempt. *)
Definition retry_later (r : bool * option error) : bool :=
  match r with
  | (true, Some _) => true
  | _ => false
  end.

(** The routes that one pass is to delete: created by the operator, and
    with a name that no route mutator of this pass carries. *)
Definition obsolete (g : Generator) (routeClient : RouteClient) (cr : Config)
    (route : Route) : bool :=
  RouteIsCreatedByOperator env route &&
  bool_decide (route_Name route ∉ knownNames (listRoutes g routeClient cr)).

(** The options of every deletion: zero grace period, foreground
    propagation. *)
Definition foregroundNow : DeleteOptions :=
  {| GracePeriodSeconds := Some 0;
     PropagationPolicy := Some DeletePropagationForeground |}.

End Model.

Arguments Config : clear implicits.
Arguments World : clear implicits.
Arguments Mutator : clear implicits.
Arguments Driver : clear implicits.
Arguments RouteClient : clear implicits.
Arguments Listers : clear implicits.
Arguments Generator : clear implicits.
Arguments Env : clear implicits.

End Resource.

(** ** pkg/operator: generate.go and apply.go *)

Module Operator.
Import K8s V1alpha1 GoText.

Definition checksumOperatorAnnotation : string :=
  "dockerregistry.operator.openshift.io/checksum".
Definition storageTypeOperatorAnnotation : string :=
  "dockerregistry.operator.openshift.io/storagetype".
Definition supplementalGroupsAnnotation : string :=
  "openshift.io/sa.scc.supplemental-groups".

(** [strategy.Strategy] *)
Record Strategy := {
  Strategy_Apply : Object → Object → result Object;
}.

Record Template := {
  Template_Object : Object;
  Template_Strategy : Strategy;
}.

Section Model.

Context {S : Type}.
Context `{SDK S Project, SDK S Object, SDK S Service, SDK S DeploymentConfig}.
Context `{Checksum Object, Checksum Service, Checksum DeploymentConfig}.
(** [%q] of a string, [GroupVersionKind.String()] and [%#+v] of an object *)
Context (fmt_q : string → string).
Context (fmt_gvk : TypeMeta → string).
Context (fmt_GoSyntax : Object → string).

(** The error of [strconv.ParseInt] *)
Definition NumError (num : string) (f : ParseIntFailure) : error :=
  PlainError ("strconv.ParseInt: parsing " +:+ fmt_q num +:+ ": " +:+
              match f with
              | ErrSyntax => "invalid syntax"
              | ErrRange => "value out of range"
              end).

(** addOwnerRefToObject appends the desired OwnerReference to the object *)
Definition addOwnerRefToObject (m : ObjectMeta) (ownerRef : OwnerReference) : ObjectMeta :=
  SetOwnerReferences m (OwnerReferences m ++ [ownerRef]).

Definition asOwner (cr : OpenShiftDockerRegistry) : OwnerReference :=
  let trueVar := true in
  {| or_APIVersion := APIVersion (cr_TypeMeta cr);
     or_Kind := Kind (cr_TypeMeta cr);
     or_Name := cr_Name cr;
     or_UID := cr_UID cr;
     or_Controller := Some trueVar |}.

Definition generateProbeConfig (p : Parameters) : Probe :=
  let scheme := if Container_UseTLS p then "HTTPS" else "" in
  {| pr_TimeoutSeconds := int32 (Healthz_TimeoutSeconds p);
     pr_InitialDelaySeconds := 0;
     pr_Scheme := scheme;
     pr_Path := Healthz_Route p;
     pr_Port := int32 (Container_Port p) |}.

Definition generateLivenessProbeConfig (p : Parameters) : Probe :=
  let probeConfig := generateProbeConfig p in
  {| pr_TimeoutSeconds := pr_TimeoutSeconds probeConfig;
     pr_InitialDelaySeconds := 10;
     pr_Scheme := pr_Scheme probeConfig;
     pr_Path := pr_Path probeConfig;
     pr_Port := pr_Port probeConfig |}.

Definition generateReadinessProbeConfig (p : Parameters) : Probe :=
  generateProbeConfig p.

Definition generateSecurityContext (cr : OpenShiftDockerRegistry) (namespace : string)
    : M (SdkWorld S) (result PodSecurityContext) :=
  let ns := {| prj_TypeMeta := {| APIVersion := "project.openshift.io/v1";
                                  Kind := "Project" |};
               prj_ObjectMeta :=
                 {| Name := namespace; Namespace := ""; Labels := ∅;
                    Annotations := ∅; OwnerReferences := [];
                    UID := ""; ResourceVersion := "" |} |} in
  r <- Get ns ;;
  match r with
  | Err err => ret (Err err)
  | Ok ns =>
      match Annotations (prj_ObjectMeta ns) !! supplementalGroupsAnnotation with
      | None =>
          ret (Err (PlainError
            ("namespace " +:+ fmt_q namespace +:+ " doesn't have annotation " +:+
             supplementalGroupsAnnotation)))
      | Some sgrange =>
          match String.index 0 "/" sgrange with
          | None =>
              ret (Err (PlainError
                ("annotation " +:+ supplementalGroupsAnnotation +:+
                 " in namespace " +:+ fmt_q namespace +:+ " doesn't contain '/'")))
          | Some idx =>
              match ParseInt10_64 (String.substring 0 idx sgrange) with
              | inl f =>
                  ret (Err (PlainError
                    ("unable to parse annotation " +:+ supplementalGroupsAnnotation +:+
                     " in namespace " +:+ fmt_q namespace +:+ ": " +:+
                     Error (NumError (String.substring 0 idx sgrange) f))))
              | inr gid => ret (Ok {| FSGroup := Some gid |})
              end
          end
      end
  end.

(** The locals that the storage branches of [GenerateDeploymentConfig]
    assign. *)
Record storageLocals := {
  storageType : string;
  storageConfigured : Z;
  env : list EnvVar;
  mounts : list VolumeMount;
  volumes : list Volume;
}.

(** [if cr.Spec.Storage.Filesystem != nil { ... }] *)
Definition filesystemBranch (cr : OpenShiftDockerRegistry) (l : storageLocals)
    : result storageLocals :=
  match Filesystem (Spec_Storage cr) with
  | Some fs =>
      match vs_HostPath (fs_VolumeSource fs) with
      | Some _ => Err (PlainError "HostPath is not supported")
      | None =>
          let vol := {| vol_Name := "registry-storage";
                        vol_VolumeSource := fs_VolumeSource fs |} in
          Ok {| storageType := storageType l;
                storageConfigured := storageConfigured l + 1;
                env := env l ++
                       [ envValue "REGISTRY_STORAGE" "filesystem";
                         envValue "REGISTRY_STORAGE_FILESYSTEM_ROOTDIRECTORY" "/registry" ];
                mounts := mounts l ++
                          [ {| vm_Name := vol_Name vol; vm_MountPath := "/registry" |} ];
                volumes := volumes l ++ [vol] |}
      end
  | None => Ok l
  end.

(** A cloud branch: it assigns [storageType], appends its environment and
    counts itself. *)
Definition cloudBranch (name : string) (vars : string → list EnvVar)
    (l : storageLocals) : storageLocals :=
  let storageType := name in
  {| storageType := storageType;
     storageConfigured := storageConfigured l + 1;
     env := env l ++ vars storageType;
     mounts := mounts l;
     volumes := volumes l |}.

Definition azureBranch (cr : OpenShiftDockerRegistry) (l : storageLocals) : storageLocals :=
  match Azure (Spec_Storage cr) with
  | Some azure =>
      cloudBranch "azure"
        (λ storageType,
           [ envValue "REGISTRY_STORAGE" storageType;
             envValue "REGISTRY_STORAGE_AZURE_ACCOUNTNAME" (AccountName azure);
             envValue "REGISTRY_STORAGE_AZURE_ACCOUNTKEY" (AccountKey azure);
             envValue "REGISTRY_STORAGE_AZURE_CONTAINER" (az_Container azure) ]) l
  | None => l
  end.

Definition gcsBranch (cr : OpenShiftDockerRegistry) (l : storageLocals) : storageLocals :=
  match GCS (Spec_Storage cr) with
  | Some gcs =>
      cloudBranch "gcs"
        (λ storageType,
           [ envValue "REGISTRY_STORAGE" storageType;
             envValue "REGISTRY_STORAGE_GCS_BUCKET" (gcs_Bucket gcs) ]) l
  | None => l
  end.

Definition s3Branch (cr : OpenShiftDockerRegistry) (l : storageLocals) : storageLocals :=
  match S3 (Spec_Storage cr) with
  | Some s3 =>
      cloudBranch "s3"
        (λ storageType,
           [ envValue "REGISTRY_STORAGE" storageType;
             envValue "REGISTRY_STORAGE_S3_ACCESSKEY" (AccessKey s3);
             envValue "REGISTRY_STORAGE_S3_SECRETKEY" (SecretKey s3);
             envValue "REGISTRY_STORAGE_S3_BUCKET" (s3_Bucket s3);
             envValue "REGISTRY_STORAGE_S3_REGION" (Region s3);
             envValue "REGISTRY_STORAGE_S3_REGIONENDPOINT" (RegionEndpoint s3);
             envValue "REGISTRY_STORAGE_S3_ENCRYPT" (fmt_bool (Encrypt s3)) ]) l
  | None => l
  end.

Definition swiftBranch (cr : OpenShiftDockerRegistry) (l : storageLocals) : storageLocals :=
  match Swift (Spec_Storage cr) with
  | Some swift =>
      cloudBranch "swift"
        (λ storageType,
           [ envValue "REGISTRY_STORAGE" storageType;
             envValue "REGISTRY_STORAGE_SWIFT_AUTHURL" (AuthURL swift);
             envValue "REGISTRY_STORAGE_SWIFT_USERNAME" (Username swift);
             envValue "REGISTRY_STORAGE_SWIFT_PASSWORD" (Password swift);
             envValue "REGISTRY_STORAGE_SWIFT_CONTAINER" (sw_Container swift) ]) l
  | None => l
  end.

(** The locals after the five storage branches, or the error of the
    filesystem branch. *)
Definition storageBranches (cr : OpenShiftDockerRegistry) (p : Parameters)
    : result storageLocals :=
  let l := {| storageType := "";
              storageConfigured := 0;
              env := [ envValue "REGISTRY_HTTP_ADDR" (":" +:+ fmt_d (Container_Port p));
                       envValue "REGISTRY_HTTP_NET" "tcp";
                       envValue "REGISTRY_STORAGE_CACHE_BLOBDESCRIPTOR" "inmemory";
                       envValue "REGISTRY_STORAGE_DELETE_ENABLED" "true";
                       envValue "REGISTRY_OPENSHIFT_QUOTA_ENABLED" "true" ];
              mounts := [];
              volumes := [] |} in
  match filesystemBranch cr l with
  | Err err => Err err
  | Ok l => Ok (swiftBranch cr (s3Branch cr (gcsBranch cr (azureBranch cr l))))
  end.

Definition errMoreThanOneBackend : error :=
  PlainError
    "it is not possible to initialize more than one storage backend at the same time".

Definition GenerateDeploymentConfig (cr : OpenShiftDockerRegistry) (p : Parameters)
    : M (SdkWorld S) (result DeploymentConfig) :=
  match storageBranches cr p with
  | Err err => ret (Err err)
  | Ok l =>
      if negb (storageConfigured l =? 1)
      then ret (Err errMoreThanOneBackend)
      else
        let namespace := cr_Namespace cr in
        r <- generateSecurityContext cr namespace ;;
        match r with
        | Err err =>
            ret (Err (PlainError
              ("generate security context for deployment config: " +:+ Error err)))
        | Ok securityContext =>
            let dc :=
              {| dc_TypeMeta := {| APIVersion := "apps.openshift.io/v1";
                                   Kind := "DeploymentConfig" |};
                 dc_ObjectMeta :=
                   {| Name := Deployment_Name p;
                      Namespace := Deployment_Namespace p;
                      Labels := Deployment_Labels p;
                      Annotations := {[ storageTypeOperatorAnnotation := storageType l ]};
                      OwnerReferences := [];
                      UID := ""; ResourceVersion := "" |};
                 dc_Spec :=
                   {| dcs_Replicas := Spec_Replicas cr;
                      dcs_Selector := Deployment_Labels p;
                      dcs_Triggers := ["ConfigChange"];
                      dcs_Template := Some
                        {| pt_ObjectMeta :=
                             {| Name := ""; Namespace := "";
                                Labels := Deployment_Labels p;
                                Annotations := ∅; OwnerReferences := [];
                                UID := ""; ResourceVersion := "" |};
                           pt_Spec :=
                             {| ps_NodeSelector := Spec_NodeSelector cr;
                                ps_Containers :=
                                  [ {| c_Name := Container_Name p;
                                       c_Image := Spec_ImagePullSpec cr;
                                       c_Ports :=
                                         [ {| cp_ContainerPort := int32 (Container_Port p);
                                              cp_Protocol := "TCP" |} ];
                                       c_Env := env l;
                                       c_VolumeMounts := mounts l;
                                       c_LivenessProbe :=
                                         Some (generateLivenessProbeConfig p);
                                       c_ReadinessProbe :=
                                         Some (generateReadinessProbeConfig p);
                                       c_Requests :=
                                         [ ("cpu", "100m"); ("memory", "256Mi") ] |} ];
                                ps_Volumes := volumes l;
                                ps_ServiceAccountName := Pod_ServiceAccount p;
                                ps_SecurityContext := Some securityContext |} |} |} |} in
            ret (Ok {| dc_TypeMeta := dc_TypeMeta dc;
                       dc_ObjectMeta := addOwnerRefToObject (dc_ObjectMeta dc) (asOwner cr);
                       dc_Spec := dc_Spec dc |})
        end
  end.

(** [strategy.Override{}], of the strategy package *)
Context (Override : Strategy).

(** A service account has no fields but its metadata. *)
Definition GenerateServiceAccount (cr : OpenShiftDockerRegistry) (p : Parameters)
    : Template :=
  let sa := {| Name := Pod_ServiceAccount p;
               Namespace := Deployment_Namespace p;
               Labels := ∅; Annotations := ∅; OwnerReferences := [];
               UID := ""; ResourceVersion := "" |} in
  {| Template_Object :=
       {| o_TypeMeta := {| APIVersion := "v1"; Kind := "ServiceAccount" |};
          o_ObjectMeta := Some (addOwnerRefToObject sa (asOwner cr));
          o_Content := "" |};
     Template_Strategy := Override |}.

Definition GenerateService (cr : OpenShiftDockerRegistry) (p : Parameters) : Service :=
  let svc :=
    {| svc_TypeMeta := {| APIVersion := "v1"; Kind := "Service" |};
       svc_ObjectMeta :=
         {| Name := Deployment_Name p;
            Namespace := Deployment_Namespace p;
            Labels := Deployment_Labels p;
            Annotations := ∅; OwnerReferences := [];
            UID := ""; ResourceVersion := "" |};
       svc_Spec :=
         {| ss_Selector := Deployment_Labels p;
            ss_Type := "";
            ss_Ports :=
              [ {| sp_Name := fmt_d (Container_Port p) +:+ "-tcp";
                   sp_Port := int32 (Container_Port p);
                   sp_Protocol := "TCP";
                   sp_TargetPort := int32 (Container_Port p) |} ];
            ss_ClusterIP := "" |} |} in
  {| svc_TypeMeta := svc_TypeMeta svc;
     svc_ObjectMeta := addOwnerRefToObject (svc_ObjectMeta svc) (asOwner cr);
     svc_Spec := svc_Spec svc |}.

(** *** apply.go *)

Definition mergeObjectMeta (existing required : ObjectMeta) : ObjectMeta :=
  {| Name := Name required;
     Namespace := Namespace required;
     Labels := Labels required;
     Annotations := Annotations required;
     OwnerReferences := OwnerReferences required;
     UID := UID existing;
     ResourceVersion := ResourceVersion existing |}.

Definition templateName (tmpl : Template) : string :=
  let gvk := fmt_gvk (o_TypeMeta (Template_Object tmpl)) in
  let name :=
    match Accessor (Template_Object tmpl) with
    | Err _ => fmt_GoSyntax (Template_Object tmpl)
    | Ok accessor =>
        (if String.eqb (Namespace accessor) "" then ""
         else "Namespace=" +:+ Namespace accessor +:+ ", ") +:+
        "Name=" +:+ Name accessor
    end in
  gvk +:+ ", " +:+ name.

(** [*modified = err == nil] *)
Definition isNil (err : option error) : bool :=
  match err with None => true | Some _ => false end.

(** The closure that [ApplyTemplate] retries. The cell behind [modified]
    is the variable it captures. *)
Definition applyTemplateOnce (tmpl : Template) (dgst : string)
    : M (SdkWorld S * bool) (option error) :=
  (* TODO(dmage): we do not need to copy the entire template to fetch the current object *)
  let current := Template_Object tmpl in
  r <- liftL (Get current) ;;
  match r with
  | Err err =>
      if negb (IsNotFound err)
      then ret (Some (PlainError
             ("failed to get " +:+ templateName tmpl +:+ ": " +:+ Error err)))
      else
        err <- liftL (Create (Template_Object tmpl)) ;;
        _ <- putL (isNil err) ;;
        ret err
  | Ok current =>
      match Accessor current with
      | Err err =>
          ret (Some (PlainError
            ("unable to get meta accessor for current object: " +:+ Error err)))
      | Ok currentMeta =>
          let curdgst := Annotations currentMeta !! checksumOperatorAnnotation in
          if match curdgst with
             | Some curdgst => String.eqb dgst curdgst
             | None => false
             end
          then ret None
          else
            match Strategy_Apply (Template_Strategy tmpl) current (Template_Object tmpl) with
            | Err err =>
                ret (Some (PlainError
                  ("unable to apply template " +:+ templateName tmpl +:+ ": " +:+
                   Error err)))
            | Ok updated =>
                match Accessor updated with
                | Err err =>
                    ret (Some (PlainError
                      ("unable to get meta accessor for updated object: " +:+ Error err)))
                | Ok updatedMeta =>
                    let updated :=
                      setObjectMeta updated
                        (SetAnnotations updatedMeta
                           (<[checksumOperatorAnnotation := dgst]>
                              (Annotations updatedMeta))) in
                    err <- liftL (Update updated) ;;
                    _ <- putL (isNil err) ;;
                    ret err
                end
            end
      end
  end.

Definition ApplyTemplate (tmpl : Template) : M (SdkWorld S * bool) (option error) :=
  match checksum (Template_Object tmpl) with
  | Err err =>
      ret (Some (PlainError
        ("unable to generate checksum for " +:+ templateName tmpl +:+ ": " +:+
         Error err)))
  | Ok dgst =>
      Retry.RetryOnConflict Retry.DefaultBackoffSteps (applyTemplateOnce tmpl dgst)
  end.

Definition withChecksum (m : ObjectMeta) (dgst : string) : ObjectMeta :=
  SetAnnotations m (<[checksumOperatorAnnotation := dgst]> (Annotations m)).

(** The closure that [ApplyService] retries. It captures [expect], whose
    annotations it extends, and the cell behind [modified]. *)
Definition applyServiceOnce (dgst : string)
    : M (SdkWorld S * (Service * bool)) (option error) :=
  l <- getL ;;
  let expect := l.1 in
  let current := {| svc_TypeMeta := svc_TypeMeta expect;
                    svc_ObjectMeta := svc_ObjectMeta expect;
                    svc_Spec := {| ss_Selector := ∅; ss_Type := ""; ss_Ports := [];
                                   ss_ClusterIP := "" |} |} in
  r <- liftL (Get current) ;;
  match r with
  | Err err =>
      if negb (IsNotFound err)
      then ret (Some (PlainError
             ("failed to get service " +:+ Name (svc_ObjectMeta expect) +:+ ": " +:+
              Error err)))
      else
        err <- liftL (Create expect) ;;
        _ <- putL (expect, isNil err) ;;
        ret err
  | Ok current =>
      let curdgst := Annotations (svc_ObjectMeta current) !! checksumOperatorAnnotation in
      if match curdgst with
         | Some curdgst => String.eqb dgst curdgst
         | None => false
         end
      then ret None
      else
        let expect := {| svc_TypeMeta := svc_TypeMeta expect;
                         svc_ObjectMeta := withChecksum (svc_ObjectMeta expect) dgst;
                         svc_Spec := svc_Spec expect |} in
        _ <- putL (expect, l.2) ;;
        let current :=
          {| svc_TypeMeta := svc_TypeMeta current;
             svc_ObjectMeta := mergeObjectMeta (svc_ObjectMeta current)
                                               (svc_ObjectMeta expect);
             svc_Spec := {| ss_Selector := ss_Selector (svc_Spec expect);
                            ss_Type := ss_Type (svc_Spec expect);
                            ss_Ports := ss_Ports (svc_Spec expect);
                            ss_ClusterIP := ss_ClusterIP (svc_Spec current) |} |} in
        err <- liftL (Update current) ;;
        _ <- putL (expect, isNil err) ;;
        ret err
  end.

Definition ApplyService : M (SdkWorld S * (Service * bool)) (option error) :=
  l <- getL ;;
  match checksum l.1 with
  | Err err =>
      ret (Some (PlainError ("unable to generate CR checksum: " +:+ Error err)))
  | Ok dgst =>
      Retry.RetryOnConflict Retry.DefaultBackoffSteps (applyServiceOnce dgst)
  end.

(** The closure that [ApplyDeploymentConfig] retries. *)
Definition applyDeploymentConfigOnce (dgst : string)
    : M (SdkWorld S * (DeploymentConfig * bool)) (option error) :=
  l <- getL ;;
  let expect := l.1 in
  let current := {| dc_TypeMeta := dc_TypeMeta expect;
                    dc_ObjectMeta := dc_ObjectMeta expect;
                    dc_Spec := {| dcs_Replicas := 0; dcs_Selector := ∅;
                                  dcs_Triggers := []; dcs_Template := None |} |} in
  r <- liftL (Get current) ;;
  match r with
  | Err err =>
      if negb (IsNotFound err)
      then ret (Some (PlainError
             ("failed to get deployment config " +:+ Name (dc_ObjectMeta expect) +:+
              ": " +:+ Error err)))
      else
        err <- liftL (Create expect) ;;
        _ <- putL (expect, isNil err) ;;
        ret err
  | Ok current =>
      let curdgst := Annotations (dc_ObjectMeta current) !! checksumOperatorAnnotation in
      if match curdgst with
         | Some curdgst => String.eqb dgst curdgst
         | None => false
         end
      then ret None
      else
        let expect := {| dc_TypeMeta := dc_TypeMeta expect;
                         dc_ObjectMeta := withChecksum (dc_ObjectMeta expect) dgst;
                         dc_Spec := dc_Spec expect |} in
        _ <- putL (expect, l.2) ;;
        let current :=
          {| dc_TypeMeta := dc_TypeMeta current;
             dc_ObjectMeta := mergeObjectMeta (dc_ObjectMeta current)
                                              (dc_ObjectMeta expect);
             dc_Spec := dc_Spec expect |} in
        err <- liftL (Update current) ;;
        _ <- putL (expect, isNil err) ;;
        ret err
  end.

Definition ApplyDeploymentConfig
    : M (SdkWorld S * (DeploymentConfig * bool)) (option error) :=
  l <- getL ;;
  match checksum l.1 with
  | Err err =>
      ret (Some (PlainError ("unable to generate CR checksum: " +:+ Error err)))
  | Ok dgst =>
      Retry.RetryOnConflict Retry.DefaultBackoffSteps (applyDeploymentConfigOnce dgst)
  end.

End Model.

End Operator.

(** ** The pod template generator (package generate) *)

Module Generate.
Import K8s V1alpha1 GoText.

Definition StorageTypeOperatorAnnotation : string :=
  "dockerregistry.operator.openshift.io/storagetype".
Definition SupplementalGroupsAnnotation : string :=
  "openshift.io/sa.scc.supplemental-groups".

Record Secret := {
  sec_TypeMeta : TypeMeta;
  sec_ObjectMeta : ObjectMeta;
  sec_Data : gmap string string;
}.

Record ConfigMap := {
  cm_TypeMeta : TypeMeta;
  cm_ObjectMeta : ObjectMeta;
  cm_Data : gmap string string;
}.

Definition nilPointer : string :=
  "runtime error: invalid memory address or nil pointer dereference".

Section Model.

Context {S : Type}.
Context `{SDK S Project, SDK S Secret, SDK S ConfigMap}.
Context `{Checksum Secret, Checksum ConfigMap}.
(** [%q] of a string, [Duration.String()], and the names of the two
    checksum annotations of the parameters package *)
Context (fmt_q : string → string).
Context (fmt_duration : Z → string).
Context (SecretChecksumOperatorAnnotation ConfigMapChecksumOperatorAnnotation : string).

Definition NumError (num : string) (f : ParseIntFailure) : error :=
  PlainError ("strconv.ParseInt: parsing " +:+ fmt_q num +:+ ": " +:+
              match f with
              | ErrSyntax => "invalid syntax"
              | ErrRange => "value out of range"
              end).

Definition generateLogLevel (cr : OpenShiftDockerRegistry) : string :=
  if Spec_LoggingLevel cr =? 0 then "error"
  else if Spec_LoggingLevel cr =? 1 then "warn"
  else if (Spec_LoggingLevel cr =? 2) || (Spec_LoggingLevel cr =? 3) then "info"
  else "debug".

Definition generateProbeConfig (cr : OpenShiftDockerRegistry) (p : Parameters)
    : outcome Probe :=
  match Spec_TLS cr with
  | None => Panics nilPointer
  | Some tls =>
      let scheme := if tls then "HTTPS" else "" in
      Returns {| pr_TimeoutSeconds := int32 (Healthz_TimeoutSeconds p);
                 pr_InitialDelaySeconds := 0;
                 pr_Scheme := scheme;
                 pr_Path := Healthz_Route p;
                 pr_Port := int32 (Container_Port p) |}
  end.

Definition generateLivenessProbeConfig (cr : OpenShiftDockerRegistry) (p : Parameters)
    : outcome Probe :=
  match generateProbeConfig cr p with
  | Panics reason => Panics reason
  | Returns probeConfig =>
      Returns {| pr_TimeoutSeconds := pr_TimeoutSeconds probeConfig;
                 pr_InitialDelaySeconds := 10;
                 pr_Scheme := pr_Scheme probeConfig;
                 pr_Path := pr_Path probeConfig;
                 pr_Port := pr_Port probeConfig |}
  end.

Definition generateReadinessProbeConfig (cr : OpenShiftDockerRegistry) (p : Parameters)
    : outcome Probe :=
  generateProbeConfig cr p.

Definition generateSecurityContext (cr : OpenShiftDockerRegistry) (namespace : string)
    : M (SdkWorld S) (result PodSecurityContext) :=
  let ns := {| prj_TypeMeta := {| APIVersion := "project.openshift.io/v1";
                                  Kind := "Project" |};
               prj_ObjectMeta :=
                 {| Name := namespace; Namespace := ""; Labels := ∅;
                    Annotations := ∅; OwnerReferences := [];
                    UID := ""; ResourceVersion := "" |} |} in
  r <- Get ns ;;
  match r with
  | Err err => ret (Err err)
  | Ok ns =>
      match Annotations (prj_ObjectMeta ns) !! SupplementalGroupsAnnotation with
      | None =>
          ret (Err (PlainError
            ("namespace " +:+ fmt_q namespace +:+ " doesn't have annotation " +:+
             SupplementalGroupsAnnotation)))
      | Some sgrange =>
          match String.index 0 "/" sgrange with
          | None =>
              ret (Err (PlainError
                ("annotation " +:+ SupplementalGroupsAnnotation +:+
                 " in namespace " +:+ fmt_q namespace +:+ " doesn't contain '/'")))
          | Some idx =>
              match ParseInt10_64 (String.substring 0 idx sgrange) with
              | inl f =>
                  ret (Err (PlainError
                    ("unable to parse annotation " +:+ SupplementalGroupsAnnotation +:+
                     " in namespace " +:+ fmt_q namespace +:+ ": " +:+
                     Error (NumError (String.substring 0 idx sgrange) f))))
              | inr gid => ret (Ok {| FSGroup := Some gid |})
              end
          end
      end
  end.

Definition getSecretChecksum (p : Parameters) : M (SdkWorld S) (result string) :=
  let o := {| sec_TypeMeta := {| APIVersion := "v1"; Kind := "Secret" |};
              sec_ObjectMeta :=
                {| Name := "image-registry-private-configuration";
                   Namespace := Deployment_Namespace p; Labels := ∅;
                   Annotations := ∅; OwnerReferences := [];
                   UID := ""; ResourceVersion := "" |};
              sec_Data := ∅ |} in
  r <- Get o ;;
  match r with
  | Err err => ret (Err err)
  | Ok o => ret (checksum o)
  end.

Definition getConfigMapChecksum (p : Parameters) : M (SdkWorld S) (result string) :=
  let o := {| cm_TypeMeta := {| APIVersion := "v1"; Kind := "ConfigMap" |};
              cm_ObjectMeta :=
                {| Name := "image-registry-certificates";
                   Namespace := Deployment_Namespace p; Labels := ∅;
                   Annotations := ∅; OwnerReferences := [];
                   UID := ""; ResourceVersion := "" |};
              cm_Data := ∅ |} in
  r <- Get o ;;
  match r with
  | Err err => ret (Err err)
  | Ok o => ret (checksum o)
  end.

(** The locals that the storage branches of [PodTemplateSpec] assign. *)
Record storageLocals := {
  storageType : string;
  storageConfigured : Z;
  env : list EnvVar;
  mounts : list VolumeMount;
  volumes : list Volume;
}.

Definition privateConfiguration (key : string) : EnvVar :=
  envSecret key "image-registry-private-configuration" key.

(** [if cr.Spec.Storage.Filesystem != nil { ... }] *)
Definition filesystemBranch (cr : OpenShiftDockerRegistry) (l : storageLocals)
    : result storageLocals :=
  match Filesystem (Spec_Storage cr) with
  | Some fs =>
      match vs_HostPath (fs_VolumeSource fs) with
      | Some _ => Err (PlainError "HostPath is not supported")
      | None =>
          let vol := {| vol_Name := "registry-storage";
                        vol_VolumeSource := fs_VolumeSource fs |} in
          Ok {| storageType := storageType l;
                storageConfigured := storageConfigured l + 1;
                env := env l ++
                       [ envValue "REGISTRY_STORAGE" "filesystem";
                         envValue "REGISTRY_STORAGE_FILESYSTEM_ROOTDIRECTORY" "/registry" ];
                mounts := mounts l ++
                          [ {| vm_Name := vol_Name vol; vm_MountPath := "/registry" |} ];
                volumes := volumes l ++ [vol] |}
      end
  | None => Ok l
  end.

(** A cloud branch: it assigns [storageType], appends its environment and
    counts itself. *)
Definition cloudBranch (name : string) (vars : string → list EnvVar)
    (l : storageLocals) : storageLocals :=
  let storageType := name in
  {| storageType := storageType;
     storageConfigured := storageConfigured l + 1;
     env := env l ++ vars storageType;
     mounts := mounts l;
     volumes := volumes l |}.

Definition azureBranch (cr : OpenShiftDockerRegistry) (l : storageLocals) : storageLocals :=
  match Azure (Spec_Storage cr) with
  | Some azure =>
      cloudBranch "azure"
        (λ storageType,
           [ envValue "REGISTRY_STORAGE" storageType;
             envValue "REGISTRY_STORAGE_AZURE_CONTAINER" (az_Container azure);
             privateConfiguration "REGISTRY_STORAGE_AZURE_ACCOUNTNAME";
             privateConfiguration "REGISTRY_STORAGE_AZURE_ACCOUNTKEY" ]) l
  | None => l
  end.

Definition gcsBranch (cr : OpenShiftDockerRegistry) (l : storageLocals) : storageLocals :=
  match GCS (Spec_Storage cr) with
  | Some gcs =>
      cloudBranch "gcs"
        (λ storageType,
           [ envValue "REGISTRY_STORAGE" storageType;
             envValue "REGISTRY_STORAGE_GCS_BUCKET" (gcs_Bucket gcs) ]) l
  | None => l
  end.

Definition s3Branch (cr : OpenShiftDockerRegistry) (l : storageLocals) : storageLocals :=
  match S3 (Spec_Storage cr) with
  | Some s3 =>
      cloudBranch "s3"
        (λ storageType,
           [ envValue "REGISTRY_STORAGE" storageType;
             envValue "REGISTRY_STORAGE_S3_BUCKET" (s3_Bucket s3);
             envValue "REGISTRY_STORAGE_S3_REGION" (Region s3);
             envValue "REGISTRY_STORAGE_S3_REGIONENDPOINT" (RegionEndpoint s3);
             envValue "REGISTRY_STORAGE_S3_ENCRYPT" (fmt_bool (Encrypt s3));
             privateConfiguration "REGISTRY_STORAGE_S3_ACCESSKEY";
             privateConfiguration "REGISTRY_STORAGE_S3_SECRETKEY" ]) l
  | None => l
  end.

Definition swiftBranch (cr : OpenShiftDockerRegistry) (l : storageLocals) : storageLocals :=
  match Swift (Spec_Storage cr) with
  | Some swift =>
      cloudBranch "swift"
        (λ storageType,
           [ envValue "REGISTRY_STORAGE" storageType;
             envValue "REGISTRY_STORAGE_SWIFT_AUTHURL" (AuthURL swift);
             envValue "REGISTRY_STORAGE_SWIFT_CONTAINER" (sw_Container swift);
             privateConfiguration "REGISTRY_STORAGE_SWIFT_USERNAME";
             privateConfiguration "REGISTRY_STORAGE_SWIFT_PASSWORD" ]) l
  | None => l
  end.

(** The locals after the five storage branches, or the error of the
    filesystem branch. *)
Definition storageBranches (cr : OpenShiftDockerRegistry) (p : Parameters)
    : result storageLocals :=
  let l := {| storageType := "";
              storageConfigured := 0;
              env := [ envValue "REGISTRY_HTTP_ADDR" (":" +:+ fmt_d (Container_Port p));
                       envValue "REGISTRY_HTTP_NET" "tcp";
                       envValue "REGISTRY_HTTP_SECRET" (Spec_HTTPSecret cr);
                       envValue "REGISTRY_LOG_LEVEL" (generateLogLevel cr);
                       envValue "REGISTRY_OPENSHIFT_QUOTA_ENABLED" "true";
                       envValue "REGISTRY_STORAGE_CACHE_BLOBDESCRIPTOR" "inmemory";
                       envValue "REGISTRY_STORAGE_DELETE_ENABLED" "true" ];
              mounts := [];
              volumes := [] |} in
  match filesystemBranch cr l with
  | Err err => Err err
  | Ok l => Ok (swiftBranch cr (s3Branch cr (gcsBranch cr (azureBranch cr l))))
  end.

Definition errMoreThanOneBackend : error :=
  PlainError
    "it is not possible to initialize more than one storage backend at the same time".

(** The two blocks on [cr.Spec.Requests]: [kind] is "Read" or "Write" in
    the messages and "READ" or "WRITE" in the variable names. *)
Definition requestsBranch (kind KIND : string) (limits : RequestsLimits)
    (env : list EnvVar) : result (list EnvVar) :=
  if negb (MaxRunning limits =? 0) || negb (MaxInQueue limits =? 0) then
    if MaxRunning limits <? 0
    then Err (PlainError ("Requests." +:+ kind +:+ ".MaxRunning must be positive number"))
    else if MaxInQueue limits <? 0
    then Err (PlainError ("Requests." +:+ kind +:+ ".MaxInQueue must be positive number"))
    else Ok (env ++
             [ envValue ("REGISTRY_OPENSHIFT_REQUESTS_" +:+ KIND +:+ "_MAXRUNNING")
                        (fmt_d (MaxRunning limits));
               envValue ("REGISTRY_OPENSHIFT_REQUESTS_" +:+ KIND +:+ "_MAXINQUEUE")
                        (fmt_d (MaxInQueue limits));
               envValue ("REGISTRY_OPENSHIFT_REQUESTS_" +:+ KIND +:+ "_MAXWAITINQUEUE")
                        (fmt_duration (MaxWaitInQueue limits)) ])
  else Ok env.

Definition PodTemplateResult : Type :=
  outcome (result (PodTemplateSpec * gmap string string)).

Definition PodTemplateSpec_ (cr : OpenShiftDockerRegistry) (p : Parameters)
    : M (SdkWorld S) PodTemplateResult :=
  let annotations : gmap string string := ∅ in
  match storageBranches cr p with
  | Err err => ret (Returns (Err err))
  | Ok l =>
      if negb (storageConfigured l =? 1)
      then ret (Returns (Err errMoreThanOneBackend))
      else
      let annotations := <[StorageTypeOperatorAnnotation := storageType l]> annotations in
      match requestsBranch "Read" "READ" (Spec_RequestsRead cr) (env l) with
      | Err err => ret (Returns (Err err))
      | Ok env =>
      match requestsBranch "Write" "WRITE" (Spec_RequestsWrite cr) env with
      | Err err => ret (Returns (Err err))
      | Ok env =>
      r <- generateSecurityContext cr (Deployment_Namespace p) ;;
      match r with
      | Err err =>
          ret (Returns (Err (PlainError
            ("generate security context for deployment config: " +:+ Error err))))
      | Ok securityContext =>
      (* TLS *)
      match Spec_TLS cr with
      | None => ret (Panics nilPointer)
      | Some tls =>
      let '(volumes, mounts, env) :=
        if tls then
          let vol := {| vol_Name := "registry-tls";
                        vol_VolumeSource :=
                          {| vs_HostPath := None; vs_EmptyDir := None;
                             vs_PersistentVolumeClaim := None;
                             vs_ConfigMap := Some "image-registry-tls" |} |} in
          (volumes l ++ [vol],
           mounts l ++ [ {| vm_Name := vol_Name vol; vm_MountPath := "/etc/secrets" |} ],
           env ++ [ envValue "REGISTRY_HTTP_TLS_CERTIFICATE" "/etc/secrets/tls.crt";
                    envValue "REGISTRY_HTTP_TLS_KEY" "/etc/secrets/tls.key" ])
        else (volumes l, mounts l, env) in
      (* Certificates *)
      let vol := {| vol_Name := "registry-certificates";
                    vol_VolumeSource :=
                      {| vs_HostPath := None; vs_EmptyDir := None;
                         vs_PersistentVolumeClaim := None;
                         vs_ConfigMap := Some "image-registry-certificates" |} |} in
      let volumes := volumes ++ [vol] in
      let mounts := mounts ++
        [ {| vm_Name := vol_Name vol;
             vm_MountPath := "/etc/pki/ca-trust/source/anchors" |} ] in
      r <- getSecretChecksum p ;;
      match r with
      | Err err => ret (Returns (Err err))
      | Ok secretChecksum =>
      r <- getConfigMapChecksum p ;;
      match r with
      | Err err => ret (Returns (Err err))
      | Ok configmapChecksum =>
      match generateLivenessProbeConfig cr p, generateReadinessProbeConfig cr p with
      | Returns liveness, Returns readiness =>
          let spec :=
            {| pt_ObjectMeta :=
                 {| Name := ""; Namespace := "";
                    Labels := Deployment_Labels p;
                    Annotations :=
                      <[ConfigMapChecksumOperatorAnnotation := configmapChecksum]>
                        (<[SecretChecksumOperatorAnnotation := secretChecksum]> ∅);
                    OwnerReferences := []; UID := ""; ResourceVersion := "" |};
               pt_Spec :=
                 {| ps_NodeSelector := Spec_NodeSelector cr;
                    ps_Containers :=
                      [ {| c_Name := Container_Name p;
                           c_Image := Spec_ImagePullSpec cr;
                           c_Ports :=
                             [ {| cp_ContainerPort := int32 (Container_Port p);
                                  cp_Protocol := "TCP" |} ];
                           c_Env := env;
                           c_VolumeMounts := mounts;
                           c_LivenessProbe := Some liveness;
                           c_ReadinessProbe := Some readiness;
                           c_Requests := [ ("cpu", "100m"); ("memory", "256Mi") ] |} ];
                    ps_Volumes := volumes;
                    ps_ServiceAccountName := Pod_ServiceAccount p;
                    ps_SecurityContext := Some securityContext |} |} in
          ret (Returns (Ok (spec, annotations)))
      | Panics reason, _ | _, Panics reason => ret (Panics reason)
      end
      end end end end end end
  end.

End Model.

End Generate.

(** ** The event handler: construction and dispatch *)

Module Dispatch.
Import Handler.

(** *** Statements

    A function body is a sequence of statements; a statement lets control
    reach the next one, or returns from the function, or ends it by a panic
    or by the exit of the process ([logrus.Fatalf]). *)

Inductive flow (R A : Type) :=
| Next (a : A)
| Return_ (r : R)
| Panic_ (reason : string)
| Exit_ (code : Z).
Arguments Next {R A} a.
Arguments Return_ {R A} r.
Arguments Panic_ {R A} reason.
Arguments Exit_ {R A} code.

Definition Proc (W R A : Type) : Type := W → flow R A * W.

Definition pret {W R A} (a : A) : Proc W R A := λ w, (Next a, w).

(** [s ; k]: the statements [k] run only when control leaves [s] by its
    end. *)
Definition pbind {W R A B} (s : Proc W R A) (k : A → Proc W R B) : Proc W R B :=
  λ w, match s w with
       | (Next a, w') => k a w'
       | (Return_ r, w') => (Return_ r, w')
       | (Panic_ reason, w') => (Panic_ reason, w')
       | (Exit_ code, w') => (Exit_ code, w')
       end.

(** [return r] *)
Definition return_ {W R A} (r : R) : Proc W R A := λ w, (Return_ r, w).

Definition panic {W R A} (reason : string) : Proc W R A := λ w, (Panic_ reason, w).

(** [os.Exit(code)] *)
Definition exit_ {W R A} (code : Z) : Proc W R A := λ w, (Exit_ code, w).

(** A return statement with statements after it. *)
Definition return_then {W R} (r : R) : Proc W R unit := return_ r.

(** A call that always comes back. *)
Definition lift {W R A} (m : M W A) : Proc W R A :=
  λ w, let '(a, w') := m w in (Next a, w').

(** How a call ends. *)
Inductive ending (R : Type) :=
| Returned (r : R)
| Panicked (reason : string)
| Exited (code : Z).
Arguments Returned {R} r.
Arguments Panicked {R} reason.
Arguments Exited {R} code.

(** A function, from its body; the value of the body is the operand of its
    last return statement. *)
Definition func {W R} (body : Proc W R R) : M W (ending R) :=
  λ w, match body w with
       | (Next r, w') | (Return_ r, w') => (Returned r, w')
       | (Panic_ reason, w') => (Panicked reason, w')
       | (Exit_ code, w') => (Exited code, w')
       end.

(** A call of a function from within a body. *)
Definition call {W R R' : Type} (f : M W (ending R)) : Proc W R' R :=
  λ w, match f w with
       | (Returned r, w') => (Next r, w')
       | (Panicked reason, w') => (Panic_ reason, w')
       | (Exited code, w') => (Exit_ code, w')
       end.

End Dispatch.

Notation "x <~ s ;; k" := (Dispatch.pbind s (λ x, k))
  (at level 100, s at next level, right associativity).

Module Events.
Import Handler Dispatch.

(** [parameters.Globals], as [NewHandler] fills it. *)
Record Globals := {
  Deployment_Namespace : string;
  Deployment_Labels : gmap string string;
  Pod_ServiceAccount : string;
  Container_Port : Z;
  Healthz_Route : string;
  Healthz_TimeoutSeconds : Z;
  Service_Name : string;
  ImageConfig_Name : string;
}.

(** [*clusteroperator.StatusHandler] *)
Record StatusHandler := {
  sh_Name : string;
  sh_Namespace : string;
}.

(** The objects of the events, by the dynamic types that [Handle]
    switches on; [EvOther] is any other type. *)
Inductive EventObject :=
| EvClusterRole (m : K8s.ObjectMeta)
| EvClusterRoleBinding (m : K8s.ObjectMeta)
| EvService (svc : K8s.Service)
| EvServiceAccount (m : K8s.ObjectMeta)
| EvConfigMap (m : K8s.ObjectMeta)
| EvSecret (m : K8s.ObjectMeta)
| EvRoute (m : K8s.ObjectMeta)
| EvDeployment (m : K8s.ObjectMeta) (deploy : Deployment)
| EvDeploymentConfig (m : K8s.ObjectMeta) (deploy : DeploymentConfig)
| EvImageRegistry (cr : ImageRegistry)
| EvOther (type : string) (m : option K8s.ObjectMeta).

Record Event := {
  Event_Object : EventObject;
  Event_Deleted : bool;
}.

(** [%T] *)
Definition typeName (o : EventObject) : string :=
  match o with
  | EvClusterRole _ => "*v1.ClusterRole"
  | EvClusterRoleBinding _ => "*v1.ClusterRoleBinding"
  | EvService _ => "*v1.Service"
  | EvServiceAccount _ => "*v1.ServiceAccount"
  | EvConfigMap _ => "*v1.ConfigMap"
  | EvSecret _ => "*v1.Secret"
  | EvRoute _ => "*v1.Route"
  | EvDeployment _ _ => "*v1.Deployment"
  | EvDeploymentConfig _ _ => "*v1.DeploymentConfig"
  | EvImageRegistry _ => "*v1alpha1.ImageRegistry"
  | EvOther type _ => type
  end.

(** [event.Object.(metav1.Object)]: the metadata, when the object has any. *)
Definition metaObject (o : EventObject) : option K8s.ObjectMeta :=
  match o with
  | EvClusterRole m | EvClusterRoleBinding m | EvServiceAccount m | EvConfigMap m
  | EvSecret m | EvRoute m | EvDeployment m _ | EvDeploymentConfig m _ => Some m
  | EvService svc => Some (K8s.svc_ObjectMeta svc)
  | EvImageRegistry cr =>
      Some {| K8s.Name := Name cr; K8s.Namespace := Namespace cr; K8s.Labels := ∅;
              K8s.Annotations := ∅; K8s.OwnerReferences := [];
              K8s.UID := UID cr; K8s.ResourceVersion := "" |}
  | EvOther _ m => m
  end.

(** [metav1.GetControllerOf] and [metav1.IsControlledBy] *)
Definition GetControllerOf (o : K8s.ObjectMeta) : option K8s.OwnerReference :=
  List.find (λ ref, match K8s.or_Controller ref with Some true => true | _ => false end)
            (K8s.OwnerReferences o).

Definition IsControlledBy (o : K8s.ObjectMeta) (cr : ImageRegistry) : bool :=
  match GetControllerOf o with
  | Some ref => String.eqb (K8s.or_UID ref) (UID cr)
  | None => false
  end.

(** What the handler does to the world around it, in order. *)
Inductive Effect :=
| Logged (level message : string)
| StatusUpdated (sh : StatusHandler) (u : ClusterStatusUpdate)
| Called (function : string) (arguments : list string).

Definition statusUpdates (effects : list Effect) : list ClusterStatusUpdate :=
  omap (λ e, match e with StatusUpdated _ u => Some u | _ => None end) effects.

Definition setStatus (cr : ImageRegistry) (st : ImageRegistryStatus) : ImageRegistry :=
  {| Name := Name cr; Namespace := Namespace cr; UID := UID cr;
     Generation := Generation cr;
     DeletionTimestamp := DeletionTimestamp cr;
     SpecManagementState := SpecManagementState cr;
     SpecStorage := SpecStorage cr;
     CRStatus := st |}.

Section Model.

(** The cluster, with the process environment and the clock. *)
Context {S : Type}.
(** [resource.Template], the storage driver and the stored config state *)
Context {Template Driver ConfigState : Type}.

Record World := {
  effects : list Effect;
  cluster : S;
}.

(** [resource.Generator] *)
Definition Generator : Type :=
  ImageRegistry → Globals → S → result Template * S.

Record Handler := {
  params : Globals;
  generateDeployment : Generator;
  clusterStatus : StatusHandler;
}.

(** The collaborators of other packages and files. Those that receive the
    custom resource to complete it return the completed resource. *)
Record Env := {
  GetWatchNamespace : S → result string;
  GetOperatorName : S → result string;
  Getenv : string → S → string;
  Now : S → Time;
  SchemeGroupVersion : string;
  NewStatusHandler : string → string → StatusHandler;
  sdk_Get : ImageRegistry → S → result ImageRegistry * S;
  sdk_Update : ImageRegistry → S → option error * S;
  Bootstrap : Handler → S → result ImageRegistry * S;
  RemoveResources : Handler → ImageRegistry → S → option error * S;
  clusterStatus_Create : StatusHandler → S → option error * S;
  clusterStatus_Update : StatusHandler → string → string → string → S → option error * S;
  resource_ClusterRole : Generator;
  resource_ClusterRoleBinding : Generator;
  resource_ServiceAccount : Generator;
  resource_ConfigMap : Generator;
  resource_Secret : Generator;
  resource_Service : Generator;
  resource_ImageConfig : Generator;
  resource_Deployment : Generator;
  resource_DeploymentConfig : Generator;
  GetRouteGenerators : ImageRegistry → Globals → list (string * Generator);
  ApplyTemplate : Template → bool → bool → S → (option error * bool) * S;
  Template_Name : Template → string;
  appendFinalizer : ImageRegistry → bool → ImageRegistry * bool;
  verifyResource : ImageRegistry → Globals → option error * ImageRegistry;
  GetConfigState : string → S → result ConfigState * S;
  SetConfigState : ImageRegistry → ConfigState → S → option error * S;
  NewDriver : string → string → V1alpha1.Storage → result Driver;
  ValidateConfiguration : Driver → ConfigState → option error;
  syncRoutes : ImageRegistry → Globals → bool → S → (option error * bool) * S;
}.

Context (env : Env).

(** A call of a collaborator, recorded. *)
Definition ext {A} (function : string) (arguments : list string) (op : S → A * S)
    : M World A :=
  λ w, let '(a, s') := op (cluster w) in
       (a, {| effects := effects w ++ [Called function arguments]; cluster := s' |}).

Definition logrus (level message : string) : M World unit :=
  λ w, (tt, {| effects := effects w ++ [Logged level message]; cluster := cluster w |}).

Definition readNow : M World Time := λ w, (Now env (cluster w), w).

(** [h.clusterStatus.Update(type, status, msg)] *)
Definition clusterStatusUpdate (h : Handler) (type status msg : string)
    : M World (option error) :=
  λ w, let '(err, s') := clusterStatus_Update env (clusterStatus h) type status msg
                           (cluster w) in
       (err, {| effects := effects w ++
                  [StatusUpdated (clusterStatus h)
                     {| cs_type := type; cs_status := status; cs_msg := msg |}];
                cluster := s' |}).

Definition NewHandler (namespace : string) : M World (ending (result Handler)) :=
  func (
    r <~ lift (λ w, (GetWatchNamespace env (cluster w), w)) ;;
    operatorNamespace <~
      match r with
      | Err err =>
          _ <~ lift (logrus "fatal" ("Failed to get watch namespace: " +:+ Error err)) ;;
          exit_ 1
      | Ok operatorNamespace => pret operatorNamespace
      end ;;
    r <~ lift (λ w, (GetOperatorName env (cluster w), w)) ;;
    operatorName <~
      match r with
      | Err err =>
          _ <~ lift (logrus "fatal" ("Failed to get operator name: " +:+ Error err)) ;;
          exit_ 1
      | Ok operatorName => pret operatorName
      end ;;
    let p := {| Deployment_Namespace := namespace;
                Deployment_Labels := {[ "docker-registry" := "default" ]};
                Pod_ServiceAccount := "registry";
                Container_Port := 5000;
                Healthz_Route := "/healthz";
                Healthz_TimeoutSeconds := 5;
                Service_Name := "image-registry";
                ImageConfig_Name := "cluster" |} in
    let h := {| params := p;
                generateDeployment := resource_Deployment env;
                clusterStatus := NewStatusHandler env operatorName operatorNamespace |} in
    _ <~ return_then (Ok h) ;;
    r <~ lift (ext "Handler.Bootstrap" [] (Bootstrap env h)) ;;
    _ <~ match r with
         | Err err => return_ (Err err)
         | Ok _ => pret tt
         end ;;
    err <~ lift (ext "StatusHandler.Create" [] (clusterStatus_Create env (clusterStatus h))) ;;
    _ <~ match err with
         | Some err =>
             lift (logrus "error"
                     ("unable to create cluster operator resource: " +:+ Error err))
         | None => pret tt
         end ;;
    return_ (Ok h)).

Definition syncDeploymentStatus (h : Handler) (cr : ImageRegistry) (o : Object)
    (statusChanged : bool) : M World (ImageRegistry * bool) :=
  let '(operatorAvailable, operatorAvailableMsg) :=
    if isDeploymentStatusAvailable o
    then (ConditionTrue, "deployment has minimum availability")
    else (ConditionFalse, "") in
  errOp <- clusterStatusUpdate h OperatorAvailable operatorAvailable operatorAvailableMsg ;;
  _ <- match errOp with
       | Some errOp =>
           logrus "error" ("unable to update cluster status to " +:+ OperatorAvailable +:+
                           "=" +:+ ConditionTrue +:+ ": " +:+ Error errOp)
       | None => ret tt
       end ;;
  let '(operatorProgressing, operatorProgressingMsg) :=
    if isDeploymentStatusComplete o
    then (ConditionFalse, "deployment successfully progressed")
    else (ConditionTrue, "deployment is progressing") in
  errOp <- clusterStatusUpdate h OperatorProgressing operatorProgressing
             operatorProgressingMsg ;;
  _ <- match errOp with
       | Some errOp =>
           logrus "error" ("unable to update cluster status to " +:+ OperatorProgressing +:+
                           "=" +:+ operatorProgressing +:+ ": " +:+ Error errOp)
       | None => ret tt
       end ;;
  let syncSuccessful :=
    if String.eqb operatorProgressing ConditionFalse
    then ConditionTrue else ConditionFalse in
  now <- readNow ;;
  ret (conditionSyncDeployment now cr syncSuccessful operatorProgressingMsg statusChanged).

(** The Progressing condition that [syncDeploymentStatus] reports for [o]:
    the update of that type among the status updates it makes. *)
Definition progressingUpdate (h : Handler) (cr : ImageRegistry) (o : Object)
    (statusChanged : bool) (w : World) : option ClusterStatusUpdate :=
  List.find (λ u, String.eqb (cs_type u) OperatorProgressing)
    (statusUpdates
       (drop (length (effects w))
             (effects (syncDeploymentStatus h cr o statusChanged w).2))).

Definition getImageRegistryForResource (h : Handler) (o : K8s.ObjectMeta)
    : M World (result (option ImageRegistry)) :=
  match GetControllerOf o with
  | None => ret (Ok None)
  | Some ownerRef =>
      if negb (String.eqb (K8s.or_Kind ownerRef) "ImageRegistry") ||
         negb (String.eqb (K8s.or_APIVersion ownerRef) (SchemeGroupVersion env))
      then ret (Ok None)
      else
        namespace <-
          (if String.eqb (K8s.Namespace o) ""
           then (* FIXME *) (λ w, (Getenv env "WATCH_NAMESPACE" (cluster w), w))
           else ret (K8s.Namespace o)) ;;
        let cr := {| Name := K8s.or_Name ownerRef; Namespace := namespace; UID := "";
                     Generation := 0; DeletionTimestamp := None;
                     SpecManagementState := Managed;
                     SpecStorage := {| V1alpha1.Filesystem := None; V1alpha1.Azure := None;
                                       V1alpha1.GCS := None; V1alpha1.S3 := None;
                                       V1alpha1.Swift := None |};
                     CRStatus := {| Conditions := []; ObservedGeneration := 0;
                                    InternalRegistryHostname := "" |} |} in
        r <- ext "sdk.Get" [Namespace cr; Name cr] (sdk_Get env cr) ;;
        match r with
        | Err err =>
            if negb (IsNotFound err)
            then ret (Err (PlainError
                   ("failed to get " +:+ K8s.or_Name ownerRef +:+
                    " custom resource: " +:+ Error err)))
            else ret (Ok None)
        | Ok cr =>
            match SpecManagementState cr with
            | Managed => ret (Ok (Some cr))
            | _ => ret (Ok None)
            end
        end
  end.

Definition typeAssertion : string :=
  "interface conversion: interface is not metav1.Object".

(** [conditionResourceApply] at the time the clock shows *)
Definition applyCondition (cr : ImageRegistry) (status m : string) (modified : bool)
    : M World (ImageRegistry * bool) :=
  now <- readNow ;;
  _ <- (if String.eqb status ConditionFalse
        then logrus "error" ("condition failed on " +:+ Name cr +:+ ": " +:+ m)
        else ret tt) ;;
  ret (conditionResourceApply now cr status m modified).

Definition reCreateByEvent (h : Handler) (event : Event) (gen : Generator)
    : M World (ending (option ImageRegistry * bool * option error)) :=
  func (
    o <~ match metaObject (Event_Object event) with
         | Some o => pret o
         | None => panic typeAssertion
         end ;;
    r <~ lift (getImageRegistryForResource h o) ;;
    match r with
    | Err err => return_ (None, false, Some err)
    | Ok None => return_ (None, false, None)
    | Ok (Some cr) =>
        if negb (IsControlledBy o cr)
        then return_ (Some cr, false, None)
        else
          let statusChanged := false in
          r <~ lift (ext "Generator" [Name cr] (gen cr (params h))) ;;
          match r with
          | Err err =>
              c <~ lift (applyCondition cr ConditionFalse
                           ("unable to make template for " +:+
                            typeName (Event_Object event) +:+ " " +:+
                            K8s.Namespace o +:+ "/" +:+ K8s.Name o +:+ ": " +:+ Error err)
                           statusChanged) ;;
              return_ (Some c.1, c.2, None)
          | Ok tmpl =>
              a <~ lift (ext "resource.ApplyTemplate" [Template_Name env tmpl; "false"]
                           (ApplyTemplate env tmpl false statusChanged)) ;;
              let statusChanged := a.2 in
              match a.1 with
              | Some err =>
                  c <~ lift (applyCondition cr ConditionFalse
                               ("unable to apply template " +:+ Template_Name env tmpl +:+
                                ": " +:+ Error err) statusChanged) ;;
                  return_ (Some c.1, c.2, None)
              | None =>
                  if statusChanged
                  then
                    _ <~ lift (logrus "debug"
                                 ("resource " +:+ Template_Name env tmpl +:+ " is recreated")) ;;
                    c <~ lift (applyCondition cr ConditionTrue "all resources applied"
                                 statusChanged) ;;
                    return_ (Some c.1, c.2, None)
                  else return_ (Some cr, statusChanged, None)
              end
          end
    end).

Definition reDeployByEvent (h : Handler) (event : Event) (gen : Generator)
    : M World (ending (option ImageRegistry * bool * option error)) :=
  func (
    r <~ call (reCreateByEvent h event gen) ;;
    match r with
    | (cr, statusChanged, Some err) => return_ (cr, statusChanged, Some err)
    | (cr, false, None) => return_ (cr, false, None)
    | (None, true, None) => panic "runtime error: invalid memory address or nil pointer dereference"
    | (Some cr, true, None) =>
        let statusChanged := true in
        r <~ lift (ext "Handler.generateDeployment" [Name cr]
                     (generateDeployment h cr (params h))) ;;
        match r with
        | Err err =>
            c <~ lift (applyCondition cr ConditionFalse
                         ("unable to make template for " +:+
                          typeName (Event_Object event) +:+ ": " +:+ Error err)
                         statusChanged) ;;
            return_ (Some c.1, c.2, None)
        | Ok tmpl =>
            a <~ lift (ext "resource.ApplyTemplate" [Template_Name env tmpl; "true"]
                         (ApplyTemplate env tmpl true statusChanged)) ;;
            let statusChanged := a.2 in
            match a.1 with
            | Some err =>
                c <~ lift (applyCondition cr ConditionFalse
                             ("unable to apply template " +:+ Template_Name env tmpl +:+
                              ": " +:+ Error err) statusChanged) ;;
                return_ (Some c.1, c.2, None)
            | None =>
                c <~ lift (applyCondition cr ConditionTrue "all resources applied"
                             statusChanged) ;;
                return_ (Some c.1, c.2, None)
            end
        end
    end).

(** The loop of [GenerateTemplates] over the generators. What is left of
    [ret] when a generator fails is not looked at by the caller. *)
Fixpoint generateAll (generators : list Generator) (o : ImageRegistry) (p : Globals)
    : M World (result (list Template)) :=
  match generators with
  | [] => ret (Ok [])
  | gen :: generators =>
      r <- ext "Generator" [Name o] (gen o p) ;;
      match r with
      | Err err => ret (Err err)
      | Ok tmpl =>
          r <- generateAll generators o p ;;
          match r with
          | Err err => ret (Err err)
          | Ok tmpls => ret (Ok (tmpl :: tmpls))
          end
      end
  end.

(** [routes] is a Go map: the order of its generators is the order in
    which [GetRouteGenerators] lists them here. *)
Definition GenerateTemplates (h : Handler) (o : ImageRegistry) (p : Globals)
    : M World (result (list Template)) :=
  let generators :=
    [ resource_ClusterRole env; resource_ClusterRoleBinding env;
      resource_ServiceAccount env; resource_ConfigMap env; resource_Secret env;
      resource_Service env; resource_ImageConfig env ] in
  let routes := GetRouteGenerators env o p in
  let generators := generators ++ map snd routes in
  let generators := generators ++ [generateDeployment h] in
  generateAll generators o p.

(** The loop of [CreateOrUpdateResources] over the templates. *)
Fixpoint applyAll (templates : list Template) (modified : bool)
    : M World (option error * bool) :=
  match templates with
  | [] => ret (None, modified)
  | tpl :: templates =>
      a <- ext "resource.ApplyTemplate" [Template_Name env tpl; "false"]
             (ApplyTemplate env tpl false modified) ;;
      match a.1 with
      | Some err => ret (Some (PlainError ("unable to apply objects: " +:+ Error err)), a.2)
      | None => applyAll templates a.2
      end
  end.

(** [CreateOrUpdateResources]: the error, and [o] and [modified] as the
    call leaves them. *)
Definition CreateOrUpdateResources (h : Handler) (o : ImageRegistry) (modified : bool)
    : M World (option error * ImageRegistry * bool) :=
  let '(o, modified) := appendFinalizer env o modified in
  let '(err, o) := verifyResource env o (params h) in
  match err with
  | Some err =>
      ret (Some (PlainError ("unable to complete resource: " +:+ Error err)), o, modified)
  | None =>
      r <- ext "resource.GetConfigState" [Deployment_Namespace (params h)]
             (GetConfigState env (Deployment_Namespace (params h))) ;;
      match r with
      | Err err =>
          ret (Some (PlainError ("unable to get previous config state: " +:+ Error err)),
               o, modified)
      | Ok configState =>
          match NewDriver env (Name o) (Deployment_Namespace (params h)) (SpecStorage o) with
          | Err err =>
              ret (Some (PlainError ("unable to create storage driver: " +:+ Error err)),
                   o, modified)
          | Ok driver =>
              match ValidateConfiguration env driver configState with
              | Some err =>
                  ret (Some (PlainError ("bad custom resource: " +:+ Error err)),
                       o, modified)
              | None =>
                  r <- GenerateTemplates h o (params h) ;;
                  match r with
                  | Err err =>
                      ret (Some (PlainError
                             ("unable to generate templates: " +:+ Error err)),
                           o, modified)
                  | Ok templates =>
                      a <- applyAll templates modified ;;
                      match a.1 with
                      | Some err => ret (Some err, o, a.2)
                      | None =>
                          r <- ext "syncRoutes" [Name o]
                                 (syncRoutes env o (params h) a.2) ;;
                          match r.1 with
                          | Some err =>
                              ret (Some (PlainError
                                     ("unable to sync routes: " +:+ Error err)), o, r.2)
                          | None =>
                              err <- ext "resource.SetConfigState" [Name o]
                                       (SetConfigState env o configState) ;;
                              match err with
                              | Some err =>
                                  ret (Some (PlainError
                                         ("unable to write current config state: " +:+
                                          Error err)), o, r.2)
                              | None => ret (None, o, r.2)
                              end
                          end
                      end
                  end
              end
          end
      end
  end.

(** The variables [cr] and [statusChanged] of [Handle] as a case of its
    switch leaves them. *)
Record handleLocals := {
  cr : option ImageRegistry;
  statusChanged : bool;
}.

(** [cr, statusChanged, err = ...; if err != nil { return err }] *)
Definition byEvent (r : option ImageRegistry * bool * option error)
    : Proc World (option error) handleLocals :=
  match r with
  | (_, _, Some err) => return_ (Some err)
  | (cr, statusChanged, None) => pret {| cr := cr; statusChanged := statusChanged |}
  end.

Definition indexOutOfRange : string := "runtime error: index out of range".

(** The cases [*kappsapi.Deployment] and [*appsapi.DeploymentConfig]. *)
Definition deploymentCase (h : Handler) (event : Event) (m : K8s.ObjectMeta)
    (o : Object) (gen : Generator) : Proc World (option error) handleLocals :=
  let statusChanged := false in
  r <~ lift (getImageRegistryForResource h m) ;;
  match r with
  | Err err => return_ (Some err)
  | Ok None => return_ None
  | Ok (Some cr) =>
      if negb (IsControlledBy m cr)
      then return_ None
      else if Event_Deleted event
      then
        r <~ lift (ext "Generator" [Name cr] (gen cr (params h))) ;;
        match r with
        | Err err => return_ (Some err)
        | Ok tmpl =>
            a <~ lift (ext "resource.ApplyTemplate" [Template_Name env tmpl; "false"]
                         (ApplyTemplate env tmpl false statusChanged)) ;;
            match a.1 with
            | Some err => return_ (Some err)
            | None =>
                _ <~ lift (logrus "debug"
                             ("resource " +:+ Template_Name env tmpl +:+ " is recreated")) ;;
                pret {| cr := Some cr; statusChanged := a.2 |}
            end
        end
      else
        c <~ lift (syncDeploymentStatus h cr o statusChanged) ;;
        pret {| cr := Some c.1; statusChanged := c.2 |}
  end.

(** The case [*routeapi.Route]. *)
Definition routeCase (h : Handler) (event : Event) (m : K8s.ObjectMeta)
    : Proc World (option error) handleLocals :=
  let statusChanged := false in
  r <~ lift (getImageRegistryForResource h m) ;;
  match r with
  | Err err => return_ (Some err)
  | Ok None => return_ None
  | Ok (Some cr) =>
      if negb (IsControlledBy m cr)
      then return_ None
      else
        let routes := GetRouteGenerators env cr (params h) in
        match List.find (λ r, String.eqb r.1 (K8s.Name m)) routes with
        | None => pret {| cr := Some cr; statusChanged := statusChanged |}
        | Some (_, gen) =>
            r <~ lift (ext "Generator" [Name cr] (gen cr (params h))) ;;
            match r with
            | Err err =>
                c <~ lift (applyCondition cr ConditionFalse
                             ("unable to make template for " +:+
                              typeName (Event_Object event) +:+ " " +:+
                              K8s.Namespace m +:+ "/" +:+ K8s.Name m +:+ ": " +:+
                              Error err) statusChanged) ;;
                pret {| cr := Some c.1; statusChanged := c.2 |}
            | Ok tmpl =>
                a <~ lift (ext "resource.ApplyTemplate" [Template_Name env tmpl; "false"]
                             (ApplyTemplate env tmpl false statusChanged)) ;;
                match a.1 with
                | Some err =>
                    c <~ lift (applyCondition cr ConditionFalse
                                 ("unable to apply template " +:+
                                  Template_Name env tmpl +:+ ": " +:+ Error err) a.2) ;;
                    pret {| cr := Some c.1; statusChanged := c.2 |}
                | None => pret {| cr := Some cr; statusChanged := a.2 |}
                end
            end
        end
  end.

(** The case [*regopapi.ImageRegistry]. [o] and [cr] name one object until
    [Bootstrap] hands out another one for [cr]; the conditions are written
    to [o]. *)
Definition imageRegistryCase (h : Handler) (o : ImageRegistry)
    : Proc World (option error) handleLocals :=
  let statusChanged := false in
  own <~ match DeletionTimestamp o with
         | Some _ =>
             r <~ lift (ext "Handler.Bootstrap" [] (Bootstrap env h)) ;;
             match r with
             | Err err => return_ (Some err)
             | Ok cr => pret (Some cr)
             end
         | None => pret None
         end ;;
  let cr := default o own in
  let pick (o cr : ImageRegistry) := match own with Some _ => cr | None => o end in
  match SpecManagementState cr with
  | Removed =>
      err <~ lift (ext "Handler.RemoveResources" [Name cr] (RemoveResources env h cr)) ;;
      match err with
      | Some err =>
          c <~ lift (applyCondition o ConditionFalse
                       ("unable to remove objects: " +:+ Error err) statusChanged) ;;
          pret {| cr := Some (pick c.1 cr); statusChanged := c.2 |}
      | None => pret {| cr := Some cr; statusChanged := statusChanged |}
      end
  | Managed =>
      r <~ lift (CreateOrUpdateResources h cr statusChanged) ;;
      let '(err, cr, statusChanged) := r in
      let o := pick cr o in
      match err with
      | Some err =>
          errOp <~ lift (clusterStatusUpdate h OperatorFailing ConditionTrue
                           "unable to deploy registry") ;;
          _ <~ match errOp with
               | Some errOp =>
                   lift (logrus "error"
                           ("unable to update cluster status to " +:+ OperatorFailing +:+
                            "=" +:+ ConditionTrue +:+ ": " +:+ Error errOp))
               | None => pret tt
               end ;;
          c <~ lift (applyCondition o ConditionFalse (Error err) statusChanged) ;;
          pret {| cr := Some (pick c.1 cr); statusChanged := c.2 |}
      | None =>
          errOp <~ lift (clusterStatusUpdate h OperatorFailing ConditionFalse "") ;;
          _ <~ match errOp with
               | Some errOp =>
                   lift (logrus "error"
                           ("unable to update cluster status to " +:+ OperatorFailing +:+
                            "=" +:+ ConditionFalse +:+ ": " +:+ Error errOp))
               | None => pret tt
               end ;;
          c <~ lift (applyCondition o ConditionTrue "all resources applied"
                       statusChanged) ;;
          pret {| cr := Some (pick c.1 cr); statusChanged := c.2 |}
      end
  | Unmanaged =>
      (* ignore *)
      pret {| cr := Some cr; statusChanged := statusChanged |}
  end.

(** The case [*coreapi.Service]. *)
Definition serviceCase (h : Handler) (event : Event) (svc : K8s.Service)
    : Proc World (option error) handleLocals :=
  r <~ call (reCreateByEvent h event (resource_Service env)) ;;
  l <~ byEvent r ;;
  match cr l with
  | None => pret l
  | Some cr0 =>
      match K8s.ss_Ports (K8s.svc_Spec svc) with
      | [] => panic indexOutOfRange
      | port :: _ =>
          let svcHostname :=
            K8s.Name (K8s.svc_ObjectMeta svc) +:+ "." +:+
            K8s.Namespace (K8s.svc_ObjectMeta svc) +:+ ".svc.cluster.local:" +:+
            GoText.fmt_d (K8s.sp_Port port) in
          if negb (String.eqb (InternalRegistryHostname (CRStatus cr0)) svcHostname)
          then pret {| cr := Some (setStatus cr0
                               {| Conditions := Conditions (CRStatus cr0);
                                  ObservedGeneration := ObservedGeneration (CRStatus cr0);
                                  InternalRegistryHostname := svcHostname |});
                       statusChanged := true |}
          else pret l
      end
  end.

(** The switch of [Handle] on the type of the object. *)
Definition dispatch (h : Handler) (event : Event)
    : Proc World (option error) handleLocals :=
  match Event_Object event with
  | EvClusterRole _ =>
      r <~ call (reCreateByEvent h event (resource_ClusterRole env)) ;; byEvent r
  | EvClusterRoleBinding _ =>
      r <~ call (reCreateByEvent h event (resource_ClusterRoleBinding env)) ;; byEvent r
  | EvService svc => serviceCase h event svc
  | EvServiceAccount _ =>
      r <~ call (reDeployByEvent h event (resource_ServiceAccount env)) ;; byEvent r
  | EvConfigMap _ =>
      r <~ call (reDeployByEvent h event (resource_ConfigMap env)) ;; byEvent r
  | EvSecret _ =>
      r <~ call (reDeployByEvent h event (resource_Secret env)) ;; byEvent r
  | EvRoute m => routeCase h event m
  | EvDeployment m deploy =>
      deploymentCase h event m (ObjDeployment deploy) (resource_Deployment env)
  | EvDeploymentConfig m deploy =>
      deploymentCase h event m (ObjDeploymentConfig deploy) (resource_DeploymentConfig env)
  | EvImageRegistry o => imageRegistryCase h o
  | EvOther _ _ => pret {| cr := None; statusChanged := false |}
  end.

(** [Handle]. Its first statement is [return nil]. *)
Definition Handle (h : Handler) (ctx : unit) (event : Event)
    : M World (ending (option error)) :=
  func (
    _ <~ return_then None ;;
    _ <~ lift (logrus "debug"
                 ("received event for " +:+ typeName (Event_Object event) +:+
                  " (deleted=" +:+ GoText.fmt_bool (Event_Deleted event) +:+ ")")) ;;
    l <~ dispatch h event ;;
    _ <~ match cr l with
         | Some cr =>
             if statusChanged l
             then
               _ <~ lift (logrus "info" (Name cr +:+ " changed")) ;;
               let cr := setStatus cr
                           {| Conditions := Conditions (CRStatus cr);
                              ObservedGeneration := Generation cr;
                              InternalRegistryHostname :=
                                InternalRegistryHostname (CRStatus cr) |} in
               err <~ lift (ext "sdk.Update" [Namespace cr; Name cr] (sdk_Update env cr)) ;;
               match err with
               | Some err =>
                   if negb (IsConflict err)
                   then lift (logrus "error"
                                ("unable to update " +:+ Name cr +:+ ": " +:+ Error err))
                   else pret tt
               | None => pret tt
               end
             else pret tt
         | None => pret tt
         end ;;
    return_ None).

End Model.

End Events.

(** ** A cluster in memory, for the examples *)

Module MemCluster.
Import K8s V1alpha1.

Record Mem := {
  mem_projects : gmap string Project;
  mem_objects : gmap string Object;
  mem_services : gmap string Service;
  mem_dcs : gmap string DeploymentConfig;
  mem_secrets : gmap string Generate.Secret;
  mem_configmaps : gmap string Generate.ConfigMap;
}.

Definition emptyMem : Mem :=
  {| mem_projects := ∅; mem_objects := ∅; mem_services := ∅; mem_dcs := ∅;
     mem_secrets := ∅; mem_configmaps := ∅ |}.

Definition metaKey (kind : string) (m : ObjectMeta) : string :=
  kind +:+ " " +:+ Namespace m +:+ "/" +:+ Name m.

(** A store of one kind: reads answer not-found for a missing key, a create
    is refused for a present one, an update for a missing one. *)
Definition memSDK {T} (key : T → string) (get : Mem → gmap string T)
    (set : gmap string T → Mem → Mem) : SDK Mem T :=
  {| sdk_Get o s :=
       match get s !! key o with
       | Some x => (Ok x, s)
       | None => (Err (StatusError StatusReasonNotFound (key o +:+ " not found")), s)
       end;
     sdk_Create o s :=
       match get s !! key o with
       | Some _ =>
           (Some (StatusError StatusReasonAlreadyExists (key o +:+ " already exists")), s)
       | None => (None, set (<[key o := o]> (get s)) s)
       end;
     sdk_Update o s :=
       match get s !! key o with
       | Some _ => (None, set (<[key o := o]> (get s)) s)
       | None => (Some (StatusError StatusReasonNotFound (key o +:+ " not found")), s)
       end;
     sdk_key := key |}.

#[export] Instance Mem_projects : SDK Mem Project :=
  memSDK (λ o, metaKey "Project" (prj_ObjectMeta o)) mem_projects
    (λ m s, {| mem_projects := m; mem_objects := mem_objects s;
               mem_services := mem_services s; mem_dcs := mem_dcs s;
               mem_secrets := mem_secrets s; mem_configmaps := mem_configmaps s |}).

#[export] Instance Mem_objects : SDK Mem Object :=
  memSDK (λ o, metaKey (Kind (o_TypeMeta o)) (default emptyMeta (o_ObjectMeta o)))
    mem_objects
    (λ m s, {| mem_projects := mem_projects s; mem_objects := m;
               mem_services := mem_services s; mem_dcs := mem_dcs s;
               mem_secrets := mem_secrets s; mem_configmaps := mem_configmaps s |}).

#[export] Instance Mem_services : SDK Mem Service :=
  memSDK (λ o, metaKey "Service" (svc_ObjectMeta o)) mem_services
    (λ m s, {| mem_projects := mem_projects s; mem_objects := mem_objects s;
               mem_services := m; mem_dcs := mem_dcs s;
               mem_secrets := mem_secrets s; mem_configmaps := mem_configmaps s |}).

#[export] Instance Mem_dcs : SDK Mem DeploymentConfig :=
  memSDK (λ o, metaKey "DeploymentConfig" (dc_ObjectMeta o)) mem_dcs
    (λ m s, {| mem_projects := mem_projects s; mem_objects := mem_objects s;
               mem_services := mem_services s; mem_dcs := m;
               mem_secrets := mem_secrets s; mem_configmaps := mem_configmaps s |}).

#[export] Instance Mem_secrets : SDK Mem Generate.Secret :=
  memSDK (λ o, metaKey "Secret" (Generate.sec_ObjectMeta o)) mem_secrets
    (λ m s, {| mem_projects := mem_projects s; mem_objects := mem_objects s;
               mem_services := mem_services s; mem_dcs := mem_dcs s;
               mem_secrets := m; mem_configmaps := mem_configmaps s |}).

#[export] Instance Mem_configmaps : SDK Mem Generate.ConfigMap :=
  memSDK (λ o, metaKey "ConfigMap" (Generate.cm_ObjectMeta o)) mem_configmaps
    (λ m s, {| mem_projects := mem_projects s; mem_objects := mem_objects s;
               mem_services := mem_services s; mem_dcs := mem_dcs s;
               mem_secrets := mem_secrets s; mem_configmaps := m |}).

(** Stand-ins for the digest of the JSON of an object: the text that
    identifies the object as the operator writes it. *)
#[export] Instance Object_checksum : Checksum Object :=
  λ o, Ok ("sha256:" +:+ Kind (o_TypeMeta o) +:+ "/" +:+ o_Content o).
#[export] Instance Service_checksum : Checksum Service :=
  λ o, Ok ("sha256:" +:+ Name (svc_ObjectMeta o) +:+ "/" +:+ ss_Type (svc_Spec o)).
#[export] Instance DeploymentConfig_checksum : Checksum DeploymentConfig :=
  λ o, Ok ("sha256:" +:+ Name (dc_ObjectMeta o)).
#[export] Instance Secret_checksum : Checksum Generate.Secret :=
  λ o, Ok ("sha256:" +:+ Name (Generate.sec_ObjectMeta o)).
#[export] Instance ConfigMap_checksum : Checksum Generate.ConfigMap :=
  λ o, Ok ("sha256:" +:+ Name (Generate.cm_ObjectMeta o)).

Definition quote (s : string) : string := "'" +:+ s +:+ "'".
Definition seconds (d : Z) : string := pretty (d `div` 1000000000) +:+ "s".

Definition namedMeta (namespace name : string) : ObjectMeta :=
  {| Name := name; Namespace := namespace; Labels := ∅; Annotations := ∅;
     OwnerReferences := []; UID := ""; ResourceVersion := "" |}.

(** A cluster with the registry's namespace, its secret and its
    certificates. *)
Definition registryCluster : Mem :=
  {| mem_projects :=
       {[ "Project /openshift-image-registry" :=
            {| prj_TypeMeta := {| APIVersion := "project.openshift.io/v1";
                                  Kind := "Project" |};
               prj_ObjectMeta :=
                 SetAnnotations (namedMeta "" "openshift-image-registry")
                   {[ "openshift.io/sa.scc.supplemental-groups" := "1000080000/10000" ]} |} ]};
     mem_objects := ∅; mem_services := ∅; mem_dcs := ∅;
     mem_secrets :=
       {[ "Secret openshift-image-registry/image-registry-private-configuration" :=
            {| Generate.sec_TypeMeta := {| APIVersion := "v1"; Kind := "Secret" |};
               Generate.sec_ObjectMeta :=
                 namedMeta "openshift-image-registry"
                           "image-registry-private-configuration";
               Generate.sec_Data := ∅ |} ]};
     mem_configmaps :=
       {[ "ConfigMap openshift-image-registry/image-registry-certificates" :=
            {| Generate.cm_TypeMeta := {| APIVersion := "v1"; Kind := "ConfigMap" |};
               Generate.cm_ObjectMeta :=
                 namedMeta "openshift-image-registry" "image-registry-certificates";
               Generate.cm_Data := ∅ |} ]} |}.

Definition freshWorld (s : Mem) : SdkWorld Mem :=
  {| sdk_calls := []; sdk_cluster := s |}.

Definition noStorage : Storage :=
  {| Filesystem := None; Azure := None; GCS := None; S3 := None; Swift := None |}.

Definition emptyDir : FilesystemStorage :=
  {| fs_VolumeSource := {| vs_HostPath := None; vs_EmptyDir := Some "";
                           vs_PersistentVolumeClaim := None; vs_ConfigMap := None |} |}.

Definition onlyFilesystem : Storage :=
  {| Filesystem := Some emptyDir; Azure := None; GCS := None; S3 := None;
     Swift := None |}.

Definition bucket : S3Storage :=
  {| AccessKey := "key"; SecretKey := "secret"; s3_Bucket := "registry";
     Region := "us-east-1"; RegionEndpoint := ""; Encrypt := true |}.

Definition onlyS3 : Storage :=
  {| Filesystem := None; Azure := None; GCS := None; S3 := Some bucket;
     Swift := None |}.

Definition filesystemAndS3 : Storage :=
  {| Filesystem := Some emptyDir; Azure := None; GCS := None; S3 := Some bucket;
     Swift := None |}.

Definition registry (storage : Storage) : OpenShiftDockerRegistry :=
  {| cr_TypeMeta := {| APIVersion := "dockerregistry.operator.openshift.io/v1alpha1";
                       Kind := "OpenShiftDockerRegistry" |};
     cr_Name := "image-registry";
     cr_Namespace := "openshift-image-registry";
     cr_UID := "uid-1";
     Spec_Storage := storage;
     Spec_Replicas := 1;
     Spec_NodeSelector := ∅;
     Spec_ImagePullSpec := "docker.io/openshift/origin-docker-registry:latest";
     Spec_HTTPSecret := "http-secret";
     Spec_LoggingLevel := 2;
     Spec_TLS := Some true;
     Spec_RequestsRead := {| MaxRunning := 0; MaxInQueue := 0; MaxWaitInQueue := 0 |};
     Spec_RequestsWrite := {| MaxRunning := 0; MaxInQueue := 0; MaxWaitInQueue := 0 |} |}.

Definition parameters : Parameters :=
  {| Container_Port := 5000;
     Container_UseTLS := true;
     Container_Name := "registry";
     Healthz_Route := "/healthz";
     Healthz_TimeoutSeconds := 5;
     Deployment_Name := "image-registry";
     Deployment_Namespace := "openshift-image-registry";
     Deployment_Labels := {[ "docker-registry" := "default" ]};
     Pod_ServiceAccount := "registry" |}.

(** A strategy that takes the expected object and keeps what the cluster
    assigned to the current one. *)
Definition override : Operator.Strategy :=
  {| Operator.Strategy_Apply current expected :=
       Ok {| o_TypeMeta := o_TypeMeta expected;
             o_ObjectMeta :=
               match o_ObjectMeta current, o_ObjectMeta expected with
               | Some c, Some e => Some (Operator.mergeObjectMeta c e)
               | _, e => e
               end;
             o_Content := o_Content expected |} |}.

Definition gvk (t : TypeMeta) : string := APIVersion t +:+ ", Kind=" +:+ Kind t.

Definition serviceAccount : Operator.Template :=
  {| Operator.Template_Object :=
       {| o_TypeMeta := {| APIVersion := "v1"; Kind := "ServiceAccount" |};
          o_ObjectMeta := Some (namedMeta "openshift-image-registry" "registry");
          o_Content := "" |};
     Operator.Template_Strategy := override |}.

Definition registryService : Service :=
  {| svc_TypeMeta := {| APIVersion := "v1"; Kind := "Service" |};
     svc_ObjectMeta := namedMeta "openshift-image-registry" "image-registry";
     svc_Spec := {| ss_Selector := {[ "docker-registry" := "default" ]};
                    ss_Type := "ClusterIP";
                    ss_Ports := [ {| sp_Name := "5000-tcp"; sp_Port := 5000;
                                     sp_Protocol := "TCP"; sp_TargetPort := 5000 |} ];
                    ss_ClusterIP := "" |} |}.

(** One pass of [ApplyTemplate] over the service account template on
    cluster [s], with [modified] false at the start: the error, the calls
    made, [modified] at the end, and the cluster left behind. *)
Definition applyServiceAccount (s : Mem) : option error * list SdkCall * bool * Mem :=
  let r := Operator.ApplyTemplate gvk o_Content serviceAccount (freshWorld s, false) in
  (r.1, sdk_calls r.2.1, r.2.2, sdk_cluster r.2.1).

(** One pass of [ApplyService] over the freshly generated service. *)
Definition applyRegistryService (s : Mem) : option error * list SdkCall * bool * Mem :=
  let r := Operator.ApplyService (freshWorld s, (registryService, false)) in
  (r.1, sdk_calls r.2.1, r.2.2.2, sdk_cluster r.2.1).

End MemCluster.

(** ** A storage provider and routes in memory, for the examples *)

Module ResourceExamples.
Import Resource.

Record Cluster := {
  bucket : bool;              (* the storage exists *)
  removeFailures : nat;       (* how often its removal will ask to retry *)
  liveRoutes : list Route;
  objects : list string;      (* the names of the objects that exist *)
}.

Definition setBucket (b : bool) (s : Cluster) : Cluster :=
  {| bucket := b; removeFailures := removeFailures s;
     liveRoutes := liveRoutes s; objects := objects s |}.

Definition setObjects (o : list string) (s : Cluster) : Cluster :=
  {| bucket := bucket s; removeFailures := removeFailures s;
     liveRoutes := liveRoutes s; objects := o |}.

Definition bucketNotEmpty : error := PlainError "bucket is not empty".
Definition accessDenied : error := StatusError StatusReasonForbidden "access denied".

(** A driver whose removal asks for a retry [removeFailures] times. *)
Definition driver : Driver Cluster string string :=
  {| StorageChanged cr s := (false, s);
     StorageExists cr s := ((bucket s, None), s);
     CreateStorage cr s := (None, setBucket true s);
     RemoveStorage cr s :=
       match removeFailures s with
       | O => ((false, None), setBucket false s)
       | Datatypes.S n =>
           ((true, Some bucketNotEmpty),
            {| bucket := bucket s; removeFailures := n;
               liveRoutes := liveRoutes s; objects := objects s |})
       end |}.

(** A driver whose removal is refused for good. *)
Definition deniedDriver : Driver Cluster string string :=
  {| StorageChanged cr s := (false, s);
     StorageExists cr s := ((bucket s, None), s);
     CreateStorage cr s := (None, setBucket true s);
     RemoveStorage cr s := ((false, Some accessDenied), s) |}.

Definition hasObject (name : string) (s : Cluster) : bool :=
  existsb (String.eqb name) (objects s).

Definition mutator (name : string) : Mutator Cluster string :=
  {| GetName := name;
     mName := name;
     Get s := if hasObject name s then (Ok name, s)
              else (Err (StatusError StatusReasonNotFound (name +:+ " not found")), s);
     Create s := (Ok name, setObjects (name :: objects s) s);
     Update o s := (Ok (o, false), s);
     Delete opts s :=
       (None, setObjects (List.filter (λ x, negb (String.eqb x name)) (objects s)) s);
     Owned := true |}.

(** A mutator whose read is refused. *)
Definition forbiddenMutator (name : string) : Mutator Cluster string :=
  {| GetName := name;
     mName := name;
     Get s := (Err accessDenied, s);
     Create s := (Ok name, setObjects (name :: objects s) s);
     Update o s := (Ok (o, false), s);
     Delete opts s := (None, s);
     Owned := true |}.

Definition routeClient : RouteClient Cluster :=
  {| Routes_Delete namespace name opts s :=
       (None,
        {| bucket := bucket s; removeFailures := removeFailures s;
           liveRoutes :=
             List.filter (λ r, negb (String.eqb (route_Name r) name)) (liveRoutes s);
           objects := objects s |}) |}.

Definition routeListers : Listers Cluster :=
  {| Routes_List s := (Ok (liveRoutes s), s) |}.

Definition env (d : Driver Cluster string string)
    : Env Cluster string string string unit unit unit unit unit :=
  {| DefaultRouteName := "default-route";
     coreset_NewForConfig _ := Ok tt;
     appsset_NewForConfig _ := Ok tt;
     rbacset_NewForConfig _ := Ok tt;
     routeset_NewForConfig _ := Ok routeClient;
     configset_NewForConfig _ := Ok tt;
     NewDriver _ _ _ := Ok d;
     NewDriverFromStatus _ _ _ := Ok d;
     RouteIsCreatedByOperator r :=
       match route_Owners r with [] => false | _ => true end;
     newGeneratorClusterRole _ _ _ := mutator "cluster-role";
     newGeneratorClusterRoleBinding _ _ _ _ := mutator "cluster-role-binding";
     newGeneratorServiceAccount _ _ _ _ := mutator "service-account";
     newGeneratorServiceCA _ _ _ := mutator "service-ca";
     newGeneratorCAConfig _ _ _ _ := mutator "ca-config";
     newGeneratorSecret _ _ _ _ _ := mutator "secret";
     newGeneratorImageConfig _ _ _ := mutator "image-config";
     newGeneratorNodeCADaemonSet _ _ _ := mutator "node-ca";
     newGeneratorService _ _ _ _ := mutator "service";
     newGeneratorDeployment _ _ _ _ _ _ := mutator "deployment";
     newGeneratorRoute _ _ _ _ route := mutator (Name route);
     newGeneratorClusterOperator _ _ _ _ := mutator "cluster-operator" |}.

Definition generator : Generator Cluster unit :=
  {| kubeconfig := tt; listers := routeListers;
     params := {| Deployment_Namespace := "openshift-image-registry" |} |}.

Definition route (name : string) (byOperator : bool) : Route :=
  {| route_Name := name; route_Namespace := "openshift-image-registry";
     route_Labels := ∅;
     route_Owners := if byOperator then ["image-registry"] else [] |}.

Definition declared (name : string) : ImageRegistryConfigRoute :=
  {| Name := name; Hostname := name +:+ ".example.com"; SecretName := "" |}.

(** A configuration that declares the routes a and c. *)
Definition config : Config string string :=
  {| Spec_DefaultRoute := false;
     Spec_Routes := [declared "a"; declared "c"];
     Spec_Storage := "s3";
     Status_Storage := "s3" |}.

(** A cluster with the operator's routes a, b and c, and a route d that is
    not the operator's. *)
Definition cluster0 (failures : nat) : Cluster :=
  {| bucket := true; removeFailures := failures;
     liveRoutes := [route "a" true; route "b" true; route "c" true; route "d" false];
     objects := [] |}.

Definition world0 (failures : nat) : World Cluster :=
  {| clock := 0; calls := []; cluster := cluster0 failures |}.

(** The world in which [Remove] starts to poll: the owned objects are
    deleted. *)
Definition deletions : list Call :=
  map (λ name, CallDelete name foregroundNow)
    [ "cluster-role"; "cluster-role-binding"; "service-account"; "service-ca";
      "ca-config"; "secret"; "image-config"; "node-ca"; "service"; "deployment";
      "a"; "c"; "cluster-operator" ].

Definition worldAfterDeletions (failures : nat) : World Cluster :=
  {| clock := 0; calls := deletions; cluster := cluster0 failures |}.

End ResourceExamples.

(** ** Concrete inputs used by the examples below *)

Module HandlerExamples.
Import Handler.

(** A registry whose Available condition has been True since time 100. *)
Definition availableSince100 : ImageRegistry :=
  {| Name := "image-registry"; Namespace := "openshift-image-registry";
     UID := "uid-1"; Generation := 1; DeletionTimestamp := None;
     SpecManagementState := Managed;
     SpecStorage := MemCluster.onlyS3;
     CRStatus := {| Conditions :=
                      [ {| Type_ := OperatorStatusTypeAvailable;
                           Status := ConditionTrue;
                           LastTransitionTime := 100;
                           Reason := "ResourceApplied";
                           Message := "all resources applied" |} ];
                    ObservedGeneration := 1;
                    InternalRegistryHostname := "" |} |}.

(** A deployment with a replica target of 3 and the given observations. *)
Definition deployment3 (available generation observed : Z) : Object :=
  ObjDeployment
    {| d_Generation := generation;
       d_SpecReplicas := Some 3;
       d_Status := {| UpdatedReplicas := 3; Replicas := 3;
                      AvailableReplicas := available;
                      StatusObservedGeneration := observed |} |}.

End HandlerExamples.

(** ** A quiet cluster for the event handler, for the examples *)

Module EventsExamples.
Import Handler Events.

(** The process environment and the clock. *)
Record Cluster := {
  watchNamespace : option string;
  operatorName : option string;
  time : Time;
}.

Definition lookupEnv (name : string) (value : option string) : result string :=
  match value with
  | Some v => Ok v
  | None => Err (PlainError (name +:+ " must be set"))
  end.

(** Collaborators that succeed and change nothing. *)
Definition quiet : @Env Cluster string unit unit :=
  {| GetWatchNamespace s := lookupEnv "WATCH_NAMESPACE" (watchNamespace s);
     GetOperatorName s := lookupEnv "OPERATOR_NAME" (operatorName s);
     Getenv name s := default "" (watchNamespace s);
     Now := time;
     SchemeGroupVersion := "imageregistry.operator.openshift.io/v1alpha1";
     NewStatusHandler name namespace := {| sh_Name := name; sh_Namespace := namespace |};
     sdk_Get cr s := (Ok cr, s);
     sdk_Update cr s := (None, s);
     Bootstrap h s := (Ok HandlerExamples.availableSince100, s);
     RemoveResources h cr s := (None, s);
     clusterStatus_Create sh s := (None, s);
     clusterStatus_Update sh type status msg s := (None, s);
     resource_ClusterRole cr p s := (Ok "cluster-role", s);
     resource_ClusterRoleBinding cr p s := (Ok "cluster-role-binding", s);
     resource_ServiceAccount cr p s := (Ok "service-account", s);
     resource_ConfigMap cr p s := (Ok "config-map", s);
     resource_Secret cr p s := (Ok "secret", s);
     resource_Service cr p s := (Ok "service", s);
     resource_ImageConfig cr p s := (Ok "image-config", s);
     resource_Deployment cr p s := (Ok "deployment", s);
     resource_DeploymentConfig cr p s := (Ok "deployment-config", s);
     GetRouteGenerators cr p := [];
     ApplyTemplate tmpl force modified s := ((None, modified), s);
     Template_Name tmpl := tmpl;
     appendFinalizer o modified := (o, modified);
     verifyResource o p := (None, o);
     GetConfigState namespace s := (Ok tt, s);
     SetConfigState o state s := (None, s);
     NewDriver name namespace storage := Ok tt;
     ValidateConfiguration driver state := None;
     syncRoutes o p modified s := ((None, modified), s) |}.

Definition start : @World Cluster :=
  {| effects := [];
     cluster := {| watchNamespace := Some "openshift-image-registry";
                   operatorName := Some "cluster-image-registry-operator";
                   time := 200 |} |}.

Definition handler : @Handler Cluster string :=
  {| params := {| Deployment_Namespace := "openshift-image-registry";
                  Deployment_Labels := {[ "docker-registry" := "default" ]};
                  Pod_ServiceAccount := "registry";
                  Container_Port := 5000;
                  Healthz_Route := "/healthz";
                  Healthz_TimeoutSeconds := 5;
                  Service_Name := "image-registry";
                  ImageConfig_Name := "cluster" |};
     generateDeployment := resource_Deployment quiet;
     clusterStatus := {| sh_Name := "cluster-image-registry-operator";
                         sh_Namespace := "openshift-image-registry" |} |}.

End EventsExamples.

(** ** An object that other writers change, for the examples *)

Module RetryExamples.
Import Resource.

(** One object with a version, and the number of writes that other clients
    will still make between a read and the update that follows it. *)
Record Versioned := {
  version : nat;
  racing : nat;
}.

Definition modified : error :=
  StatusError StatusReasonConflict "the object has been modified".

(** An update is refused with a conflict when it is not made from the
    version that the store holds. *)
Definition deployment : Mutator Versioned nat :=
  {| GetName := "deployment";
     mName := "deployment";
     Get s := (Ok (version s), s);
     Create s := (Err (StatusError StatusReasonAlreadyExists "deployment exists"), s);
     Update o s :=
       match racing s with
       | O => if Nat.eqb o (version s)
              then (Ok (Datatypes.S o, true),
                    {| version := Datatypes.S o; racing := 0 |})
              else (Err modified, s)
       | Datatypes.S n =>
           (Err modified, {| version := Datatypes.S (version s); racing := n |})
       end;
     Delete opts s := (None, s);
     Owned := true |}.

(** An object that no update gets through to. *)
Definition contended : Mutator Versioned nat :=
  {| GetName := "contended";
     mName := "contended";
     Get s := (Ok 0%nat, s);
     Create s := (Err (StatusError StatusReasonAlreadyExists "contended exists"), s);
     Update o s := (Err modified, s);
     Delete opts s := (None, s);
     Owned := true |}.

(** An object that is missing and that the cluster refuses to create or
    to change. *)
Definition refused (missing : bool) : Mutator Versioned nat :=
  {| GetName := "refused";
     mName := "refused";
     Get s := if missing
              then (Err (StatusError StatusReasonNotFound "refused not found"), s)
              else (Ok (version s), s);
     Create s := (Err modified, s);
     Update o s := (Err (StatusError StatusReasonForbidden "access denied"), s);
     Delete opts s := (None, s);
     Owned := true |}.

Definition raced (n : nat) : World Versioned :=
  {| clock := 0; calls := []; cluster := {| version := 1; racing := n |} |}.

(** The mutators of the example configuration of [ResourceExamples]. *)
Definition mutators : list (Mutator ResourceExamples.Cluster string) :=
  match list_ (ResourceExamples.env ResourceExamples.driver)
          ResourceExamples.generator ResourceExamples.config with
  | Ok generators => generators
  | Err _ => []
  end.

End RetryExamples.

(** ** Objects and their owners, for the examples *)

Module OwnerExamples.
Import Handler Events EventsExamples.

(** The metadata of an object that the registry resource with the given
    UID controls. *)
Definition controlledBy (uid : string) : K8s.ObjectMeta :=
  {| K8s.Name := "image-registry-private-configuration";
     K8s.Namespace := "openshift-image-registry";
     K8s.Labels := ∅; K8s.Annotations := ∅;
     K8s.OwnerReferences :=
       [ {| K8s.or_APIVersion := "imageregistry.operator.openshift.io/v1alpha1";
            K8s.or_Kind := "ImageRegistry";
            K8s.or_Name := "image-registry";
            K8s.or_UID := uid;
            K8s.or_Controller := Some true |} ];
     K8s.UID := "uid-7"; K8s.ResourceVersion := "12" |}.

Definition secretChanged : Event :=
  {| Event_Object := EvSecret (controlledBy "uid-0"); Event_Deleted := false |}.

(** The quiet cluster with a storage driver that rejects every change. *)
Definition rejecting : @Env Cluster string unit unit :=
  {| GetWatchNamespace := GetWatchNamespace quiet;
     GetOperatorName := GetOperatorName quiet;
     Getenv := Getenv quiet;
     Now := Now quiet;
     SchemeGroupVersion := SchemeGroupVersion quiet;
     NewStatusHandler := NewStatusHandler quiet;
     sdk_Get := sdk_Get quiet;
     sdk_Update := sdk_Update quiet;
     Bootstrap := Bootstrap quiet;
     RemoveResources := RemoveResources quiet;
     clusterStatus_Create := clusterStatus_Create quiet;
     clusterStatus_Update := clusterStatus_Update quiet;
     resource_ClusterRole := resource_ClusterRole quiet;
     resource_ClusterRoleBinding := resource_ClusterRoleBinding quiet;
     resource_ServiceAccount := resource_ServiceAccount quiet;
     resource_ConfigMap := resource_ConfigMap quiet;
     resource_Secret := resource_Secret quiet;
     resource_Service := resource_Service quiet;
     resource_ImageConfig := resource_ImageConfig quiet;
     resource_Deployment := resource_Deployment quiet;
     resource_DeploymentConfig := resource_DeploymentConfig quiet;
     GetRouteGenerators := GetRouteGenerators quiet;
     ApplyTemplate := ApplyTemplate quiet;
     Template_Name := Template_Name quiet;
     appendFinalizer := appendFinalizer quiet;
     verifyResource := verifyResource quiet;
     GetConfigState := GetConfigState quiet;
     SetConfigState := SetConfigState quiet;
     NewDriver := NewDriver quiet;
     ValidateConfiguration driver state :=
       Some (ConfigurationError "storage backend cannot be changed");
     syncRoutes := syncRoutes quiet |}.

End OwnerExamples.

(** ** A registry resource without a TLS setting, for the examples *)

Module PodExamples.
Import K8s V1alpha1 MemCluster.

Definition withoutTLS (cr : OpenShiftDockerRegistry) : OpenShiftDockerRegistry :=
  {| cr_TypeMeta := cr_TypeMeta cr; cr_Name := cr_Name cr;
     cr_Namespace := cr_Namespace cr; cr_UID := cr_UID cr;
     Spec_Storage := Spec_Storage cr;
     Spec_Replicas := Spec_Replicas cr; Spec_NodeSelector := Spec_NodeSelector cr;
     Spec_ImagePullSpec := Spec_ImagePullSpec cr; Spec_HTTPSecret := Spec_HTTPSecret cr;
     Spec_LoggingLevel := Spec_LoggingLevel cr; Spec_TLS := None;
     Spec_RequestsRead := Spec_RequestsRead cr;
     Spec_RequestsWrite := Spec_RequestsWrite cr |}.

End PodExamples.

(** ** A cluster that holds one object, for the examples *)

Module SlotExamples.
Import K8s.

Definition slot : SDK (option Object) Object :=
  {| sdk_Get o s :=
       match s with
       | Some x => (Ok x, s)
       | None => (Err (StatusError StatusReasonNotFound "not found"), s)
       end;
     sdk_Create o s :=
       match s with
       | Some _ => (Some (StatusError StatusReasonAlreadyExists "already exists"), s)
       | None => (None, Some o)
       end;
     sdk_Update o s :=
       match s with
       | Some _ => (None, Some o)
       | None => (Some (StatusError StatusReasonNotFound "not found"), s)
       end;
     sdk_key o := Kind (o_TypeMeta o) |}.

(** The cluster after the service account has been created from its
    template: the object is there, without a digest. *)
Definition created : SdkWorld (option Object) :=
  {| sdk_calls := [];
     sdk_cluster := Some (Operator.Template_Object MemCluster.serviceAccount) |}.

End SlotExamples.

(** * Properties *)

(** ** Conditions *)

Section Conditions.
Import Handler HandlerExamples.

Lemma fold_updateCondition_conditions condition cs st :
  uc_conditions (fold_left (updateCondition_step condition) cs st) =
  uc_conditions st ++
    map (λ c, if String.eqb (Type_ condition) (Type_ c) then condition else c) cs.
Proof.
  revert st. induction cs as [|c cs IH]; intros st; simpl.
  - by rewrite app_nil_r.
  - rewrite IH. unfold updateCondition_step.
    destruct (String.eqb (Type_ condition) (Type_ c)); simpl;
      by rewrite <- app_assoc.
Qed.

Lemma fold_updateCondition_found condition cs st :
  uc_found (fold_left (updateCondition_step condition) cs st) =
  uc_found st || existsb (λ c, String.eqb (Type_ condition) (Type_ c)) cs.
Proof.
  revert st. induction cs as [|c cs IH]; intros st; simpl.
  - by rewrite orb_false_r.
  - rewrite IH. unfold updateCondition_step.
    destruct (String.eqb (Type_ condition) (Type_ c)); simpl.
    + by rewrite orb_true_r.
    + done.
Qed.

Lemma fold_updateCondition_modified condition cs st :
  uc_modified (fold_left (updateCondition_step condition) cs st) =
  uc_modified st ||
    existsb (λ c, String.eqb (Type_ condition) (Type_ c) &&
                  negb (String.eqb (Status condition) (Status c))) cs.
Proof.
  revert st. induction cs as [|c cs IH]; intros st; simpl.
  - by rewrite orb_false_r.
  - rewrite IH. unfold updateCondition_step.
    destruct (String.eqb (Type_ condition) (Type_ c)); simpl; [|done].
    destruct (String.eqb (Status condition) (Status c)); simpl; [done|].
    by rewrite orb_true_r.
Qed.

(** The list [updateCondition] stores: every entry of the written type is
    replaced by the new condition as a whole, and the condition is appended
    when the type was absent. *)
Lemma updateCondition_conditions cr condition :
  Conditions (CRStatus (updateCondition cr condition).1) =
  map (λ c, if String.eqb (Type_ condition) (Type_ c) then condition else c)
      (Conditions (CRStatus cr)) ++
  (if existsb (λ c, String.eqb (Type_ condition) (Type_ c)) (Conditions (CRStatus cr))
   then [] else [condition]).
Proof.
  unfold updateCondition. simpl.
  rewrite fold_updateCondition_found. simpl.
  destruct (existsb _ _); simpl.
  - rewrite fold_updateCondition_conditions. simpl. by rewrite app_nil_r.
  - by rewrite fold_updateCondition_conditions.
Qed.

(** [modified] is reported exactly when the type was absent or some stored
    entry of that type had another status value. *)
Lemma updateCondition_modified cr condition :
  (updateCondition cr condition).2 =
  negb (existsb (λ c, String.eqb (Type_ condition) (Type_ c)) (Conditions (CRStatus cr))) ||
  existsb (λ c, String.eqb (Type_ condition) (Type_ c) &&
                negb (String.eqb (Status condition) (Status c)))
          (Conditions (CRStatus cr)).
Proof.
  unfold updateCondition. simpl.
  rewrite fold_updateCondition_found. simpl.
  destruct (existsb _ _) eqn:E; simpl.
  - by rewrite fold_updateCondition_modified.
  - done.
Qed.

(** Re-asserting the stored status value reports no change. *)
Lemma updateCondition_same_status_unmodified cr condition c :
  Conditions (CRStatus cr) = [c] →
  Type_ c = Type_ condition →
  Status c = Status condition →
  (updateCondition cr condition).2 = false.
Proof.
  intros Hcs Ht Hs. rewrite updateCondition_modified, Hcs. simpl.
  rewrite Ht, Hs, !String.eqb_refl. done.
Qed.

(** ... and yet the stored entry, time stamp included, is the new one. *)
Lemma updateCondition_same_status_overwrites cr condition c :
  Conditions (CRStatus cr) = [c] →
  Type_ c = Type_ condition →
  Conditions (CRStatus (updateCondition cr condition).1) = [condition].
Proof.
  intros Hcs Ht. rewrite updateCondition_conditions, Hcs. simpl.
  by rewrite Ht, String.eqb_refl.
Qed.

(** C1. Re-asserting the stored status value: the write of Available=True at
    time 200 over a stored Available=True from time 100 reports no change,
    but the stored condition now carries [lastTransitionTime] 200. The time
    stamp moves although the status value made no transition. *)
Theorem reassert_same_status_moves_lastTransitionTime :
  conditionResourceApply 200 availableSince100 ConditionTrue "all resources applied" false =
  (setConditions availableSince100
     [ {| Type_ := OperatorStatusTypeAvailable;
          Status := ConditionTrue;
          LastTransitionTime := 200;
          Reason := "ResourceApplied";
          Message := "all resources applied" |} ],
   false).
Proof. reflexivity. Qed.

(** A transition of the status value does move the time stamp and is
    reported. *)
Lemma transition_moves_lastTransitionTime :
  conditionResourceApply 200 availableSince100 ConditionFalse "unable to deploy" false =
  (setConditions availableSince100
     [ {| Type_ := OperatorStatusTypeAvailable;
          Status := ConditionFalse;
          LastTransitionTime := 200;
          Reason := "ResourceApplied";
          Message := "unable to deploy" |} ],
   true).
Proof. reflexivity. Qed.

End Conditions.

(** ** Deployment status *)

Section DeploymentStatus.
Import Handler HandlerExamples Events.
Context {S Template Driver ConfigState : Type}.
Context (env : @Env S Template Driver ConfigState).
Implicit Types (h : @Handler S Template) (w : @World S).

Lemma isDeploymentStatusComplete_spec o :
  isDeploymentStatusComplete o = true ↔ rolloutComplete o.
Proof.
  destruct o as [deploy|deploy|kind]; simpl.
  - rewrite !andb_true_iff, !Z.eqb_eq, Z.leb_le. tauto.
  - destruct (d_SpecReplicas deploy); simpl;
      rewrite !andb_true_iff, !Z.eqb_eq, Z.leb_le; tauto.
  - split; [discriminate | tauto].
Qed.

(** [syncDeploymentStatus] makes the Available update and then the
    Progressing update, whatever the object and whatever the outcome of the
    updates. *)
Lemma syncDeploymentStatus_updates h cr o statusChanged w :
  statusUpdates
    (drop (length (effects w))
          (effects (syncDeploymentStatus env h cr o statusChanged w).2)) =
  [ if isDeploymentStatusAvailable o
    then {| cs_type := OperatorAvailable; cs_status := ConditionTrue;
            cs_msg := "deployment has minimum availability" |}
    else {| cs_type := OperatorAvailable; cs_status := ConditionFalse;
            cs_msg := "" |};
    if isDeploymentStatusComplete o
    then {| cs_type := OperatorProgressing; cs_status := ConditionFalse;
            cs_msg := "deployment successfully progressed" |}
    else {| cs_type := OperatorProgressing; cs_status := ConditionTrue;
            cs_msg := "deployment is progressing" |} ].
Proof.
  unfold syncDeploymentStatus.
  destruct (isDeploymentStatusAvailable o), (isDeploymentStatusComplete o);
    unfold bind, clusterStatusUpdate, logrus, readNow, ret; cbn [cluster effects];
    destruct (clusterStatus_Update env _ _ _ _ (cluster w)) as [[e1|] s1];
    cbn [cluster effects];
    destruct (clusterStatus_Update env _ _ _ _ s1) as [[e2|] s2];
    cbn [cluster effects snd];
    rewrite <- ?app_assoc, drop_app_length; reflexivity.
Qed.

Lemma progressingUpdate_eq h cr o statusChanged w :
  progressingUpdate env h cr o statusChanged w =
  Some (if isDeploymentStatusComplete o
        then {| cs_type := OperatorProgressing; cs_status := ConditionFalse;
                cs_msg := "deployment successfully progressed" |}
        else {| cs_type := OperatorProgressing; cs_status := ConditionTrue;
                cs_msg := "deployment is progressing" |}).
Proof.
  unfold progressingUpdate. rewrite syncDeploymentStatus_updates.
  destruct (isDeploymentStatusAvailable o), (isDeploymentStatusComplete o);
    reflexivity.
Qed.

(** C5 (amended). The Progressing condition is False, with the message
    "deployment successfully progressed", if and only if the updated, total
    and available replica counts each equal the replica target (1 for a
    Deployment that declares none) and the observed generation is at least
    the current generation; in every other case it is True, "deployment is
    progressing". With a target of 3 and observations
    {updated 3, total 3, available 2, observedGeneration = generation} it is
    True, and with available 3 it is False. *)
Theorem progressing_false_iff_rollout_complete :
  (∀ h cr o statusChanged w,
     (progressingUpdate env h cr o statusChanged w =
        Some {| cs_type := OperatorProgressing; cs_status := ConditionFalse;
                cs_msg := "deployment successfully progressed" |}
      ↔ rolloutComplete o) ∧
     (progressingUpdate env h cr o statusChanged w =
        Some {| cs_type := OperatorProgressing; cs_status := ConditionTrue;
                cs_msg := "deployment is progressing" |}
      ↔ ¬ rolloutComplete o)) ∧
  (∀ h cr statusChanged w generation,
     cs_status <$> progressingUpdate env h cr (deployment3 2 generation generation)
                     statusChanged w = Some ConditionTrue ∧
     cs_status <$> progressingUpdate env h cr (deployment3 3 generation generation)
                     statusChanged w = Some ConditionFalse).
Proof.
  split.
  - intros h cr o statusChanged w. rewrite progressingUpdate_eq.
    rewrite <- isDeploymentStatusComplete_spec.
    destruct (isDeploymentStatusComplete o); split; split;
      try done; try (intros Heq; by inversion Heq).
  - intros h cr statusChanged w generation. rewrite !progressingUpdate_eq.
    unfold deployment3. simpl. rewrite Z.leb_refl. done.
Qed.

End DeploymentStatus.

(** ** Storage synchronisation *)

Section SyncStorage.
Import Resource.
Context {S Obj StorageSpec StorageStatus : Type}.
Context {RestConfig CoreClient AppsClient RbacClient ConfigClient : Type}.
Abbreviation Env' :=
  (Env S Obj StorageSpec StorageStatus RestConfig CoreClient AppsClient
       RbacClient ConfigClient).
Context (env : Env').
Implicit Types (g : Generator S RestConfig) (cr : Config StorageSpec StorageStatus).
Implicit Types (w : World S) (driver : Driver S StorageSpec StorageStatus).

Local Ltac list_mem :=
  unfold not; rewrite ?elem_of_cons, ?elem_of_nil;
  intuition (try discriminate; try congruence).

(** What [syncStorage] asks of the driver, and what it returns, by the
    driver's answers. *)
Lemma syncStorage_trace g cr driver w :
  NewDriver env (Spec_Storage cr) (kubeconfig g) (listers g) = Ok driver →
  let changed := StorageChanged driver cr (cluster w) in
  let exists_ := StorageExists driver cr changed.2 in
  syncStorage env g cr w =
    if changed.1 then
      let created := CreateStorage driver cr changed.2 in
      (created.1,
       {| clock := clock w;
          calls := calls w ++ [CallStorageChanged; CallCreateStorage];
          cluster := created.2 |})
    else
      match exists_.1 with
      | (_, Some err) =>
          (Some err,
           {| clock := clock w;
              calls := calls w ++ [CallStorageChanged; CallStorageExists];
              cluster := exists_.2 |})
      | (false, None) =>
          let created := CreateStorage driver cr exists_.2 in
          (created.1,
           {| clock := clock w;
              calls := calls w ++ [CallStorageChanged; CallStorageExists;
                                   CallCreateStorage];
              cluster := created.2 |})
      | (true, None) =>
          (None,
           {| clock := clock w;
              calls := calls w ++ [CallStorageChanged; CallStorageExists];
              cluster := exists_.2 |})
      end.
Proof.
  intros Hdrv. unfold syncStorage. rewrite Hdrv.
  unfold bind, ret, call. simpl.
  destruct (StorageChanged driver cr (cluster w)) as [[|] s1]; simpl.
  - destruct (CreateStorage driver cr s1) as [e s2]; simpl.
    by rewrite <- app_assoc.
  - destruct (StorageExists driver cr s1) as [[[|] [err|]] s2]; simpl;
      rewrite <- ?app_assoc; try done.
    destruct (CreateStorage driver cr s2) as [e s3]; simpl.
    by rewrite <- ?app_assoc.
Qed.

(** C7. With a driver built for the current configuration, [syncStorage]
    invokes [CreateStorage] if and only if [StorageChanged] reports true, or
    [StorageChanged] reports false and [StorageExists] reports false without
    an error. When [StorageChanged] is false and [StorageExists] returns an
    error, that error is returned and [CreateStorage] is not invoked; when
    [StorageChanged] is false and the storage exists, the result is nil and
    [CreateStorage] is not invoked. *)
Theorem syncStorage_creates_iff_changed_or_missing g cr driver w :
  NewDriver env (Spec_Storage cr) (kubeconfig g) (listers g) = Ok driver →
  let changed := (StorageChanged driver cr (cluster w)).1 in
  let exists_ :=
    (StorageExists driver cr (StorageChanged driver cr (cluster w)).2).1 in
  ∃ asked,
    calls (syncStorage env g cr w).2 = calls w ++ asked ∧
    (CallCreateStorage ∈ asked ↔
       changed = true ∨ (changed = false ∧ exists_ = (false, None))) ∧
    (∀ b err, changed = false → exists_ = (b, Some err) →
       (syncStorage env g cr w).1 = Some err ∧ CallCreateStorage ∉ asked) ∧
    (changed = false → exists_ = (true, None) →
       (syncStorage env g cr w).1 = None ∧ CallCreateStorage ∉ asked).
Proof.
  intros Hdrv changed exists_. rewrite (syncStorage_trace _ _ _ _ Hdrv).
  subst changed exists_. simpl.
  destruct (StorageChanged driver cr (cluster w)) as [[|] s1]; simpl.
  - eexists; split; [reflexivity|]. split; [|split].
    + split; [auto | intros _; list_mem].
    + intros b err H; discriminate H.
    + intros H; discriminate H.
  - destruct (StorageExists driver cr s1) as [[[|] [err|]] s2]; simpl;
      (eexists; split; [reflexivity|]); (split; [|split]).
    + split; [list_mem | intros [H|[_ H]]; discriminate H].
    + intros b e _ H. inversion H; subst. split; [done | list_mem].
    + intros _ H; discriminate H.
    + split; [list_mem | intros [H|[_ H]]; discriminate H].
    + intros b e _ H; discriminate H.
    + intros _ _. split; [done | list_mem].
    + split; [list_mem | intros [H|[_ H]]; discriminate H].
    + intros b e _ H. inversion H; subst. split; [done | list_mem].
    + intros _ H; discriminate H.
    + split; [intros _; right; done | list_mem].
    + intros b e _ H; discriminate H.
    + intros _ H; discriminate H.
Qed.

End SyncStorage.

(** ** Route garbage collection *)

Section RouteGC.
Import Resource.
Context {S Obj StorageSpec StorageStatus : Type}.
Context {RestConfig CoreClient AppsClient RbacClient ConfigClient : Type}.
Abbreviation Env'' :=
  (Env S Obj StorageSpec StorageStatus RestConfig CoreClient AppsClient
       RbacClient ConfigClient).
Context (env : Env'').
Implicit Types (g : Generator S RestConfig) (cr : Config StorageSpec StorageStatus).
Implicit Types (w : World S) (routeClient : RouteClient S) (route : Route).
Implicit Types (gens : list (Mutator S Obj)).

(** The deletion that the loop issues for a route. *)
Abbreviation deletion g :=
  (λ route : Route,
     CallRouteDelete (Deployment_Namespace (params g)) (route_Name route)
                     foregroundNow).

Lemma fold_left_snoc {A B} (f : B → A) (l : list B) (acc : list A) :
  fold_left (λ acc x, acc ++ [f x]) l acc = acc ++ map f l.
Proof.
  revert acc. induction l as [|x l IH]; intros acc; simpl.
  - by rewrite app_nil_r.
  - by rewrite IH, <- app_assoc.
Qed.

(** The route mutators of a pass: the default route's, if enabled, then one
    per declared route. *)
Lemma listRoutes_eq g routeClient cr :
  listRoutes env g routeClient cr =
  (if Spec_DefaultRoute cr
   then [newGeneratorRoute env (listers g) routeClient (params g) cr
           {| Name := DefaultRouteName env; Hostname := ""; SecretName := "" |}]
   else []) ++
  map (newGeneratorRoute env (listers g) routeClient (params g) cr) (Spec_Routes cr).
Proof. unfold listRoutes. by rewrite fold_left_snoc. Qed.

Lemma knownNames_fold gens (acc : gset string) x :
  x ∈ fold_left (λ known gen, {[GetName gen]} ∪ known) gens acc ↔
  x ∈ acc ∨ ∃ gen, gen ∈ gens ∧ GetName gen = x.
Proof.
  revert acc. induction gens as [|gen gens IH]; intros acc; simpl.
  - split; [auto|]. intros [H|(gen & H & _)]; [done|]. by apply elem_of_nil in H.
  - rewrite IH, elem_of_union, elem_of_singleton. split.
    + intros [[->|H]|(gen' & H & Hn)]; [right|by left|right].
      * exists gen. split; [apply elem_of_cons; by left | done].
      * exists gen'. split; [apply elem_of_cons; by right | done].
    + intros [H|(gen' & H & Hn)]; [left; by right|].
      apply elem_of_cons in H as [->|H]; [left; left; done|].
      right. by exists gen'.
Qed.

Lemma elem_of_knownNames gens x :
  x ∈ knownNames gens ↔ ∃ gen, gen ∈ gens ∧ GetName gen = x.
Proof.
  unfold knownNames. rewrite knownNames_fold. split; [|auto].
  intros [H|H]; [|done]. by apply not_elem_of_empty in H.
Qed.

(** The loop deletes the obsolete routes in list order and stops at the
    first deletion that fails. *)
Lemma removeObsoleteRoutes_loop_trace g routeClient cr routes w :
  let r := removeObsoleteRoutes_loop env g routeClient
             (knownNames (listRoutes env g routeClient cr)) foregroundNow routes w in
  let wanted := List.filter (obsolete env g routeClient cr) routes in
  (∃ n, calls r.2 = calls w ++ map (deletion g) (take n wanted)) ∧
  (r.1 = None → calls r.2 = calls w ++ map (deletion g) wanted).
Proof.
  cbv zeta. revert w. induction routes as [|route routes IH]; intros w;
    cbn [removeObsoleteRoutes_loop List.filter].
  - split; [exists 0%nat|intros _]; simpl; by rewrite app_nil_r.
  - destruct (RouteIsCreatedByOperator env route) eqn:Hop; cbn [negb].
    + destruct (decide (route_Name route ∈ _)) as [Hin|Hout].
      * assert (obsolete env g routeClient cr route = false) as ->.
        { unfold obsolete. rewrite Hop. apply bool_decide_eq_false_2. tauto. }
        apply IH.
      * assert (obsolete env g routeClient cr route = true) as ->.
        { unfold obsolete. rewrite Hop. by apply bool_decide_eq_true_2. }
        unfold bind, call, ret. cbn [fst snd].
        destruct (Routes_Delete routeClient _ _ _ (cluster w)) as [[e|] s'] eqn:Hdel;
          cbn [fst snd calls].
        -- split; [exists 1%nat; cbn [take map]; by rewrite take_0
                  | intros H; discriminate H].
        -- match goal with
           | |- context [removeObsoleteRoutes_loop _ _ _ _ _ _ ?w'] =>
               destruct (IH w') as [[n Hn] Hall]
           end.
           cbn [calls] in Hn, Hall. split.
           ++ exists (Datatypes.S n). rewrite Hn. cbn [take map].
              by rewrite <- app_assoc.
           ++ intros Hnil. rewrite (Hall Hnil). cbn [map]. by rewrite <- app_assoc.
    + assert (obsolete env g routeClient cr route = false) as ->.
      { unfold obsolete. by rewrite Hop. }
      apply IH.
Qed.

Lemma obsolete_true g routeClient cr route :
  obsolete env g routeClient cr route = true ↔
  RouteIsCreatedByOperator env route = true ∧
  route_Name route ∉ knownNames (listRoutes env g routeClient cr).
Proof. unfold obsolete. by rewrite andb_true_iff, bool_decide_eq_true. Qed.

(** C6. One pass of [removeObsoleteRoutes] over the listed routes. The
    desired names are those of the route mutators of this pass: the default
    route's when it is enabled, and one per declared route. Every deletion
    the pass issues is for a listed route that the operator created and
    whose name is not desired, in the deployment namespace, with a zero
    grace period and foreground propagation; so a desired name and a name
    that only routes not created by the operator carry are never deleted.
    A pass that returns nil has deleted exactly the obsolete routes, each
    once, in list order. *)
Theorem removeObsoleteRoutes_deletes_exactly_obsolete g cr routeClient routes w s1 :
  routeset_NewForConfig env (kubeconfig g) = Ok routeClient →
  Routes_List (listers g) (cluster w) = (Ok routes, s1) →
  let r := removeObsoleteRoutes env g cr w in
  let desired :=
    (if Spec_DefaultRoute cr
     then [{| Name := DefaultRouteName env; Hostname := ""; SecretName := "" |}]
     else []) ++ Spec_Routes cr in
  let wanted := List.filter (obsolete env g routeClient cr) routes in
  (∀ route,
     obsolete env g routeClient cr route = true ↔
     RouteIsCreatedByOperator env route = true ∧
     ∀ d, d ∈ desired →
          GetName (newGeneratorRoute env (listers g) routeClient (params g) cr d)
            ≠ route_Name route) ∧
  (∃ n, calls r.2 = calls w ++ CallRoutesList :: map (deletion g) (take n wanted)) ∧
  (∀ namespace name opts,
     CallRouteDelete namespace name opts ∈ drop (length (calls w)) (calls r.2) →
     namespace = Deployment_Namespace (params g) ∧ opts = foregroundNow ∧
     ∃ route, route ∈ routes ∧ route_Name route = name ∧
              obsolete env g routeClient cr route = true) ∧
  (r.1 = None →
   calls r.2 = calls w ++ CallRoutesList :: map (deletion g) wanted).
Proof.
  intros Hclient Hlist r desired wanted.
  assert (Hr : r = removeObsoleteRoutes_loop env g routeClient
                 (knownNames (listRoutes env g routeClient cr)) foregroundNow routes
                 {| clock := clock w; calls := calls w ++ [CallRoutesList];
                    cluster := s1 |}).
  { subst r. unfold removeObsoleteRoutes. rewrite Hclient.
    unfold bind, call. simpl. by rewrite Hlist. }
  pose proof (removeObsoleteRoutes_loop_trace g routeClient cr routes
                {| clock := clock w; calls := calls w ++ [CallRoutesList];
                   cluster := s1 |}) as [[n Hn] Hall].
  simpl in Hn, Hall. rewrite <- Hr in Hn, Hall.
  rewrite <- app_assoc in Hn, Hall. simpl in Hn, Hall.
  split; [|split; [|split]].
  - intros route. rewrite obsolete_true, elem_of_knownNames, listRoutes_eq.
    split; intros [Hop Hname]; (split; [done|]).
    + intros d Hd Heq. apply Hname.
      eexists. split; [|exact Heq].
      subst desired. apply elem_of_app in Hd as [Hd|Hd]; apply elem_of_app.
      * left. destruct (Spec_DefaultRoute cr); [|by apply elem_of_nil in Hd].
        apply list_elem_of_singleton in Hd as ->. by apply list_elem_of_singleton.
      * right. by apply list_elem_of_fmap_2.
    + intros (gen & Hgen & Heq).
      apply elem_of_app in Hgen as [Hgen|Hgen].
      * destruct (Spec_DefaultRoute cr) eqn:Hdef; [|by apply elem_of_nil in Hgen].
        apply list_elem_of_singleton in Hgen as ->.
        eapply Hname; [|exact Heq].
        subst desired. apply elem_of_app. left. by apply list_elem_of_singleton.
      * apply list_elem_of_fmap in Hgen as (d & -> & Hd).
        eapply Hname; [|exact Heq].
        subst desired. apply elem_of_app. by right.
  - by exists n.
  - intros namespace name opts. rewrite Hn, drop_app_length.
    intros Hin. apply elem_of_cons in Hin as [Hin|Hin]; [discriminate Hin|].
    apply list_elem_of_fmap in Hin as (route & Heq & Hin).
    inversion Heq; subst namespace name opts. split; [done|]. split; [done|].
    assert (Hw : route ∈ wanted).
    { apply list_elem_of_lookup in Hin as [i Hi].
      apply lookup_take_Some in Hi as [Hi _]. by eapply list_elem_of_lookup_2. }
    subst wanted. apply list_elem_of_In, filter_In in Hw as [Hw Hobs].
    exists route. split; [by apply list_elem_of_In|]. done.
  - exact Hall.
Qed.

End RouteGC.

(** ** Storage teardown *)

Section Teardown.
Import Resource.
Context {S Obj StorageSpec StorageStatus : Type}.
Context {RestConfig CoreClient AppsClient RbacClient ConfigClient : Type}.
Abbreviation Env3 :=
  (Env S Obj StorageSpec StorageStatus RestConfig CoreClient AppsClient
       RbacClient ConfigClient).
Context (env : Env3).
Implicit Types (g : Generator S RestConfig) (cr : Config StorageSpec StorageStatus).
Implicit Types (w : World S) (driver : Driver S StorageSpec StorageStatus).
Implicit Types (l : removeLocals).

Local Ltac clock_arith := rewrite ?Nat2Z.inj_succ; change (Z.of_nat 0) with 0; nia.

Lemma pollTimes_lookup t interval n k :
  (k < n)%nat → Wait.pollTimes t interval n !! k = Some (t + Z.of_nat k * interval).
Proof.
  revert t k. induction n as [|n IH]; intros t k Hk; [lia|].
  destruct k as [|k]; simpl.
  - f_equal. lia.
  - rewrite IH by lia. f_equal. lia.
Qed.

Lemma pollTimes_length t interval n : length (Wait.pollTimes t interval n) = n.
Proof. revert t. induction n as [|n IH]; intros t; simpl; [done|]. by rewrite IH. Qed.

(** One run of the poll closure. *)
Lemma removeStorageCondition_eq driver cr l w :
  removeStorageCondition driver cr l w =
  let r := RemoveStorage driver cr (cluster w) in
  ((if retry_later r.1 then (false, None)
    else match r.1.2 with Some e => (true, Some e) | None => (true, None) end,
    {| retriable := r.1.1; derr := r.1.2 |}),
   {| clock := clock w;
      calls := calls w ++ [CallRemoveStorage (clock w)];
      cluster := r.2 |}).
Proof.
  unfold removeStorageCondition, bind, call, ret. simpl.
  destruct (RemoveStorage driver cr (cluster w)) as [[[|] [e|]] s']; reflexivity.
Qed.

(** The timed part of the poll loop, when some attempt within the ticks
    does not ask for another one. *)
Lemma WaitFor_remove_stops driver cr interval ticks n l w :
  (n < ticks)%nat →
  (∀ k, (k < n)%nat →
        retry_later (removeStorageResponse driver cr k (cluster w)) = true) →
  retry_later (removeStorageResponse driver cr n (cluster w)) = false →
  Wait.WaitFor ticks interval (removeStorageCondition driver cr) l w =
  (((removeStorageResponse driver cr n (cluster w)).2,
    {| retriable := (removeStorageResponse driver cr n (cluster w)).1;
       derr := (removeStorageResponse driver cr n (cluster w)).2 |}),
   {| clock := clock w + Z.of_nat (Datatypes.S n) * interval;
      calls := calls w ++
               map CallRemoveStorage
                   (Wait.pollTimes (clock w + interval) interval (Datatypes.S n));
      cluster := removeStorageCluster driver cr (Datatypes.S n) (cluster w) |}).
Proof.
  revert n l w. induction ticks as [|ticks IH]; intros n l w Hn Hretry Hstop; [lia|].
  cbn [Wait.WaitFor]. unfold bind at 1 2. cbn [Wait.sleep World_Clocked].
  rewrite removeStorageCondition_eq. cbv zeta. cbn [cluster clock calls fst snd].
  destruct n as [|n].
  - cbn [removeStorageResponse] in Hstop. rewrite Hstop.
    cbn [removeStorageResponse removeStorageCluster Wait.pollTimes map].
    destruct (RemoveStorage driver cr (cluster w)) as [[b [e|]] s'];
      cbn [fst snd]; unfold ret; do 2 f_equal; clock_arith.
  - pose proof (Hretry 0%nat (Nat.lt_0_succ _)) as H0. cbn [removeStorageResponse] in H0.
    rewrite H0.
    rewrite (IH n); cbn [cluster clock calls].
    + cbn [removeStorageResponse removeStorageCluster Wait.pollTimes map].
      rewrite <- app_assoc. do 2 f_equal; try done; clock_arith.
    + lia.
    + intros k Hk. apply (Hretry (Datatypes.S k)). lia.
    + exact Hstop.
Qed.

(** The timed part of the poll loop, when every attempt asks for another
    one: the ticks run out. *)
Lemma WaitFor_remove_times_out driver cr interval ticks l w :
  (∀ k, (k < ticks)%nat →
        retry_later (removeStorageResponse driver cr k (cluster w)) = true) →
  Wait.WaitFor ticks interval (removeStorageCondition driver cr) l w =
  ((Some ErrWaitTimeout,
    match ticks with
    | O => l
    | Datatypes.S n =>
        {| retriable := (removeStorageResponse driver cr n (cluster w)).1;
           derr := (removeStorageResponse driver cr n (cluster w)).2 |}
    end),
   {| clock := clock w + Z.of_nat ticks * interval;
      calls := calls w ++
               map CallRemoveStorage (Wait.pollTimes (clock w + interval) interval ticks);
      cluster := removeStorageCluster driver cr ticks (cluster w) |}).
Proof.
  revert l w. induction ticks as [|ticks IH]; intros l w Hretry.
  - cbn. unfold ret. destruct w; cbn. rewrite app_nil_r. repeat f_equal. lia.
  - cbn [Wait.WaitFor]. unfold bind at 1 2. cbn [Wait.sleep World_Clocked].
    rewrite removeStorageCondition_eq. cbv zeta. cbn [cluster clock calls fst snd].
    pose proof (Hretry 0%nat (Nat.lt_0_succ _)) as H0. cbn [removeStorageResponse] in H0.
    rewrite H0. rewrite IH; cbn [cluster clock calls].
    + cbn [removeStorageResponse removeStorageCluster Wait.pollTimes map].
      rewrite <- app_assoc.
      destruct ticks; cbn [removeStorageResponse]; do 2 f_equal; try done; clock_arith.
    + intros k Hk. apply (Hretry (Datatypes.S k)). lia.
Qed.

(** The whole poll loop: the attempts are [interval] apart from the start,
    and the loop ends with the first attempt that does not ask for another
    one, as long as that attempt falls within the timeout. *)
Lemma PollImmediate_remove_stops driver cr interval timeout n l w :
  (n ≤ Z.to_nat (timeout / interval))%nat →
  (∀ k, (k < n)%nat →
        retry_later (removeStorageResponse driver cr k (cluster w)) = true) →
  retry_later (removeStorageResponse driver cr n (cluster w)) = false →
  Wait.PollImmediate interval timeout (removeStorageCondition driver cr) l w =
  (((removeStorageResponse driver cr n (cluster w)).2,
    {| retriable := (removeStorageResponse driver cr n (cluster w)).1;
       derr := (removeStorageResponse driver cr n (cluster w)).2 |}),
   {| clock := clock w + Z.of_nat n * interval;
      calls := calls w ++
               map CallRemoveStorage
                   (Wait.pollTimes (clock w) interval (Datatypes.S n));
      cluster := removeStorageCluster driver cr (Datatypes.S n) (cluster w) |}).
Proof.
  intros Hn Hretry Hstop. unfold Wait.PollImmediate, bind at 1.
  rewrite removeStorageCondition_eq. cbv zeta.
  destruct n as [|n].
  - cbn [removeStorageResponse] in Hstop. rewrite Hstop.
    cbn [removeStorageResponse removeStorageCluster Wait.pollTimes map].
    destruct (RemoveStorage driver cr (cluster w)) as [[b [e|]] s'];
      cbn [fst snd]; unfold ret; do 2 f_equal; clock_arith.
  - pose proof (Hretry 0%nat (Nat.lt_0_succ _)) as H0. cbn [removeStorageResponse] in H0.
    rewrite H0.
    rewrite (WaitFor_remove_stops driver cr interval _ n); cbn [cluster clock calls].
    + cbn [removeStorageResponse removeStorageCluster Wait.pollTimes map].
      rewrite <- app_assoc. do 2 f_equal; try done; clock_arith.
    + lia.
    + intros k Hk. apply (Hretry (Datatypes.S k)). lia.
    + exact Hstop.
Qed.

(** The whole poll loop, when every attempt up to the timeout asks for
    another one. *)
Lemma PollImmediate_remove_times_out driver cr interval timeout l w :
  let ticks := Z.to_nat (timeout / interval) in
  (∀ k, (k ≤ ticks)%nat →
        retry_later (removeStorageResponse driver cr k (cluster w)) = true) →
  Wait.PollImmediate interval timeout (removeStorageCondition driver cr) l w =
  ((Some ErrWaitTimeout,
    {| retriable := (removeStorageResponse driver cr ticks (cluster w)).1;
       derr := (removeStorageResponse driver cr ticks (cluster w)).2 |}),
   {| clock := clock w + Z.of_nat ticks * interval;
      calls := calls w ++
               map CallRemoveStorage
                   (Wait.pollTimes (clock w) interval (Datatypes.S ticks));
      cluster := removeStorageCluster driver cr (Datatypes.S ticks) (cluster w) |}).
Proof.
  intros ticks Hretry. unfold Wait.PollImmediate, bind at 1.
  rewrite removeStorageCondition_eq. cbv zeta.
  pose proof (Hretry 0%nat (Nat.le_0_l _)) as H0. cbn [removeStorageResponse] in H0.
  rewrite H0. fold ticks.
  rewrite WaitFor_remove_times_out; cbn [cluster clock calls].
  - cbn [removeStorageResponse removeStorageCluster Wait.pollTimes map].
    rewrite <- app_assoc.
    destruct ticks; cbn [removeStorageResponse]; do 2 f_equal; try done.
  - intros k Hk. apply (Hretry (Datatypes.S k)). lia.
Qed.

(** [%s] of the error that ends the poll loop and of [derr]. *)
Abbreviation teardownFailure err derr :=
  (PlainError ("unable to remove storage: " +:+ Error err +:+ ", " +:+ fmt_s derr)).

(** C3. [Remove], once the owned objects are deleted and the driver is
    built, polls [RemoveStorage] with attempts exactly one second apart,
    starting at once. It polls again only after an answer
    [(retriable = true, err)]: the first other answer within the five
    minutes ends the loop, with nil when the answer carries no error and
    with the error surfaced otherwise. In particular an answer
    [(retriable = false, err)] to the first call ends [Remove] after that
    single call. If the answers stay retriable up to the timeout, [Remove]
    returns a teardown failure after the attempt at five minutes: 301
    attempts in all, never more. *)
Theorem Remove_polls_while_retriable g cr gens driver w w1 :
  list_ env g cr = Ok gens →
  removeObjects foregroundNow gens w = (None, w1) →
  NewDriverFromStatus env (Status_Storage cr) (kubeconfig g) (listers g) = Ok driver →
  let answer k := removeStorageResponse driver cr k (cluster w1) in
  let polls n :=
    map CallRemoveStorage (Wait.pollTimes (clock w1) (1 * Wait.Second) n) in
  let r := Remove env g cr w in
  (∀ n k, (k < n)%nat →
     polls n !! k = Some (CallRemoveStorage (clock w1 + Z.of_nat k * 1000000000))) ∧
  (∀ n, (n ≤ 300)%nat →
     (∀ k, (k < n)%nat → retry_later (answer k) = true) →
     retry_later (answer n) = false →
     calls r.2 = calls w1 ++ polls (Datatypes.S n) ∧
     r.1 = match (answer n).2 with
           | None => None
           | Some e => Some (teardownFailure e (Some e))
           end) ∧
  (∀ e, answer 0%nat = (false, Some e) →
     calls r.2 = calls w1 ++ [CallRemoveStorage (clock w1)] ∧
     r.1 = Some (teardownFailure e (Some e))) ∧
  ((∀ k, (k ≤ 300)%nat → retry_later (answer k) = true) →
     calls r.2 = calls w1 ++ polls 301%nat ∧
     clock r.2 = clock w1 + 5 * Wait.Minute ∧
     r.1 = Some (teardownFailure ErrWaitTimeout (answer 300%nat).2)).
Proof.
  intros Hlist Hdel Hdrv answer polls r.
  assert (Hticks : Z.to_nat (5 * Wait.Minute / (1 * Wait.Second)) = 300%nat)
    by reflexivity.
  assert (Hr : r =
    let x := Wait.PollImmediate (1 * Wait.Second) (5 * Wait.Minute)
               (removeStorageCondition driver cr)
               {| retriable := false; derr := None |} w1 in
    (match x.1.1 with
     | Some err => Some (teardownFailure err (derr x.1.2))
     | None => None
     end, x.2)).
  { subst r. unfold Remove. rewrite Hlist. unfold bind at 1.
    change {| GracePeriodSeconds := Some 0;
              PropagationPolicy := Some DeletePropagationForeground |}
      with foregroundNow.
    rewrite Hdel, Hdrv. unfold bind. cbv zeta.
    destruct (Wait.PollImmediate _ _ _ _ w1) as [[[e|] l] w2]; reflexivity. }
  cbv zeta in Hr.
  assert (Hstop : ∀ n, (n ≤ 300)%nat →
     (∀ k, (k < n)%nat → retry_later (answer k) = true) →
     retry_later (answer n) = false →
     calls r.2 = calls w1 ++ polls (Datatypes.S n) ∧
     r.1 = match (answer n).2 with
           | None => None
           | Some e => Some (teardownFailure e (Some e))
           end).
  { intros n Hn Hretry Hstop. rewrite Hr.
    rewrite (PollImmediate_remove_stops driver cr _ _ n) by (rewrite ?Hticks; done).
    fold (answer n). cbn [fst snd calls].
    destruct (answer n).2; done. }
  split; [|split; [|split]].
  - intros n k Hk. subst polls. cbv beta.
    rewrite list_lookup_fmap, pollTimes_lookup by done. reflexivity.
  - exact Hstop.
  - intros e He.
    destruct (Hstop 0%nat) as [Hc Hres]; [lia | intros k Hk; lia | by rewrite He |].
    rewrite He in Hres. done.
  - intros Hretry. rewrite Hr.
    rewrite PollImmediate_remove_times_out by (rewrite Hticks; exact Hretry).
    rewrite Hticks. cbn [fst snd calls clock derr]. done.
Qed.

End Teardown.

(** ** The storage union of the deployment generators *)

Section OperatorStorage.
Import K8s V1alpha1 GoText Operator.
Context {S : Type}.
Context `{SDK S Project}.
Context (fmt_q : string → string).

Local Ltac storage_cases cr :=
  unfold storageBranches, filesystemBranch, azureBranch, gcsBranch, s3Branch,
    swiftBranch, cloudBranch, storageVariants, populated;
  destruct (Filesystem (Spec_Storage cr)) as [[[[hp|] ed pvc cm]]|],
    (Azure (Spec_Storage cr)), (GCS (Spec_Storage cr)), (S3 (Spec_Storage cr)),
    (Swift (Spec_Storage cr)); cbn.

(** The filesystem branch counts itself and leaves [storageType] alone. *)
Lemma operator_filesystemBranch_keeps_storageType cr l l' :
  filesystemBranch cr l = Ok l' →
  storageType l' = storageType l ∧
  storageConfigured l' = storageConfigured l + populated (Filesystem (Spec_Storage cr)).
Proof.
  unfold filesystemBranch, populated.
  destruct (Filesystem (Spec_Storage cr)) as [[[[hp|] ed pvc cm]]|]; cbn;
    intros Heq; inversion Heq; subst; cbn; split; (done || lia).
Qed.

(** After the branches, the count is the number of populated variants. *)
Lemma operator_storageBranches_count cr p l :
  storageBranches cr p = Ok l →
  storageConfigured l = storageVariants (Spec_Storage cr).
Proof. storage_cases cr; intros Heq; inversion Heq; subst; reflexivity. Qed.

(** The branches fail only on a filesystem variant with a host path. *)
Lemma operator_storageBranches_err cr p err :
  storageBranches cr p = Err err →
  err = PlainError "HostPath is not supported" ∧
  ∃ fs, Filesystem (Spec_Storage cr) = Some fs ∧ is_Some (vs_HostPath (fs_VolumeSource fs)).
Proof.
  storage_cases cr; intros Heq; inversion Heq; subst; (split; [done|]);
    eexists; (split; [reflexivity|]); cbn; eauto.
Qed.

(** With one variant populated, [storageType] is that variant's name, and the
    empty string for the filesystem. *)
Lemma operator_storageBranches_type cr p l :
  storageBranches cr p = Ok l →
  storageVariants (Spec_Storage cr) = 1 →
  (is_Some (Filesystem (Spec_Storage cr)) → storageType l = "") ∧
  (is_Some (Azure (Spec_Storage cr)) → storageType l = "azure") ∧
  (is_Some (GCS (Spec_Storage cr)) → storageType l = "gcs") ∧
  (is_Some (S3 (Spec_Storage cr)) → storageType l = "s3") ∧
  (is_Some (Swift (Spec_Storage cr)) → storageType l = "swift").
Proof.
  storage_cases cr; intros Heq Hone; try discriminate Hone;
    inversion Heq; subst; cbn;
    repeat split; intros [x Hx]; (discriminate Hx || reflexivity).
Qed.

(** What a generated deployment config tells about the run that made it. *)
Lemma GenerateDeploymentConfig_Ok cr p (w w' : SdkWorld S) dc :
  GenerateDeploymentConfig fmt_q cr p w = (Ok dc, w') →
  ∃ l, storageBranches cr p = Ok l ∧ storageConfigured l = 1 ∧
       Annotations (dc_ObjectMeta dc) !! storageTypeOperatorAnnotation =
       Some (storageType l).
Proof.
  unfold GenerateDeploymentConfig.
  destruct (storageBranches cr p) as [l|err]; [|intros Heq; inversion Heq].
  destruct (storageConfigured l =? 1) eqn:Hone; cbn [negb];
    [|intros Heq; inversion Heq].
  unfold bind, ret.
  destruct (generateSecurityContext fmt_q cr (cr_Namespace cr) w) as [[sc|err] w''];
    intros Heq; inversion Heq; subst.
  exists l. split; [done|]. split; [by apply Z.eqb_eq|].
  unfold addOwnerRefToObject, SetOwnerReferences.
  cbn [dc_ObjectMeta Annotations]. apply lookup_singleton_eq.
Qed.

(** A configuration with no or several variants: the generator fails before
    it asks the cluster anything. *)
Lemma GenerateDeploymentConfig_wrong_count cr p (w : SdkWorld S) :
  storageVariants (Spec_Storage cr) ≠ 1 →
  ∃ err,
    GenerateDeploymentConfig fmt_q cr p w = (Err err, w) ∧
    (err = errMoreThanOneBackend ∨
     err = PlainError "HostPath is not supported" ∧
     ∃ fs, Filesystem (Spec_Storage cr) = Some fs ∧
           is_Some (vs_HostPath (fs_VolumeSource fs))).
Proof.
  intros Hne. unfold GenerateDeploymentConfig.
  destruct (storageBranches cr p) as [l|err] eqn:Hb.
  - apply operator_storageBranches_count in Hb.
    destruct (storageConfigured l =? 1) eqn:Hone.
    + apply Z.eqb_eq in Hone. congruence.
    + cbn. eexists. split; [reflexivity|]. by left.
  - apply operator_storageBranches_err in Hb as [-> Hfs].
    eexists. split; [reflexivity|]. by right.
Qed.

(** With exactly one variant, the count check is passed: no path of the
    generator then yields its error. *)
Lemma GenerateDeploymentConfig_one_variant cr p (w : SdkWorld S) :
  storageVariants (Spec_Storage cr) = 1 →
  (GenerateDeploymentConfig fmt_q cr p w).1 ≠ Err errMoreThanOneBackend.
Proof.
  intros Hone. unfold GenerateDeploymentConfig.
  destruct (storageBranches cr p) as [l|err] eqn:Hb.
  - apply operator_storageBranches_count in Hb. rewrite Hb, Hone. cbn.
    unfold bind, ret.
    destruct (generateSecurityContext fmt_q cr (cr_Namespace cr) w) as [[sc|err] w''];
      cbn; intros Heq; inversion Heq.
  - apply operator_storageBranches_err in Hb as [-> _]. cbn.
    intros Heq; inversion Heq.
Qed.

End OperatorStorage.

Section GenerateStorage.
Import K8s V1alpha1 GoText Generate.
Context {S : Type}.
Context `{SDK S Project, SDK S Secret, SDK S ConfigMap}.
Context `{Checksum Secret, Checksum ConfigMap}.
Context (fmt_q : string → string) (fmt_duration : Z → string).
Context (secretAnnotation configMapAnnotation : string).

Local Ltac storage_cases cr :=
  unfold storageBranches, filesystemBranch, azureBranch, gcsBranch, s3Branch,
    swiftBranch, cloudBranch, storageVariants, populated;
  destruct (Filesystem (Spec_Storage cr)) as [[[[hp|] ed pvc cm]]|],
    (Azure (Spec_Storage cr)), (GCS (Spec_Storage cr)), (S3 (Spec_Storage cr)),
    (Swift (Spec_Storage cr)); cbn.

Lemma generate_filesystemBranch_keeps_storageType cr l l' :
  filesystemBranch cr l = Ok l' →
  storageType l' = storageType l ∧
  storageConfigured l' = storageConfigured l + populated (Filesystem (Spec_Storage cr)).
Proof.
  unfold filesystemBranch, populated.
  destruct (Filesystem (Spec_Storage cr)) as [[[[hp|] ed pvc cm]]|]; cbn;
    intros Heq; inversion Heq; subst; cbn; split; (done || lia).
Qed.

Lemma generate_storageBranches_count cr p l :
  storageBranches cr p = Ok l →
  storageConfigured l = storageVariants (Spec_Storage cr).
Proof. storage_cases cr; intros Heq; inversion Heq; subst; reflexivity. Qed.

Lemma generate_storageBranches_err cr p err :
  storageBranches cr p = Err err →
  err = PlainError "HostPath is not supported" ∧
  ∃ fs, Filesystem (Spec_Storage cr) = Some fs ∧ is_Some (vs_HostPath (fs_VolumeSource fs)).
Proof.
  storage_cases cr; intros Heq; inversion Heq; subst; (split; [done|]);
    eexists; (split; [reflexivity|]); cbn; eauto.
Qed.

Lemma generate_storageBranches_type cr p l :
  storageBranches cr p = Ok l →
  storageVariants (Spec_Storage cr) = 1 →
  (is_Some (Filesystem (Spec_Storage cr)) → storageType l = "") ∧
  (is_Some (Azure (Spec_Storage cr)) → storageType l = "azure") ∧
  (is_Some (GCS (Spec_Storage cr)) → storageType l = "gcs") ∧
  (is_Some (S3 (Spec_Storage cr)) → storageType l = "s3") ∧
  (is_Some (Swift (Spec_Storage cr)) → storageType l = "swift").
Proof.
  storage_cases cr; intros Heq Hone; try discriminate Hone;
    inversion Heq; subst; cbn;
    repeat split; intros [x Hx]; (discriminate Hx || reflexivity).
Qed.

Lemma requestsBranch_err kind KIND limits env err :
  requestsBranch fmt_duration kind KIND limits env = Err err →
  ∃ rest, err = PlainError (String "R" rest).
Proof.
  unfold requestsBranch.
  destruct (negb _ || negb _); [|intros Heq; inversion Heq].
  destruct (MaxRunning limits <? 0); [intros Heq; inversion Heq; cbn; eauto|].
  destruct (MaxInQueue limits <? 0); intros Heq; inversion Heq; cbn; eauto.
Qed.

Lemma app_cons_neq {A} (l : list A) x y : l ++ x :: y ≠ l.
Proof.
  intros Heq. apply (f_equal length) in Heq.
  rewrite length_app in Heq. simpl in Heq. lia.
Qed.

(** Every read of the cluster leaves its mark in the call record. *)
Lemma generateSecurityContext_calls cr namespace (w : SdkWorld S) :
  ∃ c, sdk_calls (generateSecurityContext fmt_q cr namespace w).2 = sdk_calls w ++ [c].
Proof.
  unfold generateSecurityContext, bind, Get, sdkCall, ret.
  destruct (sdk_Get _ (sdk_cluster w)) as [[ns|err] s']; cbn; [|eauto].
  destruct (Annotations (prj_ObjectMeta ns) !! SupplementalGroupsAnnotation)
    as [sgrange|]; [|eauto].
  destruct (String.index 0 "/" sgrange) as [idx|]; [|eauto].
  destruct (ParseInt10_64 _); eauto.
Qed.

Lemma getSecretChecksum_calls p (w : SdkWorld S) :
  ∃ c, sdk_calls (getSecretChecksum p w).2 = sdk_calls w ++ [c].
Proof.
  unfold getSecretChecksum, bind, Get, sdkCall, ret.
  destruct (sdk_Get _ (sdk_cluster w)) as [[o|err] s']; cbn; eauto.
Qed.

Lemma getConfigMapChecksum_calls p (w : SdkWorld S) :
  ∃ c, sdk_calls (getConfigMapChecksum p w).2 = sdk_calls w ++ [c].
Proof.
  unfold getConfigMapChecksum, bind, Get, sdkCall, ret.
  destruct (sdk_Get _ (sdk_cluster w)) as [[o|err] s']; cbn; eauto.
Qed.

(** What a generated pod template tells about the run that made it. *)
Lemma PodTemplateSpec_Ok cr p (w w' : SdkWorld S) spec annotations :
  PodTemplateSpec_ fmt_q fmt_duration secretAnnotation configMapAnnotation cr p w =
    (Returns (Ok (spec, annotations)), w') →
  ∃ l, storageBranches cr p = Ok l ∧ storageConfigured l = 1 ∧
       annotations !! StorageTypeOperatorAnnotation = Some (storageType l).
Proof.
  unfold PodTemplateSpec_.
  destruct (storageBranches cr p) as [l|err]; [|intros Heq; inversion Heq].
  destruct (storageConfigured l =? 1) eqn:Hone; cbn [negb];
    [|intros Heq; inversion Heq].
  destruct (requestsBranch _ "Read" _ _ _) as [env1|err]; [|intros Heq; inversion Heq].
  destruct (requestsBranch _ "Write" _ _ _) as [env2|err]; [|intros Heq; inversion Heq].
  unfold bind at 1.
  destruct (generateSecurityContext fmt_q cr (Deployment_Namespace p) w)
    as [[sc|err] w1]; [|intros Heq; inversion Heq].
  destruct (Spec_TLS cr) as [tls|] eqn:Htls; [|intros Heq; inversion Heq].
  destruct (if tls then _ else _) as [[vols mnts] env3].
  unfold bind at 1.
  destruct (getSecretChecksum p w1) as [[sum1|err] w2]; [|intros Heq; inversion Heq].
  unfold bind at 1.
  destruct (getConfigMapChecksum p w2) as [[sum2|err] w3]; [|intros Heq; inversion Heq].
  unfold generateLivenessProbeConfig, generateReadinessProbeConfig, generateProbeConfig.
  rewrite Htls. unfold ret. intros Heq. inversion Heq; subst.
  exists l. split; [done|]. split; [by apply Z.eqb_eq|].
  apply lookup_insert_eq.
Qed.

Lemma PodTemplateSpec_wrong_count cr p (w : SdkWorld S) :
  storageVariants (Spec_Storage cr) ≠ 1 →
  ∃ err,
    PodTemplateSpec_ fmt_q fmt_duration secretAnnotation configMapAnnotation cr p w =
      (Returns (Err err), w) ∧
    (err = errMoreThanOneBackend ∨
     err = PlainError "HostPath is not supported" ∧
     ∃ fs, Filesystem (Spec_Storage cr) = Some fs ∧
           is_Some (vs_HostPath (fs_VolumeSource fs))).
Proof.
  intros Hne. unfold PodTemplateSpec_.
  destruct (storageBranches cr p) as [l|err] eqn:Hb.
  - apply generate_storageBranches_count in Hb.
    destruct (storageConfigured l =? 1) eqn:Hone.
    + apply Z.eqb_eq in Hone. congruence.
    + cbn. eexists. split; [reflexivity|]. by left.
  - apply generate_storageBranches_err in Hb as [-> Hfs].
    eexists. split; [reflexivity|]. by right.
Qed.

(** With exactly one variant the count check is passed. The pod template
    generator hands on the errors of its reads of the secret and of the
    config map as they are, so only such a read, never the check, can then
    be the origin of an error with the check's text. *)
Lemma PodTemplateSpec_one_variant cr p (w w' : SdkWorld S) :
  storageVariants (Spec_Storage cr) = 1 →
  PodTemplateSpec_ fmt_q fmt_duration secretAnnotation configMapAnnotation cr p w =
    (Returns (Err errMoreThanOneBackend), w') →
  sdk_calls w' ≠ sdk_calls w.
Proof.
  intros Hone. unfold PodTemplateSpec_.
  destruct (storageBranches cr p) as [l|err] eqn:Hb.
  2:{ apply generate_storageBranches_err in Hb as [-> _].
      intros Heq; inversion Heq. }
  apply generate_storageBranches_count in Hb. rewrite Hb, Hone. cbn [Z.eqb Pos.eqb negb].
  destruct (requestsBranch _ "Read" _ _ _) as [env1|err] eqn:Hr.
  2:{ apply requestsBranch_err in Hr as [rest ->]. intros Heq; inversion Heq. }
  destruct (requestsBranch _ "Write" _ _ _) as [env2|err] eqn:Hw.
  2:{ apply requestsBranch_err in Hw as [rest ->]. intros Heq; inversion Heq. }
  unfold bind at 1.
  destruct (generateSecurityContext_calls cr (Deployment_Namespace p) w) as [c1 Hc1].
  destruct (generateSecurityContext fmt_q cr (Deployment_Namespace p) w)
    as [[sc|err] w1]; [|intros Heq; inversion Heq].
  cbn [snd] in Hc1.
  destruct (Spec_TLS cr) as [tls|] eqn:Htls; [|intros Heq; inversion Heq].
  destruct (if tls then _ else _) as [[vols mnts] env3].
  unfold bind at 1.
  destruct (getSecretChecksum_calls p w1) as [c2 Hc2].
  destruct (getSecretChecksum p w1) as [[sum1|err] w2]; cbn [snd] in Hc2.
  2:{ unfold ret. intros Heq; inversion Heq; subst.
      rewrite Hc2, Hc1, <- app_assoc. apply app_cons_neq. }
  unfold bind at 1.
  destruct (getConfigMapChecksum_calls p w2) as [c3 Hc3].
  destruct (getConfigMapChecksum p w2) as [[sum2|err] w3]; cbn [snd] in Hc3.
  2:{ unfold ret. intros Heq; inversion Heq; subst.
      rewrite Hc3, Hc2, Hc1, <- !app_assoc. apply app_cons_neq. }
  unfold generateLivenessProbeConfig, generateReadinessProbeConfig, generateProbeConfig.
  rewrite Htls. unfold ret. intros Heq. inversion Heq.
Qed.

End GenerateStorage.

Section StorageClaims.
Import K8s V1alpha1 GoText.
Context {S : Type}.
Context `{SDK S Project, SDK S Generate.Secret, SDK S Generate.ConfigMap}.
Context `{Checksum Generate.Secret, Checksum Generate.ConfigMap}.
Context (fmt_q : string → string) (fmt_duration : Z → string).
Context (secretAnnotation configMapAnnotation : string).

Abbreviation hostPathError := (PlainError "HostPath is not supported").

(** C2. A configuration in which the number of populated storage variants
    is not one: both deployment generators fail, without asking the cluster
    anything and without producing an object, with the error of the
    backend count check, or with the host-path error when the filesystem
    variant names a host path. With exactly one variant populated, the
    count check passes: [GenerateDeploymentConfig] never returns its error,
    and the pod template generator can return an error of that text only
    as the error that a read of the cluster handed it. *)
Theorem storage_backend_count_checked cr p (w : SdkWorld S) :
  (storageVariants (Spec_Storage cr) ≠ 1 →
   (∃ err, Operator.GenerateDeploymentConfig fmt_q cr p w = (Err err, w) ∧
           (err = Operator.errMoreThanOneBackend ∨ err = hostPathError)) ∧
   (∃ err, Generate.PodTemplateSpec_ fmt_q fmt_duration secretAnnotation
             configMapAnnotation cr p w = (Returns (Err err), w) ∧
           (err = Generate.errMoreThanOneBackend ∨ err = hostPathError))) ∧
  (storageVariants (Spec_Storage cr) = 1 →
   (Operator.GenerateDeploymentConfig fmt_q cr p w).1
     ≠ Err Operator.errMoreThanOneBackend ∧
   (∀ l, Operator.storageBranches cr p = Ok l → Operator.storageConfigured l = 1) ∧
   (∀ l, Generate.storageBranches cr p = Ok l → Generate.storageConfigured l = 1) ∧
   (∀ w', Generate.PodTemplateSpec_ fmt_q fmt_duration secretAnnotation
            configMapAnnotation cr p w = (Returns (Err Generate.errMoreThanOneBackend), w') →
          sdk_calls w' ≠ sdk_calls w)).
Proof.
  split.
  - intros Hne. split.
    + destruct (GenerateDeploymentConfig_wrong_count fmt_q cr p w Hne)
        as (err & Heq & [->|[-> _]]); eauto.
    + destruct (PodTemplateSpec_wrong_count fmt_q fmt_duration secretAnnotation
                  configMapAnnotation cr p w Hne)
        as (err & Heq & [->|[-> _]]); eauto.
  - intros Hone. split; [|split; [|split]].
    + by apply GenerateDeploymentConfig_one_variant.
    + intros l Hl. apply operator_storageBranches_count in Hl. congruence.
    + intros l Hl. apply generate_storageBranches_count in Hl. congruence.
    + intros w'. by apply PodTemplateSpec_one_variant.
Qed.

(** C10. The storage-type annotation of what the generators produce, for a
    configuration with one storage variant: the empty string when the
    variant is the filesystem, and "azure", "gcs", "s3" or "swift" when it
    is that cloud variant. The filesystem branch adds one to the count of
    configured backends and leaves the storage type as it was. *)
Theorem storagetype_annotation_names_cloud_backend cr p (w : SdkWorld S) :
  let s := Spec_Storage cr in
  let named (annotation : option string) :=
    (is_Some (Filesystem s) → annotation = Some "") ∧
    (is_Some (Azure s) → annotation = Some "azure") ∧
    (is_Some (GCS s) → annotation = Some "gcs") ∧
    (is_Some (S3 s) → annotation = Some "s3") ∧
    (is_Some (Swift s) → annotation = Some "swift") in
  (∀ dc w',
     Operator.GenerateDeploymentConfig fmt_q cr p w = (Ok dc, w') →
     storageVariants s = 1 ∧
     named (Annotations (dc_ObjectMeta dc) !! Operator.storageTypeOperatorAnnotation)) ∧
  (∀ spec annotations w',
     Generate.PodTemplateSpec_ fmt_q fmt_duration secretAnnotation
       configMapAnnotation cr p w = (Returns (Ok (spec, annotations)), w') →
     storageVariants s = 1 ∧
     named (annotations !! Generate.StorageTypeOperatorAnnotation)) ∧
  (∀ l l', Operator.filesystemBranch cr l = Ok l' →
     Operator.storageType l' = Operator.storageType l ∧
     Operator.storageConfigured l' =
       Operator.storageConfigured l + populated (Filesystem s)) ∧
  (∀ l l', Generate.filesystemBranch cr l = Ok l' →
     Generate.storageType l' = Generate.storageType l ∧
     Generate.storageConfigured l' =
       Generate.storageConfigured l + populated (Filesystem s)).
Proof.
  intros s named. split; [|split; [|split]].
  - intros dc w' Hgen.
    apply GenerateDeploymentConfig_Ok in Hgen as (l & Hl & Hone & ->).
    pose proof (operator_storageBranches_count _ _ _ Hl) as Hc.
    assert (Hv : storageVariants s = 1) by (subst s; congruence).
    split; [done|].
    destruct (operator_storageBranches_type _ _ _ Hl Hv) as (?&?&?&?&?).
    subst named. cbv beta. repeat split; intros Hs; f_equal; auto.
  - intros spec annotations w' Hgen.
    apply PodTemplateSpec_Ok in Hgen as (l & Hl & Hone & ->).
    pose proof (generate_storageBranches_count _ _ _ Hl) as Hc.
    assert (Hv : storageVariants s = 1) by (subst s; congruence).
    split; [done|].
    destruct (generate_storageBranches_type _ _ _ Hl Hv) as (?&?&?&?&?).
    subst named. cbv beta. repeat split; intros Hs; f_equal; auto.
  - apply operator_filesystemBranch_keeps_storageType.
  - apply generate_filesystemBranch_keeps_storageType.
Qed.

End StorageClaims.

(** ** The apply step *)

(** One attempt that ends without a conflict ends the retry loop. *)
Lemma RetryOnConflict_first_attempt {W} (fn : M W (option error)) (steps : nat)
    (w0 w1 : W) (err : option error) :
  fn w0 = (err, w1) →
  (∀ e, err = Some e → IsConflict e = false) →
  Retry.RetryOnConflict (Datatypes.S steps) fn w0 = (err, w1).
Proof.
  intros Hfn Hnc. unfold Retry.RetryOnConflict. cbn [Retry.RetryOnConflict_loop].
  unfold bind. rewrite Hfn. destruct err as [e|]; [|reflexivity].
  by rewrite (Hnc e eq_refl).
Qed.

Section ApplyStep.
Import K8s Operator.
Context {S : Type}.
Context `{SDK S Object, SDK S Service}.
Context `{Checksum Object, Checksum Service}.
Context (fmt_gvk : TypeMeta → string) (fmt_GoSyntax : Object → string).

Implicit Types (w : SdkWorld S) (tmpl : Template).

(** The fast path of [ApplyTemplate]: the current object carries the
    digest of the template, and the step ends after its read. *)
Lemma ApplyTemplate_fast_path tmpl dgst current currentMeta s1 w modified :
  checksum (Template_Object tmpl) = Ok dgst →
  sdk_Get (Template_Object tmpl) (sdk_cluster w) = (Ok current, s1) →
  Accessor current = Ok currentMeta →
  Annotations currentMeta !! checksumOperatorAnnotation = Some dgst →
  ApplyTemplate fmt_gvk fmt_GoSyntax tmpl (w, modified) =
  (None,
   ({| sdk_calls := sdk_calls w ++ [SdkGet (sdk_key (Template_Object tmpl))];
       sdk_cluster := s1 |}, modified)).
Proof.
  intros Hsum Hget Hacc Hann. unfold ApplyTemplate. rewrite Hsum.
  apply RetryOnConflict_first_attempt; [|intros e He; discriminate He].
  unfold applyTemplateOnce, bind, liftL, Get, sdkCall, ret. cbn [fst snd].
  rewrite Hget, Hacc, Hann, String.eqb_refl. reflexivity.
Qed.

(** The fast path of [ApplyService]. *)
Lemma ApplyService_fast_path expect dgst current s1 w modified :
  checksum expect = Ok dgst →
  (∀ spec, sdk_Get {| svc_TypeMeta := svc_TypeMeta expect;
                      svc_ObjectMeta := svc_ObjectMeta expect;
                      svc_Spec := spec |} (sdk_cluster w) = (Ok current, s1)) →
  Annotations (svc_ObjectMeta current) !! checksumOperatorAnnotation = Some dgst →
  ∃ key,
    ApplyService (w, (expect, modified)) =
    (None,
     ({| sdk_calls := sdk_calls w ++ [SdkGet key]; sdk_cluster := s1 |},
      (expect, modified))).
Proof.
  intros Hsum Hget Hann. eexists. unfold ApplyService, bind at 1, getL.
  cbn [fst snd]. rewrite Hsum.
  apply RetryOnConflict_first_attempt; [|intros e He; discriminate He].
  unfold applyServiceOnce, bind, liftL, getL, Get, sdkCall, ret. cbn [fst snd].
  rewrite Hget, Hann, String.eqb_refl. reflexivity.
Qed.

(** [ApplyTemplate] on a template whose object the cluster does not have:
    the object is created, and the caller sees no error. *)
Lemma ApplyTemplate_creates tmpl dgst e s1 s2 w modified :
  checksum (Template_Object tmpl) = Ok dgst →
  sdk_Get (Template_Object tmpl) (sdk_cluster w) = (Err e, s1) →
  IsNotFound e = true →
  sdk_Create (Template_Object tmpl) s1 = (None, s2) →
  ApplyTemplate fmt_gvk fmt_GoSyntax tmpl (w, modified) =
  (None,
   ({| sdk_calls := sdk_calls w ++ [SdkGet (sdk_key (Template_Object tmpl));
                                    SdkCreate (sdk_key (Template_Object tmpl))];
       sdk_cluster := s2 |}, true)).
Proof.
  intros Hsum Hget Hnf Hcreate. unfold ApplyTemplate. rewrite Hsum.
  apply RetryOnConflict_first_attempt; [|intros e' He; discriminate He].
  unfold applyTemplateOnce, bind, liftL, putL, Get, Create, sdkCall, ret.
  cbn [fst snd]. rewrite Hget, Hnf. cbn [negb fst snd sdk_cluster sdk_calls].
  rewrite Hcreate. cbn. by rewrite <- app_assoc.
Qed.

(** Any other error of the read ends [ApplyTemplate] at once. *)
Lemma ApplyTemplate_get_fails tmpl dgst e s1 w modified :
  checksum (Template_Object tmpl) = Ok dgst →
  sdk_Get (Template_Object tmpl) (sdk_cluster w) = (Err e, s1) →
  IsNotFound e = false →
  ApplyTemplate fmt_gvk fmt_GoSyntax tmpl (w, modified) =
  (Some (PlainError ("failed to get " +:+ templateName fmt_gvk fmt_GoSyntax tmpl +:+
                     ": " +:+ Error e)),
   ({| sdk_calls := sdk_calls w ++ [SdkGet (sdk_key (Template_Object tmpl))];
       sdk_cluster := s1 |}, modified)).
Proof.
  intros Hsum Hget Hnf. unfold ApplyTemplate. rewrite Hsum.
  apply RetryOnConflict_first_attempt;
    [|intros e' He; inversion He; reflexivity].
  unfold applyTemplateOnce, bind, liftL, Get, sdkCall, ret.
  cbn [fst snd]. rewrite Hget, Hnf. reflexivity.
Qed.

End ApplyStep.

Section ApplyObject.
Import Resource.
Context {S Obj : Type}.
Implicit Types (gen : Mutator S Obj) (w : World S).

(** [Generator.Apply]'s step on a mutator whose object the cluster does not
    have. *)
Lemma applyObject_creates gen e n s1 s2 w :
  Get gen (cluster w) = (Err e, s1) →
  IsNotFound e = true →
  Create gen s1 = (Ok n, s2) →
  Retry.RetryOnConflict Retry.DefaultBackoffSteps (applyObject gen) w =
  (None,
   {| clock := clock w;
      calls := calls w ++ [CallGet (mName gen); CallCreate (mName gen)];
      cluster := s2 |}).
Proof.
  intros Hget Hnf Hcreate.
  apply RetryOnConflict_first_attempt; [|intros e' He; discriminate He].
  unfold applyObject, bind, call, ret. rewrite Hget, Hnf.
  cbn [negb cluster calls clock]. rewrite Hcreate. by rewrite <- app_assoc.
Qed.

Lemma applyObject_get_fails gen e s1 w :
  Get gen (cluster w) = (Err e, s1) →
  IsNotFound e = false →
  Retry.RetryOnConflict Retry.DefaultBackoffSteps (applyObject gen) w =
  (Some (PlainError ("failed to get object " +:+ mName gen +:+ ": " +:+ Error e)),
   {| clock := clock w;
      calls := calls w ++ [CallGet (mName gen)];
      cluster := s1 |}).
Proof.
  intros Hget Hnf.
  apply RetryOnConflict_first_attempt; [|intros e' He; inversion He; reflexivity].
  unfold applyObject, bind, call, ret. by rewrite Hget, Hnf.
Qed.

End ApplyObject.

Section NotFoundClaim.
Import K8s.
Context {S Obj C : Type}.
Context `{SDK C Object, Checksum Object}.
Context (fmt_gvk : TypeMeta → string) (fmt_GoSyntax : Object → string).

(** C9. A not-found answer to the read of an apply step is no error to the
    caller: the step calls [Create] with the desired object, and when that
    succeeds the step returns nil, in [Generator.Apply] as in
    [ApplyTemplate]; nothing else is asked of the cluster. Any other error
    of the read ends the step with that error in its message, without a
    [Create] or an [Update], and [Generator.Apply]'s loop does not go on to
    the next mutator. *)
Theorem not_found_creates_other_errors_abort :
  (∀ (gen : Resource.Mutator S Obj) w e n s1 s2,
     Resource.Get gen (Resource.cluster w) = (Err e, s1) →
     IsNotFound e = true →
     Resource.Create gen s1 = (Ok n, s2) →
     Retry.RetryOnConflict Retry.DefaultBackoffSteps (Resource.applyObject gen) w =
     (None,
      {| Resource.clock := Resource.clock w;
         Resource.calls := Resource.calls w ++
           [Resource.CallGet (Resource.mName gen);
            Resource.CallCreate (Resource.mName gen)];
         Resource.cluster := s2 |})) ∧
  (∀ (gen : Resource.Mutator S Obj) rest w e s1,
     Resource.Get gen (Resource.cluster w) = (Err e, s1) →
     IsNotFound e = false →
     Resource.applyObjects (gen :: rest) w =
     (Some (PlainError ("unable to apply objects: failed to get object " +:+
                        Resource.mName gen +:+ ": " +:+ Error e)),
      {| Resource.clock := Resource.clock w;
         Resource.calls := Resource.calls w ++ [Resource.CallGet (Resource.mName gen)];
         Resource.cluster := s1 |})) ∧
  (∀ tmpl dgst (w : SdkWorld C) modified e s1 s2,
     checksum (Operator.Template_Object tmpl) = Ok dgst →
     sdk_Get (Operator.Template_Object tmpl) (sdk_cluster w) = (Err e, s1) →
     IsNotFound e = true →
     sdk_Create (Operator.Template_Object tmpl) s1 = (None, s2) →
     Operator.ApplyTemplate fmt_gvk fmt_GoSyntax tmpl (w, modified) =
     (None,
      ({| sdk_calls := sdk_calls w ++
            [SdkGet (sdk_key (Operator.Template_Object tmpl));
             SdkCreate (sdk_key (Operator.Template_Object tmpl))];
          sdk_cluster := s2 |}, true))) ∧
  (∀ tmpl dgst (w : SdkWorld C) modified e s1,
     checksum (Operator.Template_Object tmpl) = Ok dgst →
     sdk_Get (Operator.Template_Object tmpl) (sdk_cluster w) = (Err e, s1) →
     IsNotFound e = false →
     Operator.ApplyTemplate fmt_gvk fmt_GoSyntax tmpl (w, modified) =
     (Some (PlainError ("failed to get " +:+
                        Operator.templateName fmt_gvk fmt_GoSyntax tmpl +:+
                        ": " +:+ Error e)),
      ({| sdk_calls := sdk_calls w ++
            [SdkGet (sdk_key (Operator.Template_Object tmpl))];
          sdk_cluster := s1 |}, modified))).
Proof.
  split; [|split; [|split]].
  - intros. by eapply applyObject_creates.
  - intros gen rest w e s1 Hget Hnf. cbn [Resource.applyObjects]. unfold bind.
    by rewrite (applyObject_get_fails gen e s1 w Hget Hnf).
  - intros. by eapply ApplyTemplate_creates.
  - intros. by eapply ApplyTemplate_get_fails.
Qed.

End NotFoundClaim.

(** ** Consecutive passes over an unchanged configuration *)

Section Idempotence.
Import K8s MemCluster.

Abbreviation accountKey := "ServiceAccount openshift-image-registry/registry".
Abbreviation serviceKey := "Service openshift-image-registry/image-registry".

(** C4. Three consecutive passes over one unchanged template on a cluster
    that starts without the object. The first pass creates the object as
    the template has it, without the checksum annotation. So the second
    pass, finding no annotation to compare with, writes the object once
    more, and only the third pass takes the fast path and writes nothing.
    [ApplyTemplate] and [ApplyService] behave alike. *)
Theorem second_pass_after_create_writes_again :
  let first := applyServiceAccount emptyMem in
  let second := applyServiceAccount first.2 in
  let third := applyServiceAccount second.2 in
  let first' := applyRegistryService emptyMem in
  let second' := applyRegistryService first'.2 in
  let third' := applyRegistryService second'.2 in
  first.1 = (None, [SdkGet accountKey; SdkCreate accountKey], true) ∧
  second.1 = (None, [SdkGet accountKey; SdkUpdate accountKey], true) ∧
  third.1 = (None, [SdkGet accountKey], false) ∧
  first'.1 = (None, [SdkGet serviceKey; SdkCreate serviceKey], true) ∧
  second'.1 = (None, [SdkGet serviceKey; SdkUpdate serviceKey], true) ∧
  third'.1 = (None, [SdkGet serviceKey], false).
Proof. vm_compute. repeat split. Qed.

End Idempotence.

(** ** The properties at work on the example clusters *)

Section GeneratorRuns.
Import K8s V1alpha1 MemCluster.

(** No storage variant: both generators refuse. One variant: the count
    check lets the configuration through. *)
Lemma storage_backend_count_checked_example :
  (∃ err,
     Operator.GenerateDeploymentConfig quote (registry noStorage) parameters
       (freshWorld registryCluster) = (Err err, freshWorld registryCluster) ∧
     (err = Operator.errMoreThanOneBackend ∨ err = PlainError "HostPath is not supported")) ∧
  (Operator.GenerateDeploymentConfig quote (registry onlyS3) parameters
     (freshWorld registryCluster)).1 ≠ Err Operator.errMoreThanOneBackend.
Proof.
  split.
  - apply (proj1 (storage_backend_count_checked quote seconds "secret" "configmap"
                    (registry noStorage) parameters (freshWorld registryCluster))).
    intros Hone. discriminate Hone.
  - apply (proj2 (storage_backend_count_checked quote seconds "secret" "configmap"
                    (registry onlyS3) parameters (freshWorld registryCluster))).
    reflexivity.
Defined.

(** The filesystem as the only backend: the annotation is the empty
    string; S3 as the only backend: the pod template is annotated "s3". *)
Lemma storagetype_annotation_example :
  match (Operator.GenerateDeploymentConfig quote (registry onlyFilesystem) parameters
           (freshWorld registryCluster)).1 with
  | Ok dc =>
      Annotations (dc_ObjectMeta dc) !! Operator.storageTypeOperatorAnnotation = Some ""
  | Err _ => False
  end ∧
  match (Generate.PodTemplateSpec_ quote seconds "secret" "configmap"
           (registry onlyS3) parameters (freshWorld registryCluster)).1 with
  | Returns (Ok (_, annotations)) =>
      annotations !! Generate.StorageTypeOperatorAnnotation = Some "s3"
  | _ => False
  end.
Proof.
  split.
  - destruct (Operator.GenerateDeploymentConfig quote (registry onlyFilesystem)
                parameters (freshWorld registryCluster)) as [[dc|e] w'] eqn:E.
    + destruct (storagetype_annotation_names_cloud_backend quote seconds "secret"
                  "configmap" (registry onlyFilesystem) parameters
                  (freshWorld registryCluster)) as (Hdc & _).
      destruct (Hdc dc w' E) as (_ & Hfs & _).
      apply Hfs. eexists. reflexivity.
    + vm_compute in E. discriminate E.
  - destruct (Generate.PodTemplateSpec_ quote seconds "secret" "configmap"
                (registry onlyS3) parameters (freshWorld registryCluster))
      as [[[[spec annotations]|e]|reason] w'] eqn:E.
    + destruct (storagetype_annotation_names_cloud_backend quote seconds "secret"
                  "configmap" (registry onlyS3) parameters
                  (freshWorld registryCluster)) as (_ & Hpt & _).
      destruct (Hpt spec annotations w' E) as (_ & _ & _ & _ & Hs3 & _).
      apply Hs3. eexists. reflexivity.
    + vm_compute in E. discriminate E.
    + vm_compute in E. discriminate E.
Defined.

End GeneratorRuns.

Section ResourceRuns.
Import Resource ResourceExamples.

(** The storage exists and has not changed: nothing is created. *)
Lemma syncStorage_example :
  (syncStorage (env driver) generator config (world0 0)).1 = None ∧
  calls (syncStorage (env driver) generator config (world0 0)).2 =
    [CallStorageChanged; CallStorageExists].
Proof.
  destruct (syncStorage_creates_iff_changed_or_missing (env driver) generator config
              driver (world0 0) eq_refl) as (asked & Hcalls & _ & _ & Hexists).
  split; [|reflexivity].
  apply Hexists; reflexivity.
Defined.

(** Routes a, b, c of the operator, a route d of someone else, and a and c
    declared: one pass deletes b and nothing else. *)
Lemma removeObsoleteRoutes_example :
  calls (removeObsoleteRoutes (env driver) generator config (world0 0)).2 =
    [CallRoutesList;
     CallRouteDelete "openshift-image-registry" "b" foregroundNow].
Proof.
  destruct (removeObsoleteRoutes_deletes_exactly_obsolete (env driver) generator
              config routeClient (liveRoutes (cluster0 0)) (world0 0) (cluster0 0)
              eq_refl eq_refl) as (_ & _ & _ & Hall).
  rewrite Hall by reflexivity. reflexivity.
Defined.

(** A removal that asks twice for a retry succeeds at the third attempt,
    two seconds in; a removal that is refused ends [Remove] at once. *)
Lemma Remove_example :
  (Remove (env driver) generator config (world0 2)).1 = None ∧
  calls (Remove (env driver) generator config (world0 2)).2 =
    deletions ++ [CallRemoveStorage 0; CallRemoveStorage 1000000000;
                  CallRemoveStorage 2000000000] ∧
  (Remove (env deniedDriver) generator config (world0 0)).1 =
    Some (PlainError "unable to remove storage: access denied, access denied") ∧
  calls (Remove (env deniedDriver) generator config (world0 0)).2 =
    deletions ++ [CallRemoveStorage 0].
Proof.
  destruct (Remove_polls_while_retriable (env driver) generator config _ driver
              (world0 2) (worldAfterDeletions 2) eq_refl eq_refl eq_refl)
    as (_ & Hstop & _ & _).
  destruct (Hstop 2%nat) as [Hcalls Hres].
  { lia. }
  { intros [|[|k]] Hk; [reflexivity|reflexivity|lia]. }
  { reflexivity. }
  destruct (Remove_polls_while_retriable (env deniedDriver) generator config _
              deniedDriver (world0 0) (worldAfterDeletions 0) eq_refl eq_refl eq_refl)
    as (_ & _ & Hdenied & _).
  destruct (Hdenied accessDenied eq_refl) as [Hcalls' Hres'].
  split; [exact Hres|]. split; [exact Hcalls|]. split; [exact Hres'|exact Hcalls'].
Defined.

(** A missing object is created without an error; a refused read ends the
    pass at the first mutator. *)
Lemma not_found_example :
  (Retry.RetryOnConflict Retry.DefaultBackoffSteps
     (applyObject (mutator "service")) (world0 0)).1 = None ∧
  (applyObjects [forbiddenMutator "service"; mutator "deployment"] (world0 0)).1 =
    Some (PlainError
      "unable to apply objects: failed to get object service: access denied") ∧
  (MemCluster.applyServiceAccount MemCluster.emptyMem).1.1.1 = None.
Proof.
  destruct (@not_found_creates_other_errors_abort Cluster string MemCluster.Mem
              MemCluster.Mem_objects MemCluster.Object_checksum
              MemCluster.gvk K8s.o_Content)
    as (Hcreate & Habort & Htemplate & _).
  split; [|split].
  - by rewrite (Hcreate (mutator "service") (world0 0) _ _ _ _
                   eq_refl eq_refl eq_refl).
  - by rewrite (Habort (forbiddenMutator "service") [mutator "deployment"] (world0 0)
                   _ _ eq_refl eq_refl).
  - unfold MemCluster.applyServiceAccount.
    by rewrite (Htemplate MemCluster.serviceAccount _
                   (MemCluster.freshWorld MemCluster.emptyMem) false _ _ _
                   eq_refl eq_refl eq_refl eq_refl).
Defined.

End ResourceRuns.

(** ** Deployment status, on the quiet cluster *)

Section ProgressingExample.
Import Handler HandlerExamples Events EventsExamples.

(** C5, as stated, fails: an observed generation ahead of the current one is
    a mismatch of the fourth value, and Progressing is False all the same. *)
Lemma progressing_false_with_generation_mismatch :
  progressingUpdate quiet handler availableSince100 (deployment3 3 4 5) false start =
    Some {| cs_type := OperatorProgressing; cs_status := ConditionFalse;
            cs_msg := "deployment successfully progressed" |} ∧
  ¬ allFourEqual (deployment3 3 4 5).
Proof.
  split; [reflexivity|]. simpl. intros (_ & _ & _ & Hgen). discriminate Hgen.
Qed.

End ProgressingExample.

(** ** The early returns of the event handler *)

Section EarlyReturn.
Import Handler Events Dispatch.
Context {S Template Driver ConfigState : Type}.
Context (env : @Env S Template Driver ConfigState).

(** [NewHandler] changes nothing in the cluster, and all it may add to the
    record of effects is the line that [logrus.Fatalf] writes. *)
Lemma NewHandler_effects namespace (w : @World S) :
  cluster (NewHandler env namespace w).2 = cluster w ∧
  ∃ lines,
    effects (NewHandler env namespace w).2 = effects w ++ lines ∧
    ∀ e, e ∈ lines → ∃ message, e = Logged "fatal" message.
Proof.
  unfold NewHandler, func, pbind, lift, logrus, exit_, pret, return_then, return_.
  destruct (GetWatchNamespace env (cluster w)) as [operatorNamespace|err]; cbn.
  - destruct (GetOperatorName env (cluster w)) as [operatorName|err]; cbn.
    + split; [done|]. exists []. rewrite app_nil_r. split; [done|].
      intros e He. by apply elem_of_nil in He.
    + split; [done|]. eexists. split; [reflexivity|].
      intros e He. apply list_elem_of_singleton in He as ->. eauto.
  - split; [done|]. eexists. split; [reflexivity|].
    intros e He. apply list_elem_of_singleton in He as ->. eauto.
Qed.

(** C8. [Handle] returns nil at its first statement, for every handler,
    context and event: nothing of the dispatch, of the reconciliation or of
    the status update that follows is run, and the world is as it was.
    [NewHandler], once the watch namespace and the operator name are found,
    returns the handler it has built from its parameters without a call of
    [Bootstrap] or of the status handler's [Create]; in no case does it
    make such a call. *)
Theorem handler_returns_before_its_logic :
  (∀ (h : @Handler S Template) ctx event (w : @World S),
     Handle env h ctx event w = (Returned None, w)) ∧
  (∀ namespace (w : @World S) operatorNamespace operatorName,
     GetWatchNamespace env (cluster w) = Ok operatorNamespace →
     GetOperatorName env (cluster w) = Ok operatorName →
     NewHandler env namespace w =
     (Returned (Ok {| params :=
                        {| Deployment_Namespace := namespace;
                           Deployment_Labels := {[ "docker-registry" := "default" ]};
                           Pod_ServiceAccount := "registry";
                           Container_Port := 5000;
                           Healthz_Route := "/healthz";
                           Healthz_TimeoutSeconds := 5;
                           Service_Name := "image-registry";
                           ImageConfig_Name := "cluster" |};
                      generateDeployment := resource_Deployment env;
                      clusterStatus :=
                        NewStatusHandler env operatorName operatorNamespace |}),
      w)) ∧
  (∀ namespace (w : @World S) function arguments,
     Called function arguments ∈ effects (NewHandler env namespace w).2 →
     Called function arguments ∈ effects w).
Proof.
  split; [|split].
  - intros h ctx event w. reflexivity.
  - intros namespace w operatorNamespace operatorName Hns Hname.
    unfold NewHandler, func, pbind, lift, pret, return_then, return_.
    rewrite Hns, Hname. reflexivity.
  - intros namespace w function arguments Hin.
    destruct (NewHandler_effects namespace w) as (_ & lines & Heq & Hlines).
    rewrite Heq in Hin. apply elem_of_app in Hin as [Hin|Hin]; [done|].
    apply Hlines in Hin as [message Hmsg]. discriminate Hmsg.
Qed.

End EarlyReturn.

Section EarlyReturnExample.
Import Handler Events Dispatch EventsExamples.

(** On the quiet cluster: the handler is built and returned, and the event
    of a deleted registry is answered with nil and no effect. *)
Lemma handler_returns_example :
  (NewHandler quiet "openshift-image-registry" start).1 = Returned (Ok handler) ∧
  Handle quiet handler tt
    {| Event_Object := EvImageRegistry HandlerExamples.availableSince100;
       Event_Deleted := false |} start = (Returned None, start).
Proof.
  destruct (handler_returns_before_its_logic quiet) as (Hhandle & Hnew & _).
  split.
  - by rewrite (Hnew "openshift-image-registry" start _ _ eq_refl eq_refl).
  - apply Hhandle.
Defined.

End EarlyReturnExample.

(** * Further properties of the code *)

(** ** The condition list *)

Section ConditionList.
Import Handler.

Local Abbreviation replaced condition :=
  (λ c : OperatorCondition,
     if String.eqb (Type_ condition) (Type_ c) then condition else c).

Lemma replaced_type condition (cs : list OperatorCondition) :
  Type_ <$> map (replaced condition) cs = Type_ <$> cs.
Proof.
  induction cs as [|c cs IH]; [done|]. cbn. rewrite <- IH. f_equal.
  destruct (String.eqb (Type_ condition) (Type_ c)) eqn:Heq; [|done].
  by apply String.eqb_eq in Heq.
Qed.

Lemma existsb_type condition (cs : list OperatorCondition) :
  existsb (λ c, String.eqb (Type_ condition) (Type_ c)) cs = true ↔
  Type_ condition ∈ Type_ <$> cs.
Proof.
  rewrite existsb_exists, list_elem_of_fmap. split.
  - intros (c & Hin & Heq). apply String.eqb_eq in Heq.
    exists c. split; [done|]. by apply list_elem_of_In.
  - intros (c & Heq & Hin). exists c. split; [by apply list_elem_of_In|].
    by apply String.eqb_eq.
Qed.

(** X1. [updateCondition] replaces on type. On a list with one entry per type
    it keeps that invariant, stores the written condition as the only entry
    of its type, and keeps every entry of another type. *)
Theorem updateCondition_replaces_on_type cr condition :
  NoDup (Type_ <$> Conditions (CRStatus cr)) →
  let stored := Conditions (CRStatus (updateCondition cr condition).1) in
  NoDup (Type_ <$> stored) ∧
  condition ∈ stored ∧
  (∀ c, c ∈ stored → Type_ c = Type_ condition → c = condition) ∧
  (∀ c, Type_ c ≠ Type_ condition → c ∈ stored ↔ c ∈ Conditions (CRStatus cr)).
Proof.
  intros Hnodup stored. subst stored. rewrite updateCondition_conditions.
  set (cs := Conditions (CRStatus cr)) in *.
  assert (Hmap : ∀ c, c ∈ map (replaced condition) cs →
            c = condition ∨ (c ∈ cs ∧ Type_ c ≠ Type_ condition)).
  { intros c Hc. apply list_elem_of_fmap in Hc as (c0 & -> & Hc0).
    destruct (String.eqb (Type_ condition) (Type_ c0)) eqn:Heq; [by left|].
    right. split; [done|]. apply String.eqb_neq in Heq. congruence. }
  destruct (existsb _ cs) eqn:Hex.
  - rewrite app_nil_r. split; [by rewrite replaced_type|].
    split; [|split].
    + apply existsb_exists in Hex as (c & Hin & Heq).
      apply list_elem_of_fmap. exists c. rewrite Heq.
      split; [done|]. by apply list_elem_of_In.
    + intros c Hc Ht. destruct (Hmap c Hc) as [|[_ Hne]]; [done|]. done.
    + intros c Hne. split.
      * intros Hc. destruct (Hmap c Hc) as [->|[Hc0 _]]; [done|done].
      * intros Hc. apply list_elem_of_fmap. exists c. split; [|done].
        destruct (String.eqb (Type_ condition) (Type_ c)) eqn:Heq; [|done].
        apply String.eqb_eq in Heq. congruence.
  - assert (Hfresh : Type_ condition ∉ Type_ <$> cs).
    { intros Hin. apply existsb_type in Hin. congruence. }
    split; [|split; [|split]].
    + rewrite fmap_app, replaced_type. apply NoDup_app. split; [done|].
      split; [|apply NoDup_singleton].
      intros t Ht Ht'. apply list_elem_of_singleton in Ht'. by subst t.
    + apply elem_of_app. right. by apply list_elem_of_singleton.
    + intros c Hc Ht. apply elem_of_app in Hc as [Hc|Hc].
      * destruct (Hmap c Hc) as [|[_ Hne]]; done.
      * by apply list_elem_of_singleton in Hc.
    + intros c Hne. rewrite elem_of_app, list_elem_of_singleton. split.
      * intros [Hc| ->]; [|done]. destruct (Hmap c Hc) as [->|[Hc0 _]]; done.
      * intros Hc. left. apply list_elem_of_fmap. exists c. split; [|done].
        destruct (String.eqb (Type_ condition) (Type_ c)) eqn:Heq; [|done].
        apply String.eqb_eq in Heq. congruence.
Qed.

(** X2. [updateCondition] reports a modification exactly when the type was
    absent or a stored entry of the type had another status value; a new
    reason or message alone is stored but not reported. *)
Theorem updateCondition_reports_status_changes cr condition :
  (updateCondition cr condition).2 = true ↔
  Type_ condition ∉ Type_ <$> Conditions (CRStatus cr) ∨
  ∃ c, c ∈ Conditions (CRStatus cr) ∧ Type_ c = Type_ condition ∧
       Status c ≠ Status condition.
Proof.
  rewrite updateCondition_modified, orb_true_iff, negb_true_iff.
  rewrite <- existsb_type, existsb_exists. split.
  - intros [Hex|(c & Hin & Hc)]; [left; congruence|right].
    apply andb_true_iff in Hc as [Ht Hs].
    apply String.eqb_eq in Ht. apply negb_true_iff, String.eqb_neq in Hs.
    exists c. split; [by apply list_elem_of_In|]. split; congruence.
  - intros [Hex|(c & Hin & Ht & Hs)].
    + left. by destruct (existsb _ _).
    + right. exists c. split; [by apply list_elem_of_In|].
      apply andb_true_iff. split; [apply String.eqb_eq; congruence|].
      apply negb_true_iff, String.eqb_neq. congruence.
Qed.

Lemma setConditions_twice cr cs cs' :
  setConditions (setConditions cr cs) cs' = setConditions cr cs'.
Proof. reflexivity. Qed.

(** X3. Writing the same condition a second time changes nothing and reports
    nothing. *)
Theorem updateCondition_twice cr condition :
  updateCondition (updateCondition cr condition).1 condition =
  ((updateCondition cr condition).1, false).
Proof.
  assert (Hstored : ∀ cs,
    let cs1 := map (replaced condition) cs ++
               (if existsb (λ c, String.eqb (Type_ condition) (Type_ c)) cs
                then [] else [condition]) in
    existsb (λ c, String.eqb (Type_ condition) (Type_ c)) cs1 = true ∧
    existsb (λ c, String.eqb (Type_ condition) (Type_ c) &&
                  negb (String.eqb (Status condition) (Status c))) cs1 = false ∧
    map (replaced condition) cs1 = cs1).
  { intros cs. cbv zeta. induction cs as [|c cs (IH1 & IH2 & IH3)].
    - cbn. rewrite !String.eqb_refl. done.
    - cbn [map existsb app].
      destruct (String.eqb (Type_ condition) (Type_ c)) eqn:Hc; cbn [orb].
      + rewrite app_nil_r. cbn [map existsb].
        rewrite !String.eqb_refl. cbn [orb andb negb].
        destruct (existsb _ cs) eqn:Hex.
        * rewrite app_nil_r in IH2, IH3. rewrite IH2, IH3. done.
        * clear IH1 IH2 IH3. split; [done|].
          assert (Hcs : ∀ c0, c0 ∈ cs → replaced condition c0 = c0).
          { intros c0 Hin.
            destruct (String.eqb (Type_ condition) (Type_ c0)) eqn:H0; [|done].
            assert (existsb (λ c, String.eqb (Type_ condition) (Type_ c)) cs = true).
            { apply existsb_exists. exists c0. split; [by apply list_elem_of_In|done]. }
            congruence. }
          split.
          -- apply not_true_is_false. intros Hex'.
             apply existsb_exists in Hex' as (c1 & Hin & Hc1).
             apply list_elem_of_In, list_elem_of_fmap in Hin as (c0 & -> & Hin).
             rewrite (Hcs c0 Hin) in Hc1. apply andb_true_iff in Hc1 as [H1 _].
             assert (existsb (λ c, String.eqb (Type_ condition) (Type_ c)) cs = true).
             { apply existsb_exists. exists c0. split; [by apply list_elem_of_In|done]. }
             congruence.
          -- f_equal. rewrite map_map. apply map_ext_in.
             intros c0 Hin. apply list_elem_of_In in Hin.
             by rewrite (Hcs c0 Hin), (Hcs c0 Hin).
      + rewrite Hc. cbn [andb orb]. rewrite IH1, IH2, IH3. done. }
  destruct (Hstored (Conditions (CRStatus cr))) as (H1 & H2 & H3).
  pose proof (updateCondition_conditions cr condition) as Hcs1.
  set (r1 := (updateCondition cr condition).1) in *.
  apply injective_projections.
  - cbn [fst].
    transitivity (setConditions r1
                    (Conditions (CRStatus (updateCondition r1 condition).1)));
      [reflexivity|].
    rewrite updateCondition_conditions, Hcs1, H3, H1. cbn iota. rewrite app_nil_r.
    rewrite <- Hcs1. reflexivity.
  - cbn [snd]. rewrite updateCondition_modified, Hcs1.
    by rewrite H1, H2.
Qed.

End ConditionList.
(** ** The event handler's helpers *)

Section HandlerHelpers.
Import Handler Events Dispatch.
Context {S Template Driver ConfigState : Type}.
Context (env : @Env S Template Driver ConfigState).
Implicit Types (h : @Handler S Template) (w : @World S).

(** X4. The Available condition of the cluster operator follows the available
    replicas of a deployment: True when there is at least one, False
    otherwise and for every object that is no deployment. The Progressing
    update follows it, and these two are all the status updates, whether or
    not the first one failed. *)
Theorem syncDeploymentStatus_reports_availability h cr o statusChanged w :
  let available :=
    match o with
    | ObjDeploymentConfig deploy => 0 < AvailableReplicas (dc_Status deploy)
    | ObjDeployment deploy => 0 < AvailableReplicas (d_Status deploy)
    | ObjOther _ => False
    end in
  ∃ a p,
    statusUpdates
      (drop (length (effects w))
            (effects (syncDeploymentStatus env h cr o statusChanged w).2)) = [a; p] ∧
    cs_type a = OperatorAvailable ∧ cs_type p = OperatorProgressing ∧
    (available →
       cs_status a = ConditionTrue ∧ cs_msg a = "deployment has minimum availability") ∧
    (¬ available → cs_status a = ConditionFalse ∧ cs_msg a = "").
Proof.
  intros available. rewrite syncDeploymentStatus_updates.
  assert (Hav : isDeploymentStatusAvailable o = true ↔ available).
  { subst available. destruct o as [deploy|deploy|kind]; cbn;
      rewrite ?Z.ltb_lt; [done|done|]. split; [discriminate|tauto]. }
  eexists _, _. split; [reflexivity|].
  destruct (isDeploymentStatusAvailable o), (isDeploymentStatusComplete o);
    cbn; (split; [done|]); (split; [done|]); split; intros Ha; try done;
    first [by apply Hav in Ha | exfalso; apply Ha; by apply Hav].
Qed.

(** X5. What [syncDeploymentStatus] leaves in the custom resource: the
    SyncSuccessful condition, True with reason DeploymentProgressed when the
    roll-out is complete and False with reason DeploymentInProgress
    otherwise, stamped with the time at the end of the call; and
    [statusChanged], once true, stays true. The outcome of the updates of
    the cluster operator has no part in it. *)
Theorem syncDeploymentStatus_records_sync_condition h cr o statusChanged w :
  let r := syncDeploymentStatus env h cr o statusChanged w in
  let complete := isDeploymentStatusComplete o in
  let condition :=
    {| Type_ := OperatorStatusTypeSyncSuccessful;
       Status := if complete then ConditionTrue else ConditionFalse;
       LastTransitionTime := Now env (cluster r.2);
       Reason := if complete then "DeploymentProgressed" else "DeploymentInProgress";
       Message := if complete then "deployment successfully progressed"
                  else "deployment is progressing" |} in
  r.1.1 = (updateCondition cr condition).1 ∧
  r.1.2 = statusChanged || (updateCondition cr condition).2.
Proof.
  intros r complete condition. subst r complete condition.
  unfold syncDeploymentStatus.
  destruct (isDeploymentStatusAvailable o), (isDeploymentStatusComplete o);
    unfold bind, clusterStatusUpdate, logrus, readNow, ret; cbn [cluster effects];
    destruct (clusterStatus_Update env _ _ _ _ (cluster w)) as [[e1|] s1];
    cbn [cluster effects];
    destruct (clusterStatus_Update env _ _ _ _ s1) as [[e2|] s2];
    cbn [cluster effects fst snd];
    unfold conditionSyncDeployment;
    repeat match goal with
      | |- context [String.eqb ?a ?b] =>
          let v := eval vm_compute in (String.eqb a b) in
          change (String.eqb a b) with v
      end; cbv iota;
    destruct (updateCondition _ _) as [cr' [|]]; cbn [fst snd];
    rewrite ?orb_true_r, ?orb_false_r; done.
Qed.

(** X6. [getImageRegistryForResource] hands out a custom resource only if the
    object names an ImageRegistry of the operator's API version as its
    controller and the resource read from the cluster is managed; an
    object without a controller is answered with nil without a call. *)
Theorem getImageRegistryForResource_only_managed h (o : K8s.ObjectMeta) w :
  (GetControllerOf o = None →
   getImageRegistryForResource env h o w = (Ok None, w)) ∧
  (∀ cr, (getImageRegistryForResource env h o w).1 = Ok (Some cr) →
     SpecManagementState cr = Managed ∧
     ∃ ref, GetControllerOf o = Some ref ∧
            K8s.or_Kind ref = "ImageRegistry" ∧
            K8s.or_APIVersion ref = SchemeGroupVersion env).
Proof.
  split.
  - intros Hnone. unfold getImageRegistryForResource. by rewrite Hnone.
  - intros cr. unfold getImageRegistryForResource.
    destruct (GetControllerOf o) as [ref|]; [|discriminate].
    destruct (String.eqb (K8s.or_Kind ref) "ImageRegistry") eqn:Hkind;
      cbn [negb orb]; [|discriminate].
    destruct (String.eqb (K8s.or_APIVersion ref) (SchemeGroupVersion env)) eqn:Hver;
      cbn [negb]; [|discriminate].
    apply String.eqb_eq in Hkind, Hver.
    unfold bind, ext, ret.
    destruct (String.eqb (K8s.Namespace o) ""); cbn [cluster effects];
      match goal with
      | |- context [sdk_Get env ?c ?s] => destruct (sdk_Get env c s) as [[cr0|err] s']
      end; cbn [fst snd];
      try (destruct (IsNotFound err); cbn; discriminate);
      destruct (SpecManagementState cr0) eqn:Hstate; cbn; try discriminate;
      intros Heq; inversion Heq; subst; eauto.
Qed.

(** X7. An object whose controller reference does not carry the UID of the
    custom resource is left alone: [reCreateByEvent], and [reDeployByEvent]
    after it, return the resource unchanged, with no generator run and no
    template applied. *)
Theorem events_ignore_objects_of_other_owners h event gen (o : K8s.ObjectMeta) cr w w1 :
  metaObject (Event_Object event) = Some o →
  getImageRegistryForResource env h o w = (Ok (Some cr), w1) →
  IsControlledBy o cr = false →
  reCreateByEvent env h event gen w = (Returned (Some cr, false, None), w1) ∧
  reDeployByEvent env h event gen w = (Returned (Some cr, false, None), w1).
Proof.
  intros Hmeta Hget Hctl.
  assert (Hre : reCreateByEvent env h event gen w = (Returned (Some cr, false, None), w1)).
  { unfold reCreateByEvent, func, pbind, lift, pret, return_.
    rewrite Hmeta, Hget, Hctl. reflexivity. }
  split; [exact Hre|].
  unfold reDeployByEvent, func, pbind, call. rewrite Hre. reflexivity.
Qed.

(** X8. [CreateOrUpdateResources] validates before it generates: when the
    storage driver rejects the configuration, the error is returned after
    the read of the config state alone; no template is generated or
    applied, no route is synchronised and no config state is written. *)
Theorem CreateOrUpdateResources_validates_first h o modified o1 modified1 o2
    state driver err s1 w :
  appendFinalizer env o modified = (o1, modified1) →
  verifyResource env o1 (params h) = (None, o2) →
  GetConfigState env (Deployment_Namespace (params h)) (cluster w) = (Ok state, s1) →
  NewDriver env (Name o2) (Deployment_Namespace (params h)) (SpecStorage o2) = Ok driver →
  ValidateConfiguration env driver state = Some err →
  CreateOrUpdateResources env h o modified w =
  ((Some (PlainError ("bad custom resource: " +:+ Error err)), o2, modified1),
   {| effects := effects w ++
                 [Called "resource.GetConfigState" [Deployment_Namespace (params h)]];
      cluster := s1 |}).
Proof.
  intros Hfin Hver Hstate Hdrv Hval. unfold CreateOrUpdateResources.
  rewrite Hfin, Hver. unfold bind, ext, ret. rewrite Hstate, Hdrv, Hval. reflexivity.
Qed.

(** X9. [CreateOrUpdateResources] applies the templates in order and stops at
    the first one that fails: the calls it has made are those for a prefix
    of the list, the whole list when the result is nil, and the failing
    template is the last one called. *)
Theorem applyAll_applies_in_order templates modified w :
  let r := applyAll env templates modified w in
  let applied tpl := Called "resource.ApplyTemplate" [Template_Name env tpl; "false"] in
  ∃ n,
    effects r.2 = effects w ++ map applied (take n templates) ∧
    (r.1.1 = None → n = length templates) ∧
    (∀ e, r.1.1 = Some e → (0 < n ≤ length templates)%nat ∧
          ∃ e', e = PlainError ("unable to apply objects: " +:+ Error e')).
Proof.
  cbv zeta. revert modified w.
  induction templates as [|tpl templates IH]; intros modified w.
  - exists 0%nat. cbn. rewrite app_nil_r. split; [done|]. split; [done|discriminate].
  - cbn [applyAll]. unfold bind, ext.
    destruct (ApplyTemplate env tpl false modified (cluster w)) as [[[e|] m'] s'];
      cbn [fst snd].
    + exists 1%nat. cbn. rewrite take_0. split; [done|]. split; [discriminate|].
      intros e0 He0. inversion He0; subst. split; [lia|eauto].
    + destruct (IH m' {| effects := effects w ++
                           [Called "resource.ApplyTemplate" [Template_Name env tpl; "false"]];
                         cluster := s' |}) as (n & Heff & Hnil & Herr).
      exists (Datatypes.S n). cbn [effects] in Heff. rewrite Heff. cbn [take map length].
      split; [by rewrite <- app_assoc|]. split.
      * intros Hr. f_equal. by apply Hnil.
      * intros e He. destruct (Herr e He) as [Hn He']. split; [lia|done].
Qed.

End HandlerHelpers.

(** ** One pass of the resource generator *)

Section GeneratorPass.
Import Resource.
Context {S Obj StorageSpec StorageStatus : Type}.
Context {RestConfig CoreClient AppsClient RbacClient ConfigClient : Type}.
Context (env : Env S Obj StorageSpec StorageStatus RestConfig CoreClient AppsClient
                   RbacClient ConfigClient).
Implicit Types (g : Generator S RestConfig) (cr : Config StorageSpec StorageStatus).
Implicit Types (w : World S) (gen : Mutator S Obj) (gens : list (Mutator S Obj)).

(** [w'] continues [w]: the clock has not moved, and the calls made in
    between all satisfy [P]. *)
Local Abbreviation continues P w w' :=
  (clock w' = clock w ∧ ∃ cs, calls w' = calls w ++ cs ∧ Forall P cs).

Local Abbreviation storageCall :=
  (λ c : Call, c = CallStorageChanged ∨ c = CallStorageExists ∨ c = CallCreateStorage).
Local Abbreviation objectCall :=
  (λ c : Call, ∃ name, c = CallGet name ∨ c = CallCreate name ∨ c = CallUpdate name).
Local Abbreviation routeCall g :=
  (λ c : Call, c = CallRoutesList ∨
               ∃ name, c = CallRouteDelete (Deployment_Namespace (params g)) name
                             foregroundNow).

Lemma continues_refl (P : Call → Prop) w : continues P w w.
Proof. split; [done|]. exists []. by rewrite app_nil_r. Qed.

Lemma continues_trans (P : Call → Prop) w1 w2 w3 :
  continues P w1 w2 → continues P w2 w3 → continues P w1 w3.
Proof.
  intros [Hc1 (cs1 & H1 & HP1)] [Hc2 (cs2 & H2 & HP2)]. split; [congruence|].
  exists (cs1 ++ cs2). rewrite H2, H1, <- app_assoc. split; [done|].
  by apply Forall_app.
Qed.

Lemma continues_call {A} (P : Call → Prop) (c : Call) (op : S → A * S) w :
  P c → continues P w (call (λ _, c) op w).2.
Proof.
  intros HP. unfold call. destruct (op (cluster w)) as [a s']. split; [done|].
  exists [c]. split; [done|]. by apply Forall_singleton.
Qed.

Local Ltac continues_by_calls :=
  cbn [fst snd clock calls]; split; [done|]; eexists;
  (split; [rewrite <- ?app_assoc; reflexivity|]); cbn [app];
  repeat match goal with
         | |- Forall _ (_ :: _) => constructor; [eauto 6|]
         | |- Forall _ [] => constructor
         end.

Lemma syncStorage_continues g cr w :
  continues storageCall w (syncStorage env g cr w).2.
Proof.
  destruct (NewDriver env (Spec_Storage cr) (kubeconfig g) (listers g))
    as [driver|err] eqn:Hdrv.
  - rewrite (syncStorage_trace env g cr driver w Hdrv). cbv zeta.
    destruct (StorageChanged driver cr (cluster w)) as [[|] s1]; cbn [fst snd].
    + continues_by_calls.
    + destruct (StorageExists driver cr s1) as [[[|] [e|]] s2]; continues_by_calls.
  - unfold syncStorage. rewrite Hdrv. apply continues_refl.
Qed.

Lemma applyObject_continues gen w :
  continues objectCall w (applyObject gen w).2.
Proof.
  unfold applyObject, bind, call, ret.
  destruct (Get gen (cluster w)) as [[o|err] s1]; cbn [cluster calls clock].
  - destruct (Update gen o s1) as [[[n updated]|err] s2]; [continues_by_calls|].
    destruct (IsConflict err); continues_by_calls.
  - destruct (IsNotFound err); cbn [negb cluster calls clock]; [|continues_by_calls].
    destruct (Create gen s1) as [[n|err'] s2]; continues_by_calls.
Qed.

Lemma RetryOnConflict_continues (P : Call → Prop) (fn : M (World S) (option error))
    steps last w :
  (∀ w, continues P w (fn w).2) →
  continues P w (Retry.RetryOnConflict_loop steps fn last w).2.
Proof.
  intros Hfn. revert last w. induction steps as [|steps IH]; intros last w; cbn.
  - apply continues_refl.
  - unfold bind. pose proof (Hfn w) as H1.
    destruct (fn w) as [[e|] w1]; cbn [snd] in H1; [|exact H1].
    destruct (IsConflict e); [|exact H1].
    eapply continues_trans; [exact H1|apply IH].
Qed.

Lemma applyObjects_continues gens w :
  continues objectCall w (applyObjects gens w).2.
Proof.
  revert w. induction gens as [|gen gens IH]; intros w; cbn [applyObjects].
  - apply continues_refl.
  - unfold bind.
    pose proof (RetryOnConflict_continues objectCall (applyObject gen)
                  Retry.DefaultBackoffSteps None w (applyObject_continues gen)) as H1.
    unfold Retry.RetryOnConflict.
    destruct (Retry.RetryOnConflict_loop _ _ _ w) as [[e|] w1]; cbn [snd] in H1;
      [exact H1|].
    eapply continues_trans; [exact H1|apply IH].
Qed.

Lemma removeObsoleteRoutes_loop_continues g routeClient known routes w :
  continues (routeCall g) w
    (removeObsoleteRoutes_loop env g routeClient known foregroundNow routes w).2.
Proof.
  revert w. induction routes as [|route routes IH]; intros w;
    cbn [removeObsoleteRoutes_loop].
  - apply continues_refl.
  - destruct (negb (RouteIsCreatedByOperator env route)); [apply IH|].
    destruct (decide (route_Name route ∈ known)); [apply IH|].
    unfold bind.
    pose proof (continues_call (routeCall g)
                  (CallRouteDelete (Deployment_Namespace (params g)) (route_Name route)
                     foregroundNow)
                  (Routes_Delete routeClient (Deployment_Namespace (params g))
                     (route_Name route) foregroundNow) w) as H1;
      lapply H1; [clear H1; intros H1|eauto 6].
    destruct (call _ _ w) as [[e|] w1]; cbn [snd] in H1; [exact H1|].
    eapply continues_trans; [exact H1|apply IH].
Qed.

Lemma removeObsoleteRoutes_continues g cr w :
  continues (routeCall g) w (removeObsoleteRoutes env g cr w).2.
Proof.
  unfold removeObsoleteRoutes.
  destruct (routeset_NewForConfig env _) as [routeClient|err]; [|apply continues_refl].
  unfold bind.
  pose proof (continues_call (routeCall g) CallRoutesList (Routes_List (listers g)) w) as H1;
      lapply H1; [clear H1; intros H1|eauto 6].
  destruct (call _ (Routes_List (listers g)) w) as [[routes|err] w1]; cbn [snd] in H1;
    [|exact H1].
  eapply continues_trans; [exact H1|].
  apply removeObsoleteRoutes_loop_continues.
Qed.

(** X10. One pass of [Apply] asks for the storage first, then reads and writes
    the objects of the mutators, then lists and deletes routes, in this
    order and nothing else: it deletes no object of a mutator, removes no
    storage, and does not wait. The route calls are made only after every
    mutator has been applied, and the object calls only after the storage
    is in place. *)
Theorem Apply_storage_then_objects_then_routes g cr w :
  let r := Apply env g cr w in
  clock r.2 = clock w ∧
  ∃ storage objects routes,
    calls r.2 = calls w ++ storage ++ objects ++ routes ∧
    Forall storageCall storage ∧
    Forall objectCall objects ∧
    Forall (routeCall g) routes ∧
    ((syncStorage env g cr w).1 ≠ None → objects = [] ∧ routes = []) ∧
    (∀ gens, list_ env g cr = Ok gens →
       (applyObjects gens (syncStorage env g cr w).2).1 ≠ None → routes = []).
Proof.
  cbv zeta. unfold Apply, bind.
  destruct (syncStorage_continues g cr w) as [Hc1 (storage & Hs & HPs)].
  destruct (syncStorage env g cr w) as [err1 w1]. cbn [fst snd] in *.
  assert (Hstop : ∀ e : option error,
            (err1 ≠ None ∨ ∃ err, list_ env g cr = Err err) →
            clock (e, w1).2 = clock w ∧
            ∃ storage objects routes,
              calls (e, w1).2 = calls w ++ storage ++ objects ++ routes ∧
              Forall storageCall storage ∧ Forall objectCall objects ∧
              Forall (routeCall g) routes ∧
              (err1 ≠ None → objects = [] ∧ routes = []) ∧
              (∀ gens, list_ env g cr = Ok gens →
                 (applyObjects gens w1).1 ≠ None → routes = [])).
  { intros e Hwhy. split; [exact Hc1|]. exists storage, [], [].
    cbn [snd app]. rewrite app_nil_r. do 4 (split; [done|]). done. }
  destruct err1 as [err1|].
  { destruct err1; apply Hstop; by left. }
  destruct (list_ env g cr) as [gens|err2] eqn:Hlist.
  2:{ apply Hstop. right. by exists err2. }
  clear Hstop. unfold ret.
  destruct (applyObjects_continues gens w1) as [Hc2 (objects & Ho & HPo)].
  destruct (applyObjects gens w1) as [err3 w2] eqn:Happly. cbn [fst snd] in *.
  destruct err3 as [err3|].
  { split; [cbn [snd]; congruence|]. exists storage, objects, []. cbn [snd].
    rewrite Ho, Hs, app_nil_r, <- app_assoc. do 4 (split; [done|]).
    split; [by intros Hn|]. done. }
  destruct (removeObsoleteRoutes_continues g cr w2) as [Hc3 (routes & Hr & HPr)].
  destruct (removeObsoleteRoutes env g cr w2) as [err4 w3]. cbn [fst snd] in *.
  assert (clock w3 = clock w ∧
          ∃ storage objects routes,
            calls w3 = calls w ++ storage ++ objects ++ routes ∧
            Forall storageCall storage ∧ Forall objectCall objects ∧
            Forall (routeCall g) routes ∧
            (@None error ≠ None → objects = [] ∧ routes = []) ∧
            (∀ gens0, Ok gens = Ok gens0 →
               (applyObjects gens0 w1).1 ≠ None → routes = [])) as Hend.
  { split; [congruence|]. exists storage, objects, routes.
    rewrite Hr, Ho, Hs, <- !app_assoc. do 4 (split; [done|]).
    split; [by intros Hn|]. intros gens0 Hg. inversion Hg; subst gens0.
    rewrite Happly. by intros Hn. }
  destruct err4; exact Hend.
Qed.

(** X11. The retry of [Apply] is for conflicts of [Update] alone. A conflict
    answered to [Update] makes the step read the object again and update
    once more; when the conflicts persist the step gives up after four
    attempts with the conflict as its error. A refused [Create], be it with
    a conflict, ends the step at once, and so does any other error of
    [Update]. *)
Theorem only_update_conflicts_are_retried gen w :
  (∀ o e s1 s2 o' s3 n updated s4,
     Get gen (cluster w) = (Ok o, s1) →
     Update gen o s1 = (Err e, s2) → IsConflict e = true →
     Get gen s2 = (Ok o', s3) →
     Update gen o' s3 = (Ok (n, updated), s4) →
     Retry.RetryOnConflict Retry.DefaultBackoffSteps (applyObject gen) w =
     (None,
      {| clock := clock w;
         calls := calls w ++ [CallGet (mName gen); CallUpdate (mName gen);
                              CallGet (mName gen); CallUpdate (mName gen)];
         cluster := s4 |})) ∧
  (∀ o e,
     (∀ s, Get gen s = (Ok o, s)) →
     (∀ s, Update gen o s = (Err e, s)) → IsConflict e = true →
     Retry.RetryOnConflict Retry.DefaultBackoffSteps (applyObject gen) w =
     (Some e,
      {| clock := clock w;
         calls := calls w ++
                  concat (replicate 4 [CallGet (mName gen); CallUpdate (mName gen)]);
         cluster := cluster w |})) ∧
  (∀ e e' s1 s2,
     Get gen (cluster w) = (Err e, s1) → IsNotFound e = true →
     Create gen s1 = (Err e', s2) →
     Retry.RetryOnConflict Retry.DefaultBackoffSteps (applyObject gen) w =
     (Some (PlainError ("failed to create object " +:+ mName gen +:+ ": " +:+ Error e')),
      {| clock := clock w;
         calls := calls w ++ [CallGet (mName gen); CallCreate (mName gen)];
         cluster := s2 |})) ∧
  (∀ o e s1 s2,
     Get gen (cluster w) = (Ok o, s1) →
     Update gen o s1 = (Err e, s2) → IsConflict e = false →
     Retry.RetryOnConflict Retry.DefaultBackoffSteps (applyObject gen) w =
     (Some (PlainError ("failed to update object " +:+ mName gen +:+ ": " +:+ Error e)),
      {| clock := clock w;
         calls := calls w ++ [CallGet (mName gen); CallUpdate (mName gen)];
         cluster := s2 |})).
Proof.
  split; [|split; [|split]].
  - intros o e s1 s2 o' s3 n updated s4 Hget Hupd Hc Hget' Hupd'.
    unfold Retry.RetryOnConflict, Retry.DefaultBackoffSteps.
    cbn [Retry.RetryOnConflict_loop]. unfold bind, applyObject, bind, call, ret.
    rewrite Hget. cbn [cluster calls clock]. rewrite Hupd. cbn [cluster calls clock].
    rewrite Hc. cbv beta iota. rewrite Hc. cbn [cluster calls clock].
    rewrite Hget'. cbn [cluster calls clock]. rewrite Hupd'.
    cbn [cluster calls clock]. by rewrite <- !app_assoc.
  - intros o e Hget Hupd Hc.
    assert (Hstep : ∀ w0, applyObject gen w0 =
              (Some e, {| clock := clock w0;
                          calls := calls w0 ++ [CallGet (mName gen); CallUpdate (mName gen)];
                          cluster := cluster w0 |})).
    { intros w0. unfold applyObject, bind, call, ret. rewrite Hget.
      cbn [cluster calls clock]. rewrite Hupd, Hc. cbn [cluster calls clock].
      by rewrite <- app_assoc. }
    unfold Retry.RetryOnConflict, Retry.DefaultBackoffSteps.
    cbn [Retry.RetryOnConflict_loop]. unfold bind, ret.
    rewrite !Hstep, !Hc. cbn [cluster calls clock concat replicate].
    rewrite !Hstep, !Hc. cbn [cluster calls clock concat replicate].
    rewrite !Hstep, !Hc. cbn [cluster calls clock concat replicate].
    rewrite !Hstep, !Hc. cbn [cluster calls clock concat replicate].
    rewrite <- !app_assoc. reflexivity.
  - intros e e' s1 s2 Hget Hnf Hcreate.
    apply RetryOnConflict_first_attempt; [|intros e0 He0; by inversion He0].
    unfold applyObject, bind, call, ret. rewrite Hget, Hnf.
    cbn [negb cluster calls clock]. rewrite Hcreate. by rewrite <- app_assoc.
  - intros o e s1 s2 Hget Hupd Hc.
    apply RetryOnConflict_first_attempt; [|intros e0 He0; by inversion He0].
    unfold applyObject, bind, call, ret. rewrite Hget.
    cbn [cluster calls clock]. rewrite Hupd, Hc. by rewrite <- app_assoc.
Qed.

(** X12. The deletion loop of [Remove] deletes the objects of the owned mutators
    and of no other, in list order; a not-found answer counts as deleted;
    any other error ends the loop, and [Remove] with it, before the storage
    is asked for anything. *)
Theorem Remove_deletes_owned_objects_first g cr gens w :
  list_ env g cr = Ok gens →
  let owned := List.filter Owned gens in
  let deleted := removeObjects foregroundNow gens w in
  ∃ n,
    calls deleted.2 =
      calls w ++ map (λ gen, CallDelete (mName gen) foregroundNow) (take n owned) ∧
    clock deleted.2 = clock w ∧
    (deleted.1 = None → n = length owned) ∧
    (∀ e, deleted.1 = Some e →
       Remove env g cr w = (Some e, deleted.2) ∧
       ∃ gen e', owned !! pred n = Some gen ∧ (0 < n)%nat ∧
                 IsNotFound e' = false ∧
                 e = PlainError ("failed to delete object " +:+ mName gen +:+ ": " +:+
                                 Error e')).
Proof.
  intros Hlist owned deleted.
  assert (Hloop : ∀ w0, let d := removeObjects foregroundNow gens w0 in
    ∃ n,
      calls d.2 =
        calls w0 ++ map (λ gen, CallDelete (mName gen) foregroundNow) (take n owned) ∧
      clock d.2 = clock w0 ∧
      (d.1 = None → n = length owned) ∧
      (∀ e, d.1 = Some e →
         ∃ gen e', owned !! pred n = Some gen ∧ (0 < n)%nat ∧
                   IsNotFound e' = false ∧
                   e = PlainError ("failed to delete object " +:+ mName gen +:+ ": " +:+
                                   Error e'))).
  { subst owned. clear Hlist deleted. cbv zeta.
    induction gens as [|gen gens' IH]; intros w0; cbn [removeObjects List.filter].
    - exists 0%nat. cbn. rewrite app_nil_r. repeat (split; [done|]). discriminate.
    - destruct (Owned gen) eqn:Hown; cbn [negb]; [|apply IH].
      unfold bind, call, ret.
      destruct (Delete gen foregroundNow (cluster w0)) as [[e|] s'] eqn:Hdel;
        cbn [fst snd].
      + destruct (IsNotFound e) eqn:Hnf.
        * match goal with
          | |- context [removeObjects _ _ ?w'] => destruct (IH w') as (n & Hn & Hc & Hnil & He)
          end.
          cbn [calls clock] in Hn, Hc. exists (Datatypes.S n). rewrite Hn.
          cbn [take map length]. rewrite <- app_assoc. split; [done|]. split; [done|].
          split; [intros H; f_equal; by apply Hnil|].
          intros e0 He0. destruct (He e0 He0) as (gen0 & e' & Hlk & Hpos & Hnf' & ->).
          exists gen0, e'. split; [|split; [lia|done]]. cbn [pred].
          destruct n as [|n]; [lia|]. exact Hlk.
        * exists 1%nat. cbn [take map calls clock fst snd]. rewrite take_0.
          split; [done|]. split; [done|]. split; [discriminate|].
          intros e0 He0. inversion He0; subst e0. exists gen, e.
          split; [done|]. split; [lia|]. done.
      + match goal with
        | |- context [removeObjects _ _ ?w'] => destruct (IH w') as (n & Hn & Hc & Hnil & He)
        end.
        cbn [calls clock] in Hn, Hc. exists (Datatypes.S n). rewrite Hn.
        cbn [take map length]. rewrite <- app_assoc. split; [done|]. split; [done|].
        split; [intros H; f_equal; by apply Hnil|].
        intros e0 He0. destruct (He e0 He0) as (gen0 & e' & Hlk & Hpos & Hnf' & ->).
        exists gen0, e'. split; [|split; [lia|done]]. cbn [pred].
        destruct n as [|n]; [lia|]. exact Hlk. }
  destruct (Hloop w) as (n & Hn & Hc & Hnil & He). exists n.
  split; [exact Hn|]. split; [exact Hc|]. split; [exact Hnil|].
  intros e Hde. split; [|by apply He].
  unfold Remove. rewrite Hlist. unfold bind.
  change {| GracePeriodSeconds := Some 0;
            PropagationPolicy := Some DeletePropagationForeground |}
    with foregroundNow.
  subst deleted. destruct (removeObjects foregroundNow gens w) as [d w1].
  cbn [fst snd] in *. by rewrite Hde.
Qed.

(** X13. The mutator of the cluster operator is the last of [list], and it is
    built from all the mutators before it: the ten of the registry's
    objects, then those of the routes, the default route first when it is
    enabled. *)
Theorem list_cluster_operator_last g cr gens :
  list_ env g cr = Ok gens →
  ∃ configClient routeClient before,
    configset_NewForConfig env (kubeconfig g) = Ok configClient ∧
    routeset_NewForConfig env (kubeconfig g) = Ok routeClient ∧
    gens = before ++
           [newGeneratorClusterOperator env (listers g) configClient cr before] ∧
    drop 10 before = listRoutes env g routeClient cr ∧
    length before =
      (10 + (if Spec_DefaultRoute cr then 1 else 0) + length (Spec_Routes cr))%nat.
Proof.
  unfold list_. intros Hlist.
  destruct (coreset_NewForConfig env _) as [coreClient|]; [|discriminate].
  destruct (appsset_NewForConfig env _) as [appsClient|]; [|discriminate].
  destruct (rbacset_NewForConfig env _) as [rbacClient|]; [|discriminate].
  destruct (routeset_NewForConfig env _) as [routeClient|]; [|discriminate].
  destruct (configset_NewForConfig env _) as [configClient|]; [|discriminate].
  destruct (NewDriver env _ _ _) as [driver|]; [|discriminate].
  injection Hlist as <-.
  exists configClient, routeClient,
    ([ newGeneratorClusterRole env (listers g) rbacClient cr;
       newGeneratorClusterRoleBinding env (listers g) rbacClient (params g) cr;
       newGeneratorServiceAccount env (listers g) coreClient (params g) cr;
       newGeneratorServiceCA env (listers g) coreClient (params g);
       newGeneratorCAConfig env (listers g) coreClient (params g) cr;
       newGeneratorSecret env (listers g) coreClient driver (params g) cr;
       newGeneratorImageConfig env (listers g) configClient (params g);
       newGeneratorNodeCADaemonSet env (listers g) appsClient (params g);
       newGeneratorService env (listers g) coreClient (params g) cr;
       newGeneratorDeployment env (listers g) coreClient appsClient driver (params g) cr ]
     ++ listRoutes env g routeClient cr).
  split; [done|]. split; [done|]. split; [reflexivity|]. split; [reflexivity|].
  rewrite length_app. cbn [length]. rewrite listRoutes_eq, length_app, length_map.
  destruct (Spec_DefaultRoute cr); cbn [length]; lia.
Qed.

End GeneratorPass.

(** ** The [modified] flag of the apply step *)

Section ModifiedFlag.
Import K8s Operator.
Context {S : Type}.
Context `{SDK S Object}.
Context `{Checksum Object}.
Context (fmt_gvk : TypeMeta → string) (fmt_GoSyntax : Object → string).

Implicit Types (w : SdkWorld S) (tmpl : Template).

Local Abbreviation wrote w w' :=
  (existsb isWrite (drop (length (sdk_calls w)) (sdk_calls w'))).

(** One attempt of [ApplyTemplate]: either it writes nothing, leaves
    [modified] alone and ends the retry loop, or its last call is a write
    and [modified] tells whether that write succeeded. *)
Lemma applyTemplateOnce_modified tmpl dgst w modified :
  let r := applyTemplateOnce fmt_gvk fmt_GoSyntax tmpl dgst (w, modified) in
  ∃ cs, sdk_calls r.2.1 = sdk_calls w ++ cs ∧
        ((existsb isWrite cs = false ∧ r.2.2 = modified ∧
          ∀ e, r.1 = Some e → IsConflict e = false) ∨
         (existsb isWrite cs = true ∧ r.2.2 = isNil r.1)).
Proof.
  cbv zeta. unfold applyTemplateOnce, bind, liftL, putL, Get, Create, Update, sdkCall, ret.
  cbn [fst snd].
  destruct (sdk_Get (Template_Object tmpl) (sdk_cluster w)) as [[current|err] s1];
    cbn [fst snd sdk_cluster sdk_calls].
  - destruct (Accessor current) as [currentMeta|err]; cbn [fst snd sdk_calls].
    { destruct (match Annotations currentMeta !! checksumOperatorAnnotation with
                | Some curdgst => String.eqb dgst curdgst
                | None => false
                end); cbn [fst snd sdk_calls].
      - eexists. split; [reflexivity|]. left. cbn. split; [done|]. split; [done|].
        discriminate.
      - destruct (Strategy_Apply (Template_Strategy tmpl) current (Template_Object tmpl))
          as [updated|err]; cbn [fst snd sdk_calls].
        + destruct (Accessor updated) as [updatedMeta|err]; cbn [fst snd sdk_calls].
          * match goal with
            | |- context [sdk_Update ?o ?s] => destruct (sdk_Update o s) as [err s2]
            end; cbn [fst snd sdk_calls sdk_cluster].
            eexists. split; [by rewrite <- app_assoc|]. right. done.
          * eexists. split; [reflexivity|]. left. cbn. split; [done|]. split; [done|].
            intros e He. by inversion He.
        + eexists. split; [reflexivity|]. left. cbn. split; [done|]. split; [done|].
          intros e He. by inversion He. }
    eexists. split; [reflexivity|]. left. cbn. split; [done|]. split; [done|].
    intros e He. by inversion He.
  - destruct (IsNotFound err); cbn [negb fst snd sdk_calls sdk_cluster].
    + destruct (sdk_Create (Template_Object tmpl) s1) as [err' s2];
        cbn [fst snd sdk_calls sdk_cluster].
      eexists. split; [by rewrite <- app_assoc|]. right. done.
    + eexists. split; [reflexivity|]. left. cbn. split; [done|]. split; [done|].
      intros e He. by inversion He.
Qed.

Lemma RetryOnConflict_loop_modified tmpl dgst steps last w modified :
  let r := Retry.RetryOnConflict_loop steps
             (applyTemplateOnce fmt_gvk fmt_GoSyntax tmpl dgst) last (w, modified) in
  ∃ cs, sdk_calls r.2.1 = sdk_calls w ++ cs ∧
        (existsb isWrite cs = false → r.2.2 = modified) ∧
        (existsb isWrite cs = true → r.1 ≠ None → r.2.2 = false) ∧
        (r.2.2 = true → modified = true ∨ r.1 = None).
Proof.
  cbv zeta. revert last w modified.
  induction steps as [|steps IH]; intros last w modified;
    cbn [Retry.RetryOnConflict_loop].
  - exists []. cbn. rewrite app_nil_r. split; [done|]. split; [done|].
    split; [discriminate|]. intros ->. by left.
  - unfold bind.
    destruct (applyTemplateOnce_modified tmpl dgst w modified) as (cs1 & Hcs1 & Hcase).
    destruct (applyTemplateOnce fmt_gvk fmt_GoSyntax tmpl dgst (w, modified))
      as [err [w1 m1]]. cbn [fst snd] in *.
    destruct Hcase as [(Hno & -> & Hnc)|(Hwr & ->)].
    + assert (Hend : ∀ r : option error * (SdkWorld S * bool),
                r = (err, (w1, modified)) →
                ∃ cs, sdk_calls r.2.1 = sdk_calls w ++ cs ∧
                      (existsb isWrite cs = false → r.2.2 = modified) ∧
                      (existsb isWrite cs = true → r.1 ≠ None → r.2.2 = false) ∧
                      (r.2.2 = true → modified = true ∨ r.1 = None)).
      { intros r ->. exists cs1. cbn [fst snd]. split; [done|]. split; [done|].
        split; [congruence|]. intros ->. by left. }
      destruct err as [e|]; [|by apply Hend].
      rewrite (Hnc e eq_refl). by apply Hend.
    + destruct err as [e|]; cbn [isNil].
      * destruct (IsConflict e).
        -- destruct (IH (Some e) w1 false) as (cs2 & Hcs2 & _ & _ & Htrue).
           exists (cs1 ++ cs2). rewrite Hcs2, Hcs1, <- app_assoc. split; [done|].
           rewrite existsb_app, Hwr. cbn [orb]. split; [discriminate|].
           split.
           ++ intros _ Herr.
              destruct (Retry.RetryOnConflict_loop _ _ _ _) as [r1 [w2 [|]]];
                cbn [fst snd] in *; [|done].
              destruct (Htrue eq_refl) as [Hf|Hn]; [discriminate Hf|done].
           ++ intros Ht. right. by destruct (Htrue Ht) as [Hf|Hn]; [discriminate Hf|].
        -- exists cs1. cbn [fst snd]. split; [done|]. rewrite Hwr.
           split; [discriminate|]. split; [done|]. discriminate.
      * exists cs1. cbn [fst snd]. split; [done|]. rewrite Hwr.
        split; [discriminate|]. split; [done|]. intros _. by right.
Qed.

(** X14. [modified] after [ApplyTemplate], over all its attempts: a pass that
    writes nothing leaves the flag as it found it; a pass that has written
    and returns an error leaves it false, whatever it was before; and the
    flag is true at the end only if it was true at the start or the pass
    returns nil. *)
Theorem ApplyTemplate_modified_tracks_writes tmpl w modified :
  let r := ApplyTemplate fmt_gvk fmt_GoSyntax tmpl (w, modified) in
  (wrote w r.2.1 = false → r.2.2 = modified) ∧
  (wrote w r.2.1 = true → r.1 ≠ None → r.2.2 = false) ∧
  (r.2.2 = true → modified = true ∨ r.1 = None).
Proof.
  cbv zeta. unfold ApplyTemplate.
  destruct (checksum (Template_Object tmpl)) as [dgst|err].
  - unfold Retry.RetryOnConflict.
    destruct (RetryOnConflict_loop_modified tmpl dgst Retry.DefaultBackoffSteps None
                w modified) as (cs & Hcs & H1 & H2 & H3).
    rewrite Hcs, drop_app_length. done.
  - unfold ret. cbn [fst snd]. rewrite drop_all. cbn.
    split; [done|]. split; [discriminate|]. intros ->. by left.
Qed.

(** X15. When the cluster returns what was written to it, a pass that updates
    the object is followed by a pass that only reads: the object now
    carries the digest of the template. *)
Theorem ApplyTemplate_update_then_fast_path tmpl dgst current currentMeta updated
    updatedMeta s1 s2 s3 w modified :
  let stored :=
    setObjectMeta updated
      (SetAnnotations updatedMeta
         (<[checksumOperatorAnnotation := dgst]> (Annotations updatedMeta))) in
  let key := sdk_key (Template_Object tmpl) in
  checksum (Template_Object tmpl) = Ok dgst →
  sdk_Get (Template_Object tmpl) (sdk_cluster w) = (Ok current, s1) →
  Accessor current = Ok currentMeta →
  Annotations currentMeta !! checksumOperatorAnnotation ≠ Some dgst →
  Strategy_Apply (Template_Strategy tmpl) current (Template_Object tmpl) = Ok updated →
  Accessor updated = Ok updatedMeta →
  sdk_Update stored s1 = (None, s2) →
  sdk_Get (Template_Object tmpl) s2 = (Ok stored, s3) →
  let first := ApplyTemplate fmt_gvk fmt_GoSyntax tmpl (w, modified) in
  first = (None, ({| sdk_calls := sdk_calls w ++ [SdkGet key; SdkUpdate (sdk_key stored)];
                     sdk_cluster := s2 |}, true)) ∧
  ∀ modified',
    ApplyTemplate fmt_gvk fmt_GoSyntax tmpl (first.2.1, modified') =
    (None, ({| sdk_calls := sdk_calls w ++ [SdkGet key; SdkUpdate (sdk_key stored);
                                            SdkGet key];
               sdk_cluster := s3 |}, modified')).
Proof.
  intros stored key Hsum Hget Hacc Hann Happly Hacc' Hupd Hget'.
  assert (Hfirst : ApplyTemplate fmt_gvk fmt_GoSyntax tmpl (w, modified) =
            (None, ({| sdk_calls := sdk_calls w ++ [SdkGet key; SdkUpdate (sdk_key stored)];
                       sdk_cluster := s2 |}, true))).
  { unfold ApplyTemplate. rewrite Hsum.
    apply RetryOnConflict_first_attempt; [|intros e He; discriminate He].
    unfold applyTemplateOnce, bind, liftL, putL, Get, Update, sdkCall, ret.
    cbn [fst snd]. rewrite Hget, Hacc.
    assert (match Annotations currentMeta !! checksumOperatorAnnotation with
            | Some curdgst => String.eqb dgst curdgst
            | None => false
            end = false) as ->.
    { destruct (Annotations currentMeta !! checksumOperatorAnnotation) as [d|]; [|done].
      apply String.eqb_neq. congruence. }
    rewrite Happly, Hacc'. cbn [fst snd sdk_cluster sdk_calls].
    fold stored. rewrite Hupd. cbn [fst snd isNil]. by rewrite <- app_assoc. }
  cbv zeta. rewrite Hfirst. split; [done|]. intros modified'. cbn [fst snd].
  rewrite (ApplyTemplate_fast_path fmt_gvk fmt_GoSyntax tmpl dgst stored
             (SetAnnotations updatedMeta
                (<[checksumOperatorAnnotation := dgst]> (Annotations updatedMeta)))
             s3
             {| sdk_calls := sdk_calls w ++ [SdkGet key; SdkUpdate (sdk_key stored)];
                sdk_cluster := s2 |}
             modified' Hsum Hget' eq_refl).
  - cbn [sdk_calls]. by rewrite <- app_assoc.
  - cbn [SetAnnotations Annotations]. apply lookup_insert_eq.
Qed.

End ModifiedFlag.

(** ** What the generators of pkg/operator produce *)

Section GeneratedObjects.
Import K8s V1alpha1 GoText Operator.
Context {S : Type}.
Context `{SDK S Project}.
Context (fmt_q : string → string) (Override : Strategy).

(** The variable that names the storage driver to the registry. *)
Local Abbreviation storageDrivers env :=
  (List.filter (λ v, String.eqb (ev_Name v) "REGISTRY_STORAGE") env).

Local Abbreviation named backend s :=
  ((is_Some (Filesystem s) → backend = "filesystem") ∧
   (is_Some (Azure s) → backend = "azure") ∧
   (is_Some (GCS s) → backend = "gcs") ∧
   (is_Some (S3 s) → backend = "s3") ∧
   (is_Some (Swift s) → backend = "swift")).

(** The parts of a generated deployment config. *)
Lemma GenerateDeploymentConfig_shape cr p (w w' : SdkWorld S) dc :
  GenerateDeploymentConfig fmt_q cr p w = (Ok dc, w') →
  ∃ l tpl c,
    storageBranches cr p = Ok l ∧ storageConfigured l = 1 ∧
    dc_ObjectMeta dc =
      addOwnerRefToObject
        {| Name := Deployment_Name p; Namespace := Deployment_Namespace p;
           Labels := Deployment_Labels p;
           Annotations := {[ storageTypeOperatorAnnotation := storageType l ]};
           OwnerReferences := []; UID := ""; ResourceVersion := "" |} (asOwner cr) ∧
    dcs_Selector (dc_Spec dc) = Deployment_Labels p ∧
    dcs_Template (dc_Spec dc) = Some tpl ∧
    Labels (pt_ObjectMeta tpl) = Deployment_Labels p ∧
    ps_Containers (pt_Spec tpl) = [c] ∧
    ps_Volumes (pt_Spec tpl) = volumes l ∧
    ps_ServiceAccountName (pt_Spec tpl) = Pod_ServiceAccount p ∧
    c_Env c = env l ∧
    c_VolumeMounts c = mounts l ∧
    c_Ports c = [ {| cp_ContainerPort := int32 (Container_Port p);
                     cp_Protocol := "TCP" |} ] ∧
    c_LivenessProbe c = Some (generateLivenessProbeConfig p) ∧
    c_ReadinessProbe c = Some (generateReadinessProbeConfig p).
Proof.
  unfold GenerateDeploymentConfig.
  destruct (storageBranches cr p) as [l|err]; [|intros Heq; inversion Heq].
  destruct (storageConfigured l =? 1) eqn:Hone; cbn [negb];
    [|intros Heq; inversion Heq].
  unfold bind, ret.
  destruct (generateSecurityContext fmt_q cr (cr_Namespace cr) w) as [[sc|err] w''];
    intros Heq; inversion Heq; subst.
  eexists l, _, _. split; [done|]. split; [by apply Z.eqb_eq|].
  cbn [dc_ObjectMeta dc_Spec dcs_Selector dcs_Template].
  split; [reflexivity|]. split; [reflexivity|]. split; [reflexivity|].
  cbn. done.
Qed.

(** What a storage variant contributes to the driver variable. *)
Local Abbreviation driver variant name :=
  (match variant with
   | Some _ => [envValue "REGISTRY_STORAGE" name]
   | None => []
   end).

Local Ltac branch_cases variant :=
  unfold azureBranch, gcsBranch, s3Branch, swiftBranch, cloudBranch;
  destruct variant; cbn [env mounts volumes];
  rewrite ?List.filter_app, ?app_nil_r; try reflexivity.

Lemma operator_filesystemBranch_parts cr l l' :
  filesystemBranch cr l = Ok l' →
  storageDrivers (env l') =
    storageDrivers (env l) ++ driver (Filesystem (Spec_Storage cr)) "filesystem" ∧
  (∀ v, v ∈ env l → v ∈ env l') ∧
  match Filesystem (Spec_Storage cr) with
  | Some fs =>
      volumes l' = volumes l ++ [ {| vol_Name := "registry-storage";
                                     vol_VolumeSource := fs_VolumeSource fs |} ] ∧
      mounts l' = mounts l ++ [ {| vm_Name := "registry-storage";
                                   vm_MountPath := "/registry" |} ]
  | None => volumes l' = volumes l ∧ mounts l' = mounts l
  end.
Proof.
  unfold filesystemBranch.
  destruct (Filesystem (Spec_Storage cr)) as [[[[hp|] ed pvc cm]]|];
    cbn [fs_VolumeSource vs_HostPath]; intros [= <-]; cbn [env mounts volumes vol_Name];
    rewrite ?List.filter_app, ?app_nil_r; (split; [reflexivity|]); (split; [|done]);
    intros v Hv; rewrite ?elem_of_app; auto.
Qed.

Lemma operator_azureBranch_parts cr l :
  storageDrivers (env (azureBranch cr l)) =
    storageDrivers (env l) ++ driver (Azure (Spec_Storage cr)) "azure" ∧
  (∀ v, v ∈ env l → v ∈ env (azureBranch cr l)) ∧
  volumes (azureBranch cr l) = volumes l ∧ mounts (azureBranch cr l) = mounts l.
Proof.
  branch_cases (Azure (Spec_Storage cr)); (split; [reflexivity|]); (split; [|done]);
    intros v Hv; rewrite ?elem_of_app; auto.
Qed.

Lemma operator_gcsBranch_parts cr l :
  storageDrivers (env (gcsBranch cr l)) =
    storageDrivers (env l) ++ driver (GCS (Spec_Storage cr)) "gcs" ∧
  (∀ v, v ∈ env l → v ∈ env (gcsBranch cr l)) ∧
  volumes (gcsBranch cr l) = volumes l ∧ mounts (gcsBranch cr l) = mounts l.
Proof.
  branch_cases (GCS (Spec_Storage cr)); (split; [reflexivity|]); (split; [|done]);
    intros v Hv; rewrite ?elem_of_app; auto.
Qed.

Lemma operator_s3Branch_parts cr l :
  storageDrivers (env (s3Branch cr l)) =
    storageDrivers (env l) ++ driver (S3 (Spec_Storage cr)) "s3" ∧
  (∀ v, v ∈ env l → v ∈ env (s3Branch cr l)) ∧
  volumes (s3Branch cr l) = volumes l ∧ mounts (s3Branch cr l) = mounts l.
Proof.
  branch_cases (S3 (Spec_Storage cr)); (split; [reflexivity|]); (split; [|done]);
    intros v Hv; rewrite ?elem_of_app; auto.
Qed.

Lemma operator_swiftBranch_parts cr l :
  storageDrivers (env (swiftBranch cr l)) =
    storageDrivers (env l) ++ driver (Swift (Spec_Storage cr)) "swift" ∧
  (∀ v, v ∈ env l → v ∈ env (swiftBranch cr l)) ∧
  volumes (swiftBranch cr l) = volumes l ∧ mounts (swiftBranch cr l) = mounts l.
Proof.
  branch_cases (Swift (Spec_Storage cr)); (split; [reflexivity|]); (split; [|done]);
    intros v Hv; rewrite ?elem_of_app; auto.
Qed.

(** The driver variables after the five branches, and the volumes. *)
Lemma operator_storage_parts cr p l :
  storageBranches cr p = Ok l →
  let s := Spec_Storage cr in
  storageDrivers (env l) =
    driver (Filesystem s) "filesystem" ++ driver (Azure s) "azure" ++
    driver (GCS s) "gcs" ++ driver (S3 s) "s3" ++ driver (Swift s) "swift" ∧
  match Filesystem s with
  | Some fs =>
      volumes l = [ {| vol_Name := "registry-storage";
                       vol_VolumeSource := fs_VolumeSource fs |} ] ∧
      mounts l = [ {| vm_Name := "registry-storage"; vm_MountPath := "/registry" |} ]
  | None => volumes l = [] ∧ mounts l = []
  end.
Proof.
  unfold storageBranches.
  match goal with
  | |- context [filesystemBranch cr ?l0] =>
      destruct (filesystemBranch cr l0) as [l1|err] eqn:Hfs; [|discriminate]
  end.
  intros [= <-]. cbv zeta.
  apply operator_filesystemBranch_parts in Hfs as (Hd1 & _ & Hv1).
  destruct (operator_azureBranch_parts cr l1) as (Hd2 & _ & Hv2 & Hm2).
  destruct (operator_gcsBranch_parts cr (azureBranch cr l1)) as (Hd3 & _ & Hv3 & Hm3).
  destruct (operator_s3Branch_parts cr (gcsBranch cr (azureBranch cr l1)))
    as (Hd4 & _ & Hv4 & Hm4).
  destruct (operator_swiftBranch_parts cr (s3Branch cr (gcsBranch cr (azureBranch cr l1))))
    as (Hd5 & _ & Hv5 & Hm5).
  rewrite Hd5, Hd4, Hd3, Hd2, Hd1, Hv5, Hv4, Hv3, Hv2, Hm5, Hm4, Hm3, Hm2.
  cbn [env mounts volumes] in *. split.
  - rewrite <- !app_assoc. reflexivity.
  - destruct (Filesystem (Spec_Storage cr)); exact Hv1.
Qed.

Lemma operator_storage_env cr p l :
  storageBranches cr p = Ok l → storageConfigured l = 1 →
  ∃ backend,
    storageDrivers (env l) = [envValue "REGISTRY_STORAGE" backend] ∧
    named backend (Spec_Storage cr).
Proof.
  intros Hl Hone.
  pose proof (operator_storageBranches_count _ _ _ Hl) as Hc.
  rewrite Hone in Hc. destruct (operator_storage_parts cr p l Hl) as [-> _].
  clear Hl Hone. unfold storageVariants, populated in Hc.
  destruct (Filesystem (Spec_Storage cr)), (Azure (Spec_Storage cr)),
    (GCS (Spec_Storage cr)), (S3 (Spec_Storage cr)), (Swift (Spec_Storage cr));
    vm_compute in Hc; try discriminate Hc;
    (eexists; split; [reflexivity|]);
    repeat split; intros [x Hx]; (discriminate Hx || reflexivity).
Qed.

Lemma operator_storage_volumes cr p l :
  storageBranches cr p = Ok l →
  vm_Name <$> mounts l = vol_Name <$> volumes l ∧
  (Filesystem (Spec_Storage cr) = None → volumes l = []) ∧
  (∀ fs, Filesystem (Spec_Storage cr) = Some fs →
     volumes l = [ {| vol_Name := "registry-storage";
                      vol_VolumeSource := fs_VolumeSource fs |} ] ∧
     mounts l = [ {| vm_Name := "registry-storage"; vm_MountPath := "/registry" |} ]).
Proof.
  intros Hl. destruct (operator_storage_parts cr p l Hl) as [_ Hv]. cbv zeta in Hv.
  destruct (Filesystem (Spec_Storage cr)) as [fs|]; destruct Hv as [-> ->].
  - split; [reflexivity|]. split; [discriminate|]. by intros fs' [= <-].
  - split; [reflexivity|]. split; [done|]. discriminate.
Qed.

Lemma operator_storage_credentials cr p l :
  storageBranches cr p = Ok l →
  (∀ azure, Azure (Spec_Storage cr) = Some azure →
     envValue "REGISTRY_STORAGE_AZURE_ACCOUNTKEY" (AccountKey azure) ∈ env l) ∧
  (∀ s3, S3 (Spec_Storage cr) = Some s3 →
     envValue "REGISTRY_STORAGE_S3_ACCESSKEY" (AccessKey s3) ∈ env l ∧
     envValue "REGISTRY_STORAGE_S3_SECRETKEY" (SecretKey s3) ∈ env l) ∧
  (∀ swift, Swift (Spec_Storage cr) = Some swift →
     envValue "REGISTRY_STORAGE_SWIFT_PASSWORD" (Password swift) ∈ env l).
Proof.
  unfold storageBranches.
  match goal with
  | |- context [filesystemBranch cr ?l0] =>
      destruct (filesystemBranch cr l0) as [l1|err]; [|discriminate]
  end.
  intros [= <-].
  destruct (operator_gcsBranch_parts cr (azureBranch cr l1)) as (_ & Hgcs & _).
  destruct (operator_s3Branch_parts cr (gcsBranch cr (azureBranch cr l1)))
    as (_ & Hs3 & _).
  destruct (operator_swiftBranch_parts cr (s3Branch cr (gcsBranch cr (azureBranch cr l1))))
    as (_ & Hswift & _).
  split; [|split].
  - intros azure Haz. apply Hswift, Hs3, Hgcs.
    unfold azureBranch, cloudBranch. rewrite Haz. cbn [env].
    rewrite elem_of_app, !elem_of_cons. auto.
  - intros s3 Hs. split; apply Hswift; unfold s3Branch at 1, cloudBranch; rewrite Hs;
      cbn [env]; rewrite elem_of_app, !elem_of_cons; auto 10.
  - intros swift Hsw. unfold swiftBranch at 1, cloudBranch. rewrite Hsw. cbn [env].
    rewrite elem_of_app, !elem_of_cons. auto 10.
Qed.

(** X16. The objects that the generators make for one registry fit together: the
    service selects the pods of the deployment config by the labels that the
    deployment config selects and gives its pods; its port and its target
    port are the port of the container, which the probes ask as well; the
    pods run as the service account that is generated, in the namespace of
    the deployment config. *)
Theorem generated_objects_fit_together cr p (w w' : SdkWorld S) dc :
  GenerateDeploymentConfig fmt_q cr p w = (Ok dc, w') →
  let svc := GenerateService cr p in
  let sa := Template_Object (GenerateServiceAccount Override cr p) in
  ∃ tpl c port account,
    dcs_Template (dc_Spec dc) = Some tpl ∧
    ps_Containers (pt_Spec tpl) = [c] ∧
    ss_Ports (svc_Spec svc) = [port] ∧
    o_ObjectMeta sa = Some account ∧
    ss_Selector (svc_Spec svc) = Labels (pt_ObjectMeta tpl) ∧
    dcs_Selector (dc_Spec dc) = Labels (pt_ObjectMeta tpl) ∧
    Name (svc_ObjectMeta svc) = Name (dc_ObjectMeta dc) ∧
    Namespace (svc_ObjectMeta svc) = Namespace (dc_ObjectMeta dc) ∧
    cp_ContainerPort <$> c_Ports c = [sp_TargetPort port] ∧
    sp_Port port = sp_TargetPort port ∧
    pr_Port <$> c_LivenessProbe c = Some (sp_TargetPort port) ∧
    pr_Port <$> c_ReadinessProbe c = Some (sp_TargetPort port) ∧
    Name account = ps_ServiceAccountName (pt_Spec tpl) ∧
    Namespace account = Namespace (dc_ObjectMeta dc).
Proof.
  intros Hgen svc sa.
  apply GenerateDeploymentConfig_shape in Hgen
    as (l & tpl & c & Hl & Hone & Hmeta & Hsel & Htpl & Hlabels & Hc & Hvols & Hsa &
        Henv & Hmounts & Hports & Hlive & Hready).
  eexists tpl, c, _, _. split; [done|]. split; [done|].
  split; [reflexivity|]. split; [reflexivity|].
  rewrite Hsel, Hlabels, Hmeta, Hports, Hlive, Hready, Hsa. cbn. done.
Qed.

(** X17. Every generated object names the custom resource as its controller, by
    name and UID, and names no other owner; so the handler of an event
    for such an object finds the resource it belongs to. *)
Theorem generated_objects_name_their_controller cr p :
  let owner := asOwner cr in
  or_Controller owner = Some true ∧
  or_Name owner = cr_Name cr ∧ or_UID owner = cr_UID cr ∧
  or_Kind owner = Kind (cr_TypeMeta cr) ∧
  OwnerReferences (svc_ObjectMeta (GenerateService cr p)) = [owner] ∧
  (OwnerReferences <$> o_ObjectMeta (Template_Object (GenerateServiceAccount Override cr p)))
    = Some [owner] ∧
  Events.GetControllerOf (svc_ObjectMeta (GenerateService cr p)) = Some owner ∧
  (∀ (w w' : SdkWorld S) dc,
     GenerateDeploymentConfig fmt_q cr p w = (Ok dc, w') →
     OwnerReferences (dc_ObjectMeta dc) = [owner] ∧
     Events.GetControllerOf (dc_ObjectMeta dc) = Some owner).
Proof.
  cbv zeta. do 7 (split; [reflexivity|]).
  intros w w' dc Hgen.
  apply GenerateDeploymentConfig_shape in Hgen as (l & tpl & c & _ & _ & Hmeta & _).
  rewrite Hmeta. split; reflexivity.
Qed.

(** X18. The environment of the registry container names the storage driver
    exactly once, and the driver is that of the one storage variant that is
    configured: the filesystem driver is named there although the
    storage-type annotation stays empty for it. The volumes of the pod are
    those that the container mounts, in the same order: the volume of the
    filesystem variant at /registry, and none for the other variants. *)
Theorem deployment_config_storage cr p (w w' : SdkWorld S) dc :
  GenerateDeploymentConfig fmt_q cr p w = (Ok dc, w') →
  ∃ tpl c backend,
    dcs_Template (dc_Spec dc) = Some tpl ∧
    ps_Containers (pt_Spec tpl) = [c] ∧
    storageDrivers (c_Env c) = [envValue "REGISTRY_STORAGE" backend] ∧
    named backend (Spec_Storage cr) ∧
    vm_Name <$> c_VolumeMounts c = vol_Name <$> ps_Volumes (pt_Spec tpl) ∧
    (Filesystem (Spec_Storage cr) = None → ps_Volumes (pt_Spec tpl) = []) ∧
    (∀ fs, Filesystem (Spec_Storage cr) = Some fs →
       ps_Volumes (pt_Spec tpl) =
         [ {| vol_Name := "registry-storage"; vol_VolumeSource := fs_VolumeSource fs |} ] ∧
       c_VolumeMounts c =
         [ {| vm_Name := "registry-storage"; vm_MountPath := "/registry" |} ]).
Proof.
  intros Hgen.
  apply GenerateDeploymentConfig_shape in Hgen
    as (l & tpl & c & Hl & Hone & Hmeta & Hsel & Htpl & Hlabels & Hc & Hvols & Hsa &
        Henv & Hmounts & _).
  destruct (operator_storage_env cr p l Hl Hone) as (backend & Hdrv & Hnamed).
  destruct (operator_storage_volumes cr p l Hl) as (Halign & Hnone & Hfs).
  exists tpl, c, backend. rewrite Henv, Hmounts, Hvols. done.
Qed.

(** X19. The deployment config of pkg/operator carries the credentials of the
    storage in the environment of the container, as plain values. *)
Theorem deployment_config_carries_credentials cr p (w w' : SdkWorld S) dc :
  GenerateDeploymentConfig fmt_q cr p w = (Ok dc, w') →
  ∃ tpl c,
    dcs_Template (dc_Spec dc) = Some tpl ∧
    ps_Containers (pt_Spec tpl) = [c] ∧
    (∀ azure, Azure (Spec_Storage cr) = Some azure →
       envValue "REGISTRY_STORAGE_AZURE_ACCOUNTKEY" (AccountKey azure) ∈ c_Env c) ∧
    (∀ s3, S3 (Spec_Storage cr) = Some s3 →
       envValue "REGISTRY_STORAGE_S3_ACCESSKEY" (AccessKey s3) ∈ c_Env c ∧
       envValue "REGISTRY_STORAGE_S3_SECRETKEY" (SecretKey s3) ∈ c_Env c) ∧
    (∀ swift, Swift (Spec_Storage cr) = Some swift →
       envValue "REGISTRY_STORAGE_SWIFT_PASSWORD" (Password swift) ∈ c_Env c).
Proof.
  intros Hgen.
  apply GenerateDeploymentConfig_shape in Hgen
    as (l & tpl & c & Hl & Hone & _ & _ & Htpl & _ & Hc & _ & _ & Henv & _).
  exists tpl, c. split; [done|]. split; [done|]. rewrite Henv.
  by apply operator_storage_credentials with p.
Qed.

End GeneratedObjects.

(** ** Numbers in text *)

Section GoTextFacts.
Import GoText.

Local Open Scope Z_scope.

Lemma parseDigits_digit c s acc v :
  parseDigits (String c s) acc = Some v →
  0 ≤ Z.of_nat (Ascii.nat_of_ascii c) - 48 ≤ 9 ∧
  parseDigits s (acc * 10 + (Z.of_nat (Ascii.nat_of_ascii c) - 48)) = Some v.
Proof.
  cbn [parseDigits]. cbv zeta.
  destruct (0 <=? Z.of_nat (Ascii.nat_of_ascii c) - 48) eqn:H0; [|discriminate].
  destruct (Z.of_nat (Ascii.nat_of_ascii c) - 48 <=? 9) eqn:H9; [|discriminate].
  cbn [andb]. intros Hs. split; [lia|done].
Qed.

Lemma pretty_N_char_digit (d : N) :
  (d < 10)%N →
  Z.of_nat (Ascii.nat_of_ascii (pretty_N_char d)) - 48 = Z.of_N d.
Proof.
  intros Hd.
  assert (d = 0 ∨ d = 1 ∨ d = 2 ∨ d = 3 ∨ d = 4 ∨ d = 5 ∨ d = 6 ∨ d = 7 ∨ d = 8 ∨ d = 9)%N
    as Hcases by lia.
  repeat (destruct Hcases as [->|Hcases]; [reflexivity|]). by subst d.
Qed.

(** Reading the digits that [pretty] has written in front of [s]. *)
Lemma parseDigits_pretty_N_go (x : N) :
  ∃ k : nat, ∀ s acc,
    parseDigits (pretty_N_go x s) acc = parseDigits s (acc * 10 ^ Z.of_nat k + Z.of_N x).
Proof.
  induction (N.lt_wf_0 x) as [x _ IH].
  assert (x = 0 ∨ 0 < x)%N as [->|Hpos] by lia.
  - exists 0%nat. intros s acc. rewrite pretty_N_go_0. f_equal.
    change (Z.of_nat 0) with 0. change (Z.of_N 0) with 0. rewrite Z.pow_0_r. lia.
  - destruct (IH (x `div` 10)%N) as [k Hk]; [by apply N.div_lt|].
    exists (Datatypes.S k). intros s acc.
    rewrite pretty_N_go_step by done. rewrite Hk. cbn [parseDigits]. cbv zeta.
    rewrite pretty_N_char_digit by (apply N.mod_lt; lia).
    assert (0 ≤ Z.of_N (x `mod` 10) ≤ 9) as Hd.
    { assert (x `mod` 10 < 10)%N as Hlt by (apply N.mod_lt; lia).
      revert Hlt. generalize (x `mod` 10)%N. intros d Hlt. lia. }
    rewrite (proj2 (Z.leb_le _ _) (proj1 Hd)), (proj2 (Z.leb_le _ _) (proj2 Hd)).
    cbn [andb]. f_equal.
    rewrite Nat2Z.inj_succ, Z.pow_succ_r by apply Nat2Z.is_nonneg.
    assert (Hx : Z.of_N x = 10 * Z.of_N (x `div` 10) + Z.of_N (x `mod` 10)).
    { rewrite (N.div_mod x 10) at 1 by discriminate.
      by rewrite N2Z.inj_add, N2Z.inj_mul. }
    rewrite Hx. ring.
Qed.

Lemma parseDigits_fmt_d (x : Z) :
  0 ≤ x → parseDigits (fmt_d x) 0 = Some x ∧ fmt_d x ≠ "".
Proof.
  intros Hx. unfold fmt_d, pretty, pretty_Z. destruct x as [|p|p]; [done| |lia].
  unfold pretty, pretty_positive, pretty, pretty_N.
  destruct (decide (N.pos p = 0%N)) as [H0|_]; [discriminate H0|].
  destruct (parseDigits_pretty_N_go (N.pos p)) as [k Hk].
  assert (Hparse : parseDigits (pretty_N_go (N.pos p) "") 0 = Some (Z.pos p)).
  { rewrite Hk. cbn [parseDigits]. f_equal. }
  split; [exact Hparse|]. intros Hempty. rewrite Hempty in Hparse. discriminate Hparse.
Qed.

(** [ParseInt] on a string of digits. *)
Lemma ParseInt10_64_digits s v :
  parseDigits s 0 = Some v → s ≠ "" → - 2 ^ 63 ≤ v < 2 ^ 63 →
  ParseInt10_64 s = inr v.
Proof.
  intros Hparse Hne Hrange. destruct s as [|c rest]; [done|].
  destruct (parseDigits_digit _ _ _ _ Hparse) as [Hd _].
  unfold ParseInt10_64.
  destruct (Ascii.eqb c "-") eqn:Hminus.
  { apply Ascii.eqb_eq in Hminus. subst c. destruct Hd as [Hd _].
    vm_compute in Hd. exfalso. by apply Hd. }
  destruct (Ascii.eqb c "+") eqn:Hplus.
  { apply Ascii.eqb_eq in Hplus. subst c. destruct Hd as [Hd _].
    vm_compute in Hd. exfalso. by apply Hd. }
  rewrite Hparse.
  rewrite (proj2 (Z.leb_le _ _) (proj1 Hrange)), (proj2 (Z.ltb_lt _ _) (proj2 Hrange)).
  reflexivity.
Qed.

(** The first slash after a string of digits, and the text before it. *)
Lemma index_slash_after_digits s rest acc v :
  parseDigits s acc = Some v →
  String.index 0 "/" (s +:+ String "/" rest) = Some (String.length s) ∧
  String.substring 0 (String.length s) (s +:+ String "/" rest) = s.
Proof.
  revert acc. induction s as [|c s IH]; intros acc Hparse.
  - split; [|by destruct rest]. cbn. by destruct rest.
  - apply parseDigits_digit in Hparse as [Hd Hparse].
    destruct (IH _ Hparse) as [Hindex Hsub]. split.
    + change (String c s +:+ String "/" rest) with (String c (s +:+ String "/" rest)).
      change (String.length (String c s)) with (Datatypes.S (String.length s)).
      unfold String.index; fold String.index. unfold String.prefix; fold String.prefix.
      destruct (ascii_dec "/" c) as [<-|_].
      { destruct Hd as [Hd _]. vm_compute in Hd. exfalso. by apply Hd. }
      by rewrite Hindex.
    + change (String c s +:+ String "/" rest) with (String c (s +:+ String "/" rest)).
      change (String.length (String c s)) with (Datatypes.S (String.length s)).
      unfold String.substring; fold String.substring. by rewrite Hsub.
Qed.

End GoTextFacts.

(** ** The security context of the pods *)

Section SecurityContext.
Import K8s V1alpha1 GoText.
Context {S : Type}.
Context `{SDK S Project}.
Context (fmt_q : string → string).

(** The project that both generators read for the namespace. *)
Local Abbreviation project namespace :=
  {| prj_TypeMeta := {| APIVersion := "project.openshift.io/v1"; Kind := "Project" |};
     prj_ObjectMeta :=
       {| Name := namespace; Namespace := ""; Labels := ∅; Annotations := ∅;
          OwnerReferences := []; UID := ""; ResourceVersion := "" |} |}.

(** X20. The group of the pods' file systems is the first number of the range of
    supplemental groups that the namespace is annotated with: the decimal
    text before the first slash is read back to the number it was written
    from. Both generators do so, with one read of the project. *)
Theorem security_context_takes_first_group cr namespace (w : SdkWorld S) ns s1 gid size :
  sdk_Get (project namespace) (sdk_cluster w) = (Ok ns, s1) →
  Annotations (prj_ObjectMeta ns) !! Operator.supplementalGroupsAnnotation =
    Some (fmt_d gid +:+ "/" +:+ size) →
  0 ≤ gid < 2 ^ 63 →
  let read := {| sdk_calls := sdk_calls w ++ [SdkGet (sdk_key (project namespace))];
                 sdk_cluster := s1 |} in
  Operator.generateSecurityContext fmt_q cr namespace w =
    (Ok {| FSGroup := Some gid |}, read) ∧
  Generate.generateSecurityContext fmt_q cr namespace w =
    (Ok {| FSGroup := Some gid |}, read).
Proof.
  intros Hget Hann Hrange read.
  destruct (parseDigits_fmt_d gid (proj1 Hrange)) as [Hparse Hne].
  destruct (index_slash_after_digits (fmt_d gid) size 0 gid Hparse) as [Hindex Hsub].
  assert (Hint : ParseInt10_64 (fmt_d gid) = inr gid).
  { apply ParseInt10_64_digits; [done|done|lia]. }
  change (fmt_d gid +:+ "/" +:+ size) with (fmt_d gid +:+ String "/" size) in Hann.
  split.
  - unfold Operator.generateSecurityContext, bind, Get, sdkCall, ret.
    rewrite Hget, Hann, Hindex, Hsub, Hint. reflexivity.
  - unfold Generate.generateSecurityContext, bind, Get, sdkCall, ret.
    change Generate.SupplementalGroupsAnnotation
      with Operator.supplementalGroupsAnnotation.
    rewrite Hget, Hann, Hindex, Hsub, Hint. reflexivity.
Qed.

End SecurityContext.

(** ** What the pod template generator produces *)

Section PodTemplate.
Import K8s V1alpha1 GoText Generate.
Context {S : Type}.
Context `{SDK S Project, SDK S Secret, SDK S ConfigMap}.
Context `{Checksum Secret, Checksum ConfigMap}.
Context (fmt_q : string → string) (fmt_duration : Z → string).
Context (secretAnnotation configMapAnnotation : string).

Local Abbreviation PodTemplateSpec' :=
  (PodTemplateSpec_ fmt_q fmt_duration secretAnnotation configMapAnnotation).

Local Abbreviation storageDrivers env :=
  (List.filter (λ v, String.eqb (ev_Name v) "REGISTRY_STORAGE") env).

Local Abbreviation named backend s :=
  ((is_Some (Filesystem s) → backend = "filesystem") ∧
   (is_Some (Azure s) → backend = "azure") ∧
   (is_Some (GCS s) → backend = "gcs") ∧
   (is_Some (S3 s) → backend = "s3") ∧
   (is_Some (Swift s) → backend = "swift")).

Local Abbreviation driver variant name :=
  (match variant with
   | Some _ => [envValue "REGISTRY_STORAGE" name]
   | None => []
   end).

Local Abbreviation negative limits :=
  (MaxRunning limits < 0 ∨ MaxInQueue limits < 0).

Local Abbreviation tlsVolume :=
  {| vol_Name := "registry-tls";
     vol_VolumeSource :=
       {| vs_HostPath := None; vs_EmptyDir := None; vs_PersistentVolumeClaim := None;
          vs_ConfigMap := Some "image-registry-tls" |} |}.

Local Abbreviation certificatesVolume :=
  {| vol_Name := "registry-certificates";
     vol_VolumeSource :=
       {| vs_HostPath := None; vs_EmptyDir := None; vs_PersistentVolumeClaim := None;
          vs_ConfigMap := Some "image-registry-certificates" |} |}.

Local Ltac branch_cases variant :=
  unfold azureBranch, gcsBranch, s3Branch, swiftBranch, cloudBranch;
  destruct variant; cbn [env mounts volumes];
  rewrite ?List.filter_app, ?app_nil_r; try reflexivity.

Lemma generate_filesystemBranch_parts cr l l' :
  filesystemBranch cr l = Ok l' →
  storageDrivers (env l') =
    storageDrivers (env l) ++ driver (Filesystem (Spec_Storage cr)) "filesystem" ∧
  match Filesystem (Spec_Storage cr) with
  | Some fs =>
      volumes l' = volumes l ++ [ {| vol_Name := "registry-storage";
                                     vol_VolumeSource := fs_VolumeSource fs |} ] ∧
      mounts l' = mounts l ++ [ {| vm_Name := "registry-storage";
                                   vm_MountPath := "/registry" |} ]
  | None => volumes l' = volumes l ∧ mounts l' = mounts l
  end.
Proof.
  unfold filesystemBranch.
  destruct (Filesystem (Spec_Storage cr)) as [[[[hp|] ed pvc cm]]|];
    cbn [fs_VolumeSource vs_HostPath]; intros [= <-]; cbn [env mounts volumes vol_Name];
    rewrite ?List.filter_app, ?app_nil_r; done.
Qed.

Lemma generate_azureBranch_parts cr l :
  storageDrivers (env (azureBranch cr l)) =
    storageDrivers (env l) ++ driver (Azure (Spec_Storage cr)) "azure" ∧
  volumes (azureBranch cr l) = volumes l ∧ mounts (azureBranch cr l) = mounts l.
Proof. by branch_cases (Azure (Spec_Storage cr)). Qed.

Lemma generate_gcsBranch_parts cr l :
  storageDrivers (env (gcsBranch cr l)) =
    storageDrivers (env l) ++ driver (GCS (Spec_Storage cr)) "gcs" ∧
  volumes (gcsBranch cr l) = volumes l ∧ mounts (gcsBranch cr l) = mounts l.
Proof. by branch_cases (GCS (Spec_Storage cr)). Qed.

Lemma generate_s3Branch_parts cr l :
  storageDrivers (env (s3Branch cr l)) =
    storageDrivers (env l) ++ driver (S3 (Spec_Storage cr)) "s3" ∧
  volumes (s3Branch cr l) = volumes l ∧ mounts (s3Branch cr l) = mounts l.
Proof. by branch_cases (S3 (Spec_Storage cr)). Qed.

Lemma generate_swiftBranch_parts cr l :
  storageDrivers (env (swiftBranch cr l)) =
    storageDrivers (env l) ++ driver (Swift (Spec_Storage cr)) "swift" ∧
  volumes (swiftBranch cr l) = volumes l ∧ mounts (swiftBranch cr l) = mounts l.
Proof. by branch_cases (Swift (Spec_Storage cr)). Qed.

Lemma generate_storage_parts cr p l :
  storageBranches cr p = Ok l →
  let s := Spec_Storage cr in
  storageDrivers (env l) =
    driver (Filesystem s) "filesystem" ++ driver (Azure s) "azure" ++
    driver (GCS s) "gcs" ++ driver (S3 s) "s3" ++ driver (Swift s) "swift" ∧
  match Filesystem s with
  | Some fs =>
      volumes l = [ {| vol_Name := "registry-storage";
                       vol_VolumeSource := fs_VolumeSource fs |} ] ∧
      mounts l = [ {| vm_Name := "registry-storage"; vm_MountPath := "/registry" |} ]
  | None => volumes l = [] ∧ mounts l = []
  end.
Proof.
  unfold storageBranches.
  match goal with
  | |- context [filesystemBranch cr ?l0] =>
      destruct (filesystemBranch cr l0) as [l1|err] eqn:Hfs; [|discriminate]
  end.
  intros [= <-]. cbv zeta.
  apply generate_filesystemBranch_parts in Hfs as (Hd1 & Hv1).
  destruct (generate_azureBranch_parts cr l1) as (Hd2 & Hv2 & Hm2).
  destruct (generate_gcsBranch_parts cr (azureBranch cr l1)) as (Hd3 & Hv3 & Hm3).
  destruct (generate_s3Branch_parts cr (gcsBranch cr (azureBranch cr l1)))
    as (Hd4 & Hv4 & Hm4).
  destruct (generate_swiftBranch_parts cr (s3Branch cr (gcsBranch cr (azureBranch cr l1))))
    as (Hd5 & Hv5 & Hm5).
  rewrite Hd5, Hd4, Hd3, Hd2, Hd1, Hv5, Hv4, Hv3, Hv2, Hm5, Hm4, Hm3, Hm2.
  cbn [env mounts volumes] in *. split.
  - rewrite <- !app_assoc. reflexivity.
  - destruct (Filesystem (Spec_Storage cr)); exact Hv1.
Qed.

(** The limits on requests add no driver variable, and they are refused
    exactly when one of the two limits that are checked is negative. *)
Lemma requestsBranch_cases kind KIND limits env :
  (negative limits → ∃ err, requestsBranch fmt_duration kind KIND limits env = Err err) ∧
  (¬ negative limits →
   ∃ env', requestsBranch fmt_duration kind KIND limits env = Ok (env ++ env') ∧
           storageDrivers env' = [] ∧
           (MaxRunning limits = 0 → MaxInQueue limits = 0 → env' = [])).
Proof.
  unfold requestsBranch.
  destruct (Z.eqb_spec (MaxRunning limits) 0) as [Hr|Hr],
           (Z.eqb_spec (MaxInQueue limits) 0) as [Hq|Hq]; cbn [negb orb];
    try (destruct (Z.ltb_spec (MaxRunning limits) 0) as [Hr'|Hr']);
    try (destruct (Z.ltb_spec (MaxInQueue limits) 0) as [Hq'|Hq']);
    (split; [intros Hneg; try (exfalso; lia); eauto
            |intros Hpos; try (exfalso; lia)]).
  all: try (exists []; rewrite app_nil_r; done).
  all: eexists; (split; [reflexivity|]); (split; [reflexivity|]); intros; lia.
Qed.

(** The parts of a generated pod template. *)
Lemma PodTemplateSpec_shape cr p (w w' : SdkWorld S) spec annotations :
  PodTemplateSpec' cr p w = (Returns (Ok (spec, annotations)), w') →
  ∃ l env1 env2 tls c,
    storageBranches cr p = Ok l ∧ storageConfigured l = 1 ∧
    requestsBranch fmt_duration "Read" "READ" (Spec_RequestsRead cr) (env l) = Ok env1 ∧
    requestsBranch fmt_duration "Write" "WRITE" (Spec_RequestsWrite cr) env1 = Ok env2 ∧
    Spec_TLS cr = Some tls ∧
    ps_Containers (pt_Spec spec) = [c] ∧
    c_Env c = env2 ++
              (if tls then [ envValue "REGISTRY_HTTP_TLS_CERTIFICATE" "/etc/secrets/tls.crt";
                             envValue "REGISTRY_HTTP_TLS_KEY" "/etc/secrets/tls.key" ]
               else []) ∧
    ps_Volumes (pt_Spec spec) =
      (volumes l ++ (if tls then [tlsVolume] else [])) ++ [certificatesVolume] ∧
    vm_Name <$> c_VolumeMounts c = vol_Name <$> ps_Volumes (pt_Spec spec) ∧
    pr_Scheme <$> c_LivenessProbe c = Some (if tls then "HTTPS" else "") ∧
    pr_Scheme <$> c_ReadinessProbe c = Some (if tls then "HTTPS" else "").
Proof.
  unfold PodTemplateSpec_.
  destruct (storageBranches cr p) as [l|err] eqn:Hl; [|intros Heq; inversion Heq].
  destruct (storageConfigured l =? 1) eqn:Hone; cbn [negb];
    [|intros Heq; inversion Heq].
  destruct (requestsBranch _ "Read" _ _ _) as [env1|err] eqn:Hread;
    [|intros Heq; inversion Heq].
  destruct (requestsBranch _ "Write" _ _ _) as [env2|err] eqn:Hwrite;
    [|intros Heq; inversion Heq].
  unfold bind at 1.
  destruct (generateSecurityContext fmt_q cr (Deployment_Namespace p) w)
    as [[sc|err] w1]; [|intros Heq; inversion Heq].
  destruct (Spec_TLS cr) as [tls|] eqn:Htls; [|intros Heq; inversion Heq].
  assert (Hm : vm_Name <$> mounts l = vol_Name <$> volumes l).
  { destruct (generate_storage_parts cr p l Hl) as [_ Hv]. cbv zeta in Hv.
    destruct (Filesystem (Spec_Storage cr)); by destruct Hv as [-> ->]. }
  destruct tls; cbv beta iota zeta; unfold bind at 1;
    (destruct (getSecretChecksum p w1) as [[sum1|err] w2]; [|intros Heq; inversion Heq]);
    unfold bind at 1;
    (destruct (getConfigMapChecksum p w2) as [[sum2|err] w3];
       [|intros Heq; inversion Heq]);
    unfold generateLivenessProbeConfig, generateReadinessProbeConfig,
      generateProbeConfig; rewrite Htls; unfold ret; intros Heq; inversion Heq; subst;
    eexists l, env1, env2, _, _; (split; [done|]); (split; [by apply Z.eqb_eq|]);
    (split; [done|]); (split; [done|]); (split; [done|]);
    cbn [pt_Spec ps_Containers ps_Volumes c_Env c_VolumeMounts c_LivenessProbe
         c_ReadinessProbe];
    (split; [reflexivity|]); rewrite ?app_nil_r;
    (split; [reflexivity|]); (split; [reflexivity|]);
    cbn [c_VolumeMounts c_LivenessProbe c_ReadinessProbe];
    rewrite !fmap_app, Hm; done.
Qed.

(** X21. The pod template names the storage driver exactly once in the
    environment of the container, the driver of the one variant that is
    configured. Every volume that the container mounts is a volume of the
    pod, in the same order: that of the filesystem variant, if it is the
    one configured, then that of the TLS secret if TLS is on, then the
    certificates; and the probes ask over HTTPS exactly when TLS is on. *)
Theorem pod_template_storage_and_tls cr p (w w' : SdkWorld S) spec annotations :
  PodTemplateSpec' cr p w = (Returns (Ok (spec, annotations)), w') →
  ∃ c backend tls,
    ps_Containers (pt_Spec spec) = [c] ∧
    storageDrivers (c_Env c) = [envValue "REGISTRY_STORAGE" backend] ∧
    named backend (Spec_Storage cr) ∧
    Spec_TLS cr = Some tls ∧
    vm_Name <$> c_VolumeMounts c = vol_Name <$> ps_Volumes (pt_Spec spec) ∧
    vol_Name <$> ps_Volumes (pt_Spec spec) =
      match Filesystem (Spec_Storage cr) with
      | Some _ => ["registry-storage"]
      | None => []
      end ++
      (if tls then ["registry-tls"] else []) ++ ["registry-certificates"] ∧
    pr_Scheme <$> c_LivenessProbe c = Some (if tls then "HTTPS" else "") ∧
    pr_Scheme <$> c_ReadinessProbe c = Some (if tls then "HTTPS" else "").
Proof.
  intros Hgen.
  apply PodTemplateSpec_shape in Hgen
    as (l & env1 & env2 & tls & c & Hl & Hone & Hread & Hwrite & Htls & Hc & Henv &
        Hvols & Hmounts & Hlive & Hready).
  destruct (generate_storage_parts cr p l Hl) as [Hdrv Hv]. cbv zeta in Hdrv, Hv.
  pose proof (generate_storageBranches_count _ _ _ Hl) as Hcount. rewrite Hone in Hcount.
  assert (Hnoneg : ∀ kind KIND limits env env',
            requestsBranch fmt_duration kind KIND limits env = Ok env' →
            storageDrivers env' = storageDrivers env).
  { intros kind KIND limits env0 env' Hreq.
    destruct (requestsBranch_cases kind KIND limits env0) as [Hneg Hpos].
    destruct (decide (negative limits)) as [Hn|Hn].
    - destruct (Hneg Hn) as [err Herr]. rewrite Herr in Hreq. discriminate Hreq.
    - destruct (Hpos Hn) as (env'' & Heq & Hnone & _). rewrite Heq in Hreq.
      injection Hreq as <-. by rewrite List.filter_app, Hnone, app_nil_r. }
  assert (Hdrivers : storageDrivers (c_Env c) = storageDrivers (env l)).
  { rewrite Henv, List.filter_app, (Hnoneg _ _ _ _ _ Hwrite), (Hnoneg _ _ _ _ _ Hread).
    destruct tls; cbn; by rewrite app_nil_r. }
  assert (Hnames : vol_Name <$> volumes l =
            match Filesystem (Spec_Storage cr) with
            | Some _ => ["registry-storage"]
            | None => []
            end).
  { destruct (Filesystem (Spec_Storage cr)); by destruct Hv as [-> _]. }
  exists c.
  assert (∃ backend, storageDrivers (env l) = [envValue "REGISTRY_STORAGE" backend] ∧
                     named backend (Spec_Storage cr)) as (backend & Hb & Hnamed).
  { rewrite Hdrv. clear -Hcount. unfold storageVariants, populated in Hcount.
    destruct (Filesystem (Spec_Storage cr)), (Azure (Spec_Storage cr)),
      (GCS (Spec_Storage cr)), (S3 (Spec_Storage cr)), (Swift (Spec_Storage cr));
      vm_compute in Hcount; try discriminate Hcount;
      (eexists; split; [reflexivity|]);
      repeat split; intros [x Hx]; (discriminate Hx || reflexivity). }
  exists backend, tls. split; [done|]. split; [by rewrite Hdrivers|].
  split; [done|]. split; [done|]. split; [done|].
  split; [|done]. rewrite Hvols, !fmap_app, Hnames, <- app_assoc. by destruct tls.
Qed.

(** X22. The pod template does not depend on the credentials of the storage:
    whatever account, keys or password the custom resource carries, the
    generator makes the same calls and returns the same template, which
    refers to the secret of the registry instead. *)
Theorem pod_template_is_independent_of_credentials cr p (w : SdkWorld S) name key :
  PodTemplateSpec' (withStorage cr (withCredentials name key (Spec_Storage cr))) p w =
  PodTemplateSpec' cr p w.
Proof.
  set (cr' := withStorage cr (withCredentials name key (Spec_Storage cr))).
  assert (Hfs : ∀ l, filesystemBranch cr' l = filesystemBranch cr l) by reflexivity.
  assert (Haz : ∀ l, azureBranch cr' l = azureBranch cr l).
  { intros l. unfold azureBranch.
    cbn [cr' withStorage withCredentials Spec_Storage Azure].
    by destruct (Azure (Spec_Storage cr)). }
  assert (Hgcs : ∀ l, gcsBranch cr' l = gcsBranch cr l) by reflexivity.
  assert (Hs3 : ∀ l, s3Branch cr' l = s3Branch cr l).
  { intros l. unfold s3Branch.
    cbn [cr' withStorage withCredentials Spec_Storage S3].
    by destruct (S3 (Spec_Storage cr)). }
  assert (Hsw : ∀ l, swiftBranch cr' l = swiftBranch cr l).
  { intros l. unfold swiftBranch.
    cbn [cr' withStorage withCredentials Spec_Storage Swift].
    by destruct (Swift (Spec_Storage cr)). }
  assert (Hstorage : storageBranches cr' p = storageBranches cr p).
  { unfold storageBranches.
    change (Spec_HTTPSecret cr') with (Spec_HTTPSecret cr).
    change (generateLogLevel cr') with (generateLogLevel cr). rewrite Hfs.
    match goal with
    | |- context [filesystemBranch cr ?l0] => destruct (filesystemBranch cr l0); [|done]
    end.
    by rewrite Hsw, Hs3, Hgcs, Haz. }
  unfold PodTemplateSpec_. rewrite Hstorage. reflexivity.
Qed.

(** X23. The generator refuses a custom resource before it asks the cluster
    anything: with no or several storage variants, with a host path, or
    with a negative limit on running or queued requests it returns an error
    and has made no call. Any other resource makes it read the cluster. A
    limit on the waiting time alone is not looked at. *)
Theorem pod_template_refuses_before_reading cr p (w : SdkWorld S) :
  let r := PodTemplateSpec' cr p w in
  let refused :=
    storageVariants (Spec_Storage cr) ≠ 1 ∨
    (∃ fs, Filesystem (Spec_Storage cr) = Some fs ∧
           is_Some (vs_HostPath (fs_VolumeSource fs))) ∨
    negative (Spec_RequestsRead cr) ∨ negative (Spec_RequestsWrite cr) in
  (refused → ∃ err, r = (Returns (Err err), w)) ∧
  (¬ refused → ∃ c cs, sdk_calls r.2 = sdk_calls w ++ c :: cs).
Proof.
  cbv zeta. unfold PodTemplateSpec_.
  destruct (storageBranches cr p) as [l|err] eqn:Hl.
  2:{ apply generate_storageBranches_err in Hl as [-> Hfs].
      split; [eauto|]. intros Hok. exfalso. apply Hok. right. by left. }
  pose proof (generate_storageBranches_count _ _ _ Hl) as Hcount.
  assert (Hnohp : ¬ ∃ fs, Filesystem (Spec_Storage cr) = Some fs ∧
                          is_Some (vs_HostPath (fs_VolumeSource fs))).
  { intros (fs & Hfs & [hp Hhp]). revert Hl. unfold storageBranches, filesystemBranch.
    rewrite Hfs, Hhp. discriminate. }
  destruct (Z.eqb_spec (storageConfigured l) 1) as [Hone|Hone]; cbn [negb].
  2:{ split; [eauto|]. intros Hok. exfalso. apply Hok. left. congruence. }
  destruct (requestsBranch_cases "Read" "READ" (Spec_RequestsRead cr) (env l))
    as [Hrneg Hrpos].
  destruct (decide (negative (Spec_RequestsRead cr))) as [Hr|Hr].
  { destruct (Hrneg Hr) as [err ->]. split; [eauto|]. intros Hok. exfalso. apply Hok.
    right. right. by left. }
  destruct (Hrpos Hr) as (env1 & -> & _).
  destruct (requestsBranch_cases "Write" "WRITE" (Spec_RequestsWrite cr) (env l ++ env1))
    as [Hwneg Hwpos].
  destruct (decide (negative (Spec_RequestsWrite cr))) as [Hw|Hw].
  { destruct (Hwneg Hw) as [err ->]. split; [eauto|]. intros Hok. exfalso. apply Hok.
    right. right. by right. }
  destruct (Hwpos Hw) as (env2 & -> & _).
  split.
  { intros [Hne|[Hhp|[Hneg|Hneg]]]; [congruence|done|done|done]. }
  intros _. unfold bind at 1.
  destruct (generateSecurityContext_calls fmt_q cr (Deployment_Namespace p) w)
    as [c1 Hc1].
  destruct (generateSecurityContext fmt_q cr (Deployment_Namespace p) w)
    as [[sc|err] w1]; cbn [snd] in Hc1; [|by exists c1, []].
  destruct (Spec_TLS cr) as [tls|] eqn:Htls; [|by exists c1, []].
  destruct (if tls then _ else _) as [[vols mnts] env3].
  unfold bind at 1.
  destruct (getSecretChecksum_calls p w1) as [c2 Hc2].
  destruct (getSecretChecksum p w1) as [[sum1|err] w2]; cbn [snd] in Hc2.
  2:{ exists c1, [c2]. cbn [snd ret]. by rewrite Hc2, Hc1, <- app_assoc. }
  unfold bind at 1.
  destruct (getConfigMapChecksum_calls p w2) as [c3 Hc3].
  destruct (getConfigMapChecksum p w2) as [[sum2|err] w3]; cbn [snd] in Hc3.
  2:{ exists c1, [c2; c3]. cbn [snd ret]. by rewrite Hc3, Hc2, Hc1, <- !app_assoc. }
  unfold generateLivenessProbeConfig, generateReadinessProbeConfig, generateProbeConfig.
  rewrite Htls. exists c1, [c2; c3]. cbn [snd ret].
  by rewrite Hc3, Hc2, Hc1, <- !app_assoc.
Qed.

(** X24. Without a value for TLS in the custom resource the generator panics,
    after it has read the project of the namespace; it never returns a
    template then. *)
Theorem pod_template_panics_without_tls cr p (w : SdkWorld S) sc w1 :
  Spec_TLS cr = None →
  storageVariants (Spec_Storage cr) = 1 →
  (∀ fs, Filesystem (Spec_Storage cr) = Some fs → vs_HostPath (fs_VolumeSource fs) = None) →
  ¬ negative (Spec_RequestsRead cr) → ¬ negative (Spec_RequestsWrite cr) →
  generateSecurityContext fmt_q cr (Deployment_Namespace p) w = (Ok sc, w1) →
  PodTemplateSpec' cr p w = (Panics nilPointer, w1).
Proof.
  intros Htls Hone Hhp Hr Hw Hsc. unfold PodTemplateSpec_.
  destruct (storageBranches cr p) as [l|err] eqn:Hl.
  2:{ apply generate_storageBranches_err in Hl as [_ (fs & Hfs & [hp Hp])].
      rewrite (Hhp fs Hfs) in Hp. discriminate Hp. }
  rewrite (generate_storageBranches_count _ _ _ Hl), Hone. cbn [Z.eqb Pos.eqb negb].
  destruct (requestsBranch_cases "Read" "READ" (Spec_RequestsRead cr) (env l))
    as [_ Hrpos].
  destruct (Hrpos Hr) as (env1 & -> & _).
  destruct (requestsBranch_cases "Write" "WRITE" (Spec_RequestsWrite cr) (env l ++ env1))
    as [_ Hwpos].
  destruct (Hwpos Hw) as (env2 & -> & _).
  unfold bind. rewrite Hsc, Htls. reflexivity.
Qed.

End PodTemplate.

(** ** The properties above at work on the examples *)

Section FurtherRuns.
Import Handler HandlerExamples.

(** The Available condition of the example registry is replaced by a False
    one, and no second condition of that type appears. *)
Lemma updateCondition_replaces_example :
  Type_ <$> Conditions (CRStatus
    (updateCondition availableSince100
       {| Type_ := OperatorStatusTypeAvailable; Status := ConditionFalse;
          LastTransitionTime := 200; Reason := "ResourceApplied";
          Message := "unable to apply objects" |}).1) = [OperatorStatusTypeAvailable].
Proof.
  pose proof (updateCondition_replaces_on_type availableSince100
                {| Type_ := OperatorStatusTypeAvailable; Status := ConditionFalse;
                   LastTransitionTime := 200; Reason := "ResourceApplied";
                   Message := "unable to apply objects" |}) as Hx.
  cbv zeta in Hx. destruct Hx as (Hnodup & _).
  { apply NoDup_singleton. }
  reflexivity.
Defined.

End FurtherRuns.

Section OwnerRuns.
Import Handler Events EventsExamples OwnerExamples.

(** A secret without an owner is answered with nil and no call; the secret
    of the example names an ImageRegistry as its controller. *)
Lemma getImageRegistryForResource_example :
  getImageRegistryForResource quiet handler
    (MemCluster.namedMeta "openshift-image-registry" "builder-token") start =
    (Ok None, start) ∧
  ∃ ref, GetControllerOf (controlledBy "uid-0") = Some ref ∧
         K8s.or_Kind ref = "ImageRegistry".
Proof.
  split.
  - apply (proj1 (getImageRegistryForResource_only_managed quiet handler
                    (MemCluster.namedMeta "openshift-image-registry" "builder-token")
                    start)).
    reflexivity.
  - destruct (getImageRegistryForResource quiet handler (controlledBy "uid-0") start)
      as [[[cr|]|e] w'] eqn:E.
    + destruct (proj2 (getImageRegistryForResource_only_managed quiet handler
                         (controlledBy "uid-0") start) cr) as (_ & ref & Href & Hkind & _).
      { by rewrite E. }
      exists ref. split; [exact Href|exact Hkind].
    + vm_compute in E. discriminate E.
    + vm_compute in E. discriminate E.
Defined.

(** The secret of the example is controlled by a resource with another UID
    than the one the cluster holds: the event costs one read. *)
Lemma events_ignore_example :
  effects (reDeployByEvent quiet handler secretChanged (resource_Secret quiet) start).2 =
    [Called "sdk.Get" ["openshift-image-registry"; "image-registry"]].
Proof.
  destruct (getImageRegistryForResource quiet handler (controlledBy "uid-0") start)
    as [[[cr|]|e] w'] eqn:E.
  - destruct (events_ignore_objects_of_other_owners quiet handler secretChanged
                (resource_Secret quiet) (controlledBy "uid-0") cr start w'
                eq_refl E) as [_ Hre].
    { vm_compute in E. injection E as <- <-. reflexivity. }
    rewrite Hre. vm_compute in E. injection E as <- <-. reflexivity.
  - vm_compute in E. discriminate E.
  - vm_compute in E. discriminate E.
Defined.

(** A driver that rejects the configuration: the registry resource is not
    deployed, and only the config state has been read. *)
Lemma CreateOrUpdateResources_example :
  (CreateOrUpdateResources rejecting handler HandlerExamples.availableSince100 false
     start).1.1.1 =
    Some (PlainError "bad custom resource: storage backend cannot be changed") ∧
  effects (CreateOrUpdateResources rejecting handler HandlerExamples.availableSince100
             false start).2 =
    [Called "resource.GetConfigState" ["openshift-image-registry"]].
Proof.
  rewrite (CreateOrUpdateResources_validates_first rejecting handler
             HandlerExamples.availableSince100 false _ _ _ _ _ _ _ start
             eq_refl eq_refl eq_refl eq_refl eq_refl).
  split; reflexivity.
Defined.

End OwnerRuns.

Section RetryRuns.
Import Resource RetryExamples.

(** One racing writer: the second attempt gets through. Writers without
    end: four attempts, and the conflict is the error. A refused create and
    a refused update are not tried again. *)
Lemma only_update_conflicts_example :
  (Retry.RetryOnConflict Retry.DefaultBackoffSteps (applyObject deployment) (raced 1)).1
    = None ∧
  length (calls (Retry.RetryOnConflict Retry.DefaultBackoffSteps
                   (applyObject contended) (raced 0)).2) = 8%nat ∧
  length (calls (Retry.RetryOnConflict Retry.DefaultBackoffSteps
                   (applyObject (refused true)) (raced 0)).2) = 2%nat ∧
  length (calls (Retry.RetryOnConflict Retry.DefaultBackoffSteps
                   (applyObject (refused false)) (raced 0)).2) = 2%nat.
Proof.
  split; [|split; [|split]].
  - destruct (only_update_conflicts_are_retried deployment (raced 1)) as (Hretry & _).
    by rewrite (Hretry _ _ _ _ _ _ _ _ _ eq_refl eq_refl eq_refl eq_refl eq_refl).
  - destruct (only_update_conflicts_are_retried contended (raced 0))
      as (_ & Hgiveup & _).
    by rewrite (Hgiveup 0%nat modified (λ s, eq_refl) (λ s, eq_refl) eq_refl).
  - destruct (only_update_conflicts_are_retried (refused true) (raced 0))
      as (_ & _ & Hcreate & _).
    by rewrite (Hcreate _ _ _ _ eq_refl eq_refl eq_refl).
  - destruct (only_update_conflicts_are_retried (refused false) (raced 0))
      as (_ & _ & _ & Hupdate).
    by rewrite (Hupdate _ _ _ _ eq_refl eq_refl eq_refl).
Defined.

(** The thirteen mutators of the example are all owned: the loop of
    [Remove] deletes every one of them. *)
Lemma Remove_deletes_owned_example :
  calls (removeObjects foregroundNow mutators (ResourceExamples.world0 0)).2 =
    ResourceExamples.deletions.
Proof.
  destruct (Remove_deletes_owned_objects_first
              (ResourceExamples.env ResourceExamples.driver)
              ResourceExamples.generator ResourceExamples.config mutators
              (ResourceExamples.world0 0) eq_refl) as (n & Hcalls & _ & Hall & _).
  rewrite Hcalls, (Hall eq_refl). reflexivity.
Defined.

(** Ten mutators and those of the routes a and c come before the one of
    the cluster operator. *)
Lemma list_cluster_operator_last_example :
  length mutators = 13%nat ∧
  GetName <$> last mutators = Some "cluster-operator".
Proof.
  destruct (list_cluster_operator_last (ResourceExamples.env ResourceExamples.driver)
              ResourceExamples.generator ResourceExamples.config mutators eq_refl)
    as (configClient & routeClient & before & _ & _ & Hgens & _ & Hlen).
  rewrite Hgens, length_app, Hlen, last_snoc. split; reflexivity.
Defined.

End RetryRuns.

Section ModifiedFlagRuns.
Import K8s Operator MemCluster SlotExamples.

(** The service account that a first pass has created carries no digest:
    the next pass updates it, and the pass after that one only reads. *)
Lemma ApplyTemplate_update_then_fast_path_example :
  let second :=
    @ApplyTemplate _ slot Object_checksum gvk o_Content serviceAccount (created, false) in
  second.2.2 = true ∧
  sdk_calls (@ApplyTemplate _ slot Object_checksum gvk o_Content serviceAccount
               (second.2.1, false)).2.1
    = [SdkGet "ServiceAccount"; SdkUpdate "ServiceAccount"; SdkGet "ServiceAccount"].
Proof.
  cbv zeta.
  destruct (@ApplyTemplate_update_then_fast_path _ slot Object_checksum gvk o_Content
              serviceAccount "sha256:ServiceAccount/" _ _ _ _ _ _ _ created false
              eq_refl eq_refl eq_refl ltac:(vm_compute; discriminate)
              eq_refl eq_refl eq_refl eq_refl)
    as [Hfirst Hnext].
  split; [by rewrite Hfirst|]. rewrite (Hnext false). reflexivity.
Defined.

End ModifiedFlagRuns.

(** ** The generators at work on the example cluster *)

Section GeneratedRuns.
Import K8s V1alpha1 MemCluster.

Local Abbreviation generated storage :=
  (Operator.GenerateDeploymentConfig quote (registry storage) parameters
     (freshWorld registryCluster)).

Local Abbreviation podTemplate cr :=
  (Generate.PodTemplateSpec_ quote seconds "secret" "configmap" cr parameters
     (freshWorld registryCluster)).

Local Ltac succeeds H t :=
  assert (H : is_Ok t = true) by (vm_compute; reflexivity).

(** The service of the example registry selects what its deployment config
    selects. *)
Lemma generated_objects_fit_example :
  match (generated onlyS3).1 with
  | Ok dc =>
      ss_Selector (svc_Spec (Operator.GenerateService (registry onlyS3) parameters)) =
      dcs_Selector (dc_Spec dc)
  | Err _ => False
  end.
Proof.
  succeeds Hok (generated onlyS3).1.
  destruct (generated onlyS3) as [[dc|e] w'] eqn:E; cbn [fst] in *; [|discriminate Hok].
  destruct (generated_objects_fit_together quote override (registry onlyS3) parameters
              _ _ dc E)
    as (tpl & c & port & account & _ & _ & _ & _ & Hsvc & Hdc & _).
  congruence.
Defined.

(** The deployment config of the example registry has the registry as its
    only owner. *)
Lemma generated_objects_controller_example :
  match (generated onlyS3).1 with
  | Ok dc => or_UID <$> OwnerReferences (dc_ObjectMeta dc) = ["uid-1"]
  | Err _ => False
  end.
Proof.
  succeeds Hok (generated onlyS3).1.
  destruct (generated onlyS3) as [[dc|e] w'] eqn:E; cbn [fst] in *; [|discriminate Hok].
  destruct (generated_objects_name_their_controller (S:=Mem) quote override
              (registry onlyS3) parameters)
    as (_ & _ & _ & _ & _ & _ & _ & Hdc).
  destruct (Hdc _ _ dc E) as [-> _]. reflexivity.
Defined.

(** The filesystem variant with an empty directory: one volume, mounted at
    /registry. *)
Lemma deployment_config_storage_example :
  match (generated onlyFilesystem).1 with
  | Ok dc =>
      (λ tpl, vol_Name <$> ps_Volumes (pt_Spec tpl)) <$> dcs_Template (dc_Spec dc) =
      Some ["registry-storage"]
  | Err _ => False
  end.
Proof.
  succeeds Hok (generated onlyFilesystem).1.
  destruct (generated onlyFilesystem) as [[dc|e] w'] eqn:E; cbn [fst] in *;
    [|discriminate Hok].
  destruct (deployment_config_storage quote (registry onlyFilesystem) parameters
              _ _ dc E)
    as (tpl & c & backend & -> & _ & _ & _ & _ & _ & Hfs).
  cbn [fmap option_fmap option_map].
  destruct (Hfs emptyDir eq_refl) as [-> _]. reflexivity.
Defined.

(** The secret key of the example bucket is in the environment of the
    container. *)
Lemma deployment_config_credentials_example :
  match (generated onlyS3).1 with
  | Ok dc =>
      ∃ tpl c, dcs_Template (dc_Spec dc) = Some tpl ∧ ps_Containers (pt_Spec tpl) = [c] ∧
               envValue "REGISTRY_STORAGE_S3_SECRETKEY" "secret" ∈ c_Env c
  | Err _ => False
  end.
Proof.
  succeeds Hok (generated onlyS3).1.
  destruct (generated onlyS3) as [[dc|e] w'] eqn:E; cbn [fst] in *; [|discriminate Hok].
  destruct (deployment_config_carries_credentials quote (registry onlyS3) parameters
              _ _ dc E)
    as (tpl & c & Htpl & Hc & _ & Hs3 & _).
  exists tpl, c. split; [done|]. split; [done|].
  by destruct (Hs3 bucket eq_refl) as [_ Hkey].
Defined.

(** The namespace of the example is annotated with the range
    1000080000/10000. *)
Lemma security_context_example :
  (Generate.generateSecurityContext quote (registry onlyS3) "openshift-image-registry"
     (freshWorld registryCluster)).1 = Ok {| FSGroup := Some 1000080000 |}.
Proof.
  set (project := {| prj_TypeMeta := {| APIVersion := "project.openshift.io/v1";
                                        Kind := "Project" |};
                     prj_ObjectMeta := namedMeta "" "openshift-image-registry" |}).
  assert (Hrange :
    match (sdk_Get project (sdk_cluster (freshWorld registryCluster))).1 with
    | Ok ns =>
        match Annotations (prj_ObjectMeta ns) !! Operator.supplementalGroupsAnnotation with
        | Some range =>
            String.eqb range (GoText.fmt_d 1000080000 +:+ "/" +:+ "10000")
        | None => false
        end
    | Err _ => false
    end = true) by (vm_compute; reflexivity).
  destruct (sdk_Get project (sdk_cluster (freshWorld registryCluster)))
    as [[ns|e] s1] eqn:Hget; cbn [fst] in Hrange; [|discriminate Hrange].
  destruct (Annotations (prj_ObjectMeta ns) !! Operator.supplementalGroupsAnnotation)
    as [range|] eqn:Hann; [|discriminate Hrange].
  apply String.eqb_eq in Hrange. subst range.
  destruct (security_context_takes_first_group quote (registry onlyS3)
              "openshift-image-registry" (freshWorld registryCluster) ns s1
              1000080000 "10000" Hget Hann)
    as [_ Hgen]; [lia|].
  by rewrite Hgen.
Defined.

(** S3 and TLS: no volume for the storage, one for the TLS secret, one for
    the certificates. *)
Lemma pod_template_example :
  match (podTemplate (registry onlyS3)).1 with
  | Returns (Ok (spec, _)) =>
      vol_Name <$> ps_Volumes (pt_Spec spec) = ["registry-tls"; "registry-certificates"]
  | _ => False
  end.
Proof.
  assert (Hok : match (podTemplate (registry onlyS3)).1 with
                | Returns (Ok _) => true
                | _ => false
                end = true) by (vm_compute; reflexivity).
  destruct (podTemplate (registry onlyS3)) as [[[[spec annotations]|e]|reason] w'] eqn:E;
    cbn [fst] in *; [|discriminate Hok|discriminate Hok].
  destruct (pod_template_storage_and_tls quote seconds "secret" "configmap"
              (registry onlyS3) parameters _ _ spec annotations E)
    as (c & backend & tls & _ & _ & _ & Htls & _ & -> & _).
  injection Htls as <-. reflexivity.
Defined.

(** A registry without storage is refused without a call; the example with
    its bucket makes the generator read the cluster. *)
Lemma pod_template_refuses_example :
  sdk_calls (podTemplate (registry noStorage)).2 = [] ∧
  sdk_calls (podTemplate (registry onlyS3)).2 ≠ [].
Proof.
  split.
  - destruct (proj1 (pod_template_refuses_before_reading quote seconds "secret"
                       "configmap" (registry noStorage) parameters
                       (freshWorld registryCluster))) as [err ->].
    + left. discriminate.
    + reflexivity.
  - destruct (proj2 (pod_template_refuses_before_reading quote seconds "secret"
                       "configmap" (registry onlyS3) parameters
                       (freshWorld registryCluster))) as (c & cs & ->).
    + intros [Hne|[(fs & Hfs & _)|[[Hr|Hq]|[Hr|Hq]]]];
        [by apply Hne | discriminate Hfs | discriminate Hr | discriminate Hq
        | discriminate Hr | discriminate Hq].
    + discriminate.
Defined.

(** The example registry without a value for TLS: the generator panics
    after its read of the project. *)
Lemma pod_template_panics_example :
  (podTemplate (PodExamples.withoutTLS (registry onlyS3))).1 =
    Panics Generate.nilPointer ∧
  length (sdk_calls (podTemplate (PodExamples.withoutTLS (registry onlyS3))).2) = 1%nat.
Proof.
  succeeds Hok
    (Generate.generateSecurityContext quote (PodExamples.withoutTLS (registry onlyS3))
       (Deployment_Namespace parameters) (freshWorld registryCluster)).1.
  destruct (generateSecurityContext_calls quote
              (PodExamples.withoutTLS (registry onlyS3))
              (Deployment_Namespace parameters) (freshWorld registryCluster))
    as [c Hcalls].
  destruct (Generate.generateSecurityContext quote
              (PodExamples.withoutTLS (registry onlyS3))
              (Deployment_Namespace parameters) (freshWorld registryCluster))
    as [[sc|e] w1] eqn:Hsc; cbn [fst snd] in *; [|discriminate Hok].
  rewrite (pod_template_panics_without_tls quote seconds "secret" "configmap"
             (PodExamples.withoutTLS (registry onlyS3)) parameters
             (freshWorld registryCluster) sc w1 eq_refl eq_refl).
  - split; [reflexivity|]. cbn [snd]. by rewrite Hcalls.
  - intros fs Hfs. discriminate Hfs.
  - intros [Hr|Hq]; [discriminate Hr|discriminate Hq].
  - intros [Hr|Hq]; [discriminate Hr|discriminate Hq].
  - exact Hsc.
Defined.

End GeneratedRuns.
